(** * Index-tracking data preparation: [prepare_data.py] and [data_io.py]

    A shallow embedding of the price/return pipeline.  The two source files
    are thin layers over pandas, so the development has two levels:

    - [Module pd]: the pandas operations the source calls ([ffill],
      [pct_change], [dropna], [Index.intersection], [.loc], [concat],
      [sort_index], [join], [std], ...), written as list programs over
      IEEE-754 binary64 cells.  The behaviour modelled is that of pandas
      1.x/2.x, the versions on which the source runs as written (it resamples
      with the rule ["M"], which later versions reject).
    - the functions of the repository, under their own names, as compositions
      of those operations, with exceptions as a sum type and the effects of
      [main] (console, file system) as an event log.

    A cell is a binary64 value; an undefined cell is NaN, as in pandas.
    A date is the ordinal of its timestamp. *)

From Stdlib Require Import ZArith List String Ascii Bool Lia Sorted Permutation.
From Stdlib Require Import Floats.
From stdpp Require Import base list.
Import ListNotations.

Local Open Scope string_scope.
Local Open Scope list_scope.
Local Open Scope Z_scope.

(** ** Exceptions *)

(** The messages of the [ValueError]s that can be raised, with the values
    interpolated into them. *)
Inductive message : Type :=
| NoDataReturned (symbol : string)
    (* f"No data returned for symbol: {symbol}" *)
| TooFewObservations (n_obs min_days : Z)
    (* f"Too few common observations after alignment: {n_obs} < {min_days}. ..." *)
| LimitMustBePositive
    (* pandas: "Limit must be greater than 0" *)
| NoObjectsToConcatenate
    (* pandas: "No objects to concatenate" *)
| DuplicateLabels.
    (* pandas: "cannot reindex on an axis with duplicate labels" *)

(** The key of a failed lookup: a column label or a row label. *)
Inductive key : Type :=
| KStr (s : string)
| KDate (d : Z).

Inductive exn : Type :=
| ValueError (msg : message)
| KeyError (k : key)
| IndexError
| TypeError
    (* pandas: "cannot concatenate unaligned mixed dimensional NDFrame
       objects" *)
| OverflowError
    (* a Python integer that does not fit the C [int] it is converted to *)
| SystemExit (code : Z)
    (* argparse: 2 after a usage error, 0 after [--help] *)
| OSError (errno : Z)
    (* a failed operation of the file system or of the console *)
| OtherError (class_name : string).
    (* any other exception that a collaborator raises *)

Definition result (A : Type) : Type := (exn + A)%type.

Definition Ok {A} (a : A) : result A := inr a.
Definition Raise {A} (e : exn) : result A := inl e.

Definition rbind {A B} (m : result A) (k : A -> result B) : result B :=
  match m with
  | inl e => inl e
  | inr a => k a
  end.

Notation "'let?' x ':=' m 'in' k" := (rbind m (fun x => k))
  (at level 10, x pattern, m at level 100, k at level 200).

(** ** Tables *)

Definition date : Type := Z.
Definition cell : Type := float.

Definition isna (x : cell) : bool := PrimFloat.is_nan x.
Definition notna (x : cell) : bool := negb (isna x).

(** A pandas [Series]: a name, an index and the values at its labels. *)
Record Series : Type := mkSeries {
  name : string;
  s_index : list date;
  values : list cell
}.

(** A pandas [DataFrame], column-major: the index (row labels) and the
    columns in order, each a label with its values, one per row. *)
Record DataFrame : Type := mkDataFrame {
  index : list date;
  columns : list (string * list cell)
}.

Definition labels (df : DataFrame) : list string := map fst (columns df).

(** [len(df)] *)
Definition len (df : DataFrame) : nat := length (index df).

(** Every column has one value per row. *)
Definition well_formed (df : DataFrame) : Prop :=
  Forall (fun c => length (snd c) = length (index df)) (columns df).

Definition s_well_formed (s : Series) : Prop :=
  length (values s) = length (s_index s).

Definition map_columns (f : list cell -> list cell) (df : DataFrame) : DataFrame :=
  mkDataFrame (index df) (map (fun c => (fst c, f (snd c))) (columns df)).

Module pd.

(** *** [ffill] *)

(** [validate_limit]: a limit, when given, must be at least 1; the fill
    routine then holds it in a C [int], so a limit from [2^31] on is an
    [OverflowError]. *)
Definition validate_limit (nobs : nat) (limit : option Z) : result nat :=
  match limit with
  | None => Ok nobs
  | Some l => if l <? 1 then Raise (ValueError LimitMustBePositive)
              else if 2 ^ 31 <=? l then Raise OverflowError
              else Ok (Z.to_nat l)
  end.

(** The loop of [pad_2d_inplace] over one column: [val] is the last value
    seen at a defined cell (initially the first cell), [fill_count] the
    number of cells filled since, [i] the row. *)
Fixpoint pad_loop (lim : nat) (val : cell) (fill_count : nat) (i : nat)
    (vs : list cell) : list cell :=
  match vs with
  | [] => []
  | v :: rest =>
      if isna v then
        if (lim <=? fill_count)%nat || (i =? 0)%nat
        then v :: pad_loop lim val fill_count (S i) rest
        else val :: pad_loop lim val (S fill_count) (S i) rest
      else v :: pad_loop lim v 0 (S i) rest
  end.

Definition pad_1d (lim : nat) (vs : list cell) : list cell :=
  match vs with
  | [] => []
  | v0 :: _ => pad_loop lim v0 0 0 vs
  end.

(** [values.size]: the number of cells. *)
Definition size (df : DataFrame) : nat :=
  (length (index df) * length (columns df))%nat.

(** [DataFrame.ffill(limit=limit)].  The limit is validated by the fill
    routine, which runs only when the frame has cells. *)
Definition ffill (limit : option Z) (df : DataFrame) : result DataFrame :=
  if (size df =? 0)%nat then Ok df
  else
    let? lim := validate_limit (len df) limit in
    Ok (map_columns (pad_1d lim) df).

(** *** [pct_change] *)

(** [shift(1)]: every value moves one row down; the first row is NaN. *)
Definition shift (vs : list cell) : list cell :=
  firstn (length vs) (nan :: vs).

Definition zip_cells (f : cell -> cell -> cell) : list cell -> list cell -> list cell :=
  fix go (xs ys : list cell) : list cell :=
    match xs, ys with
    | x :: xs', y :: ys' => f x y :: go xs' ys'
    | _, _ => []
    end.

(** [pct_change()] with its defaults: the column is forward-filled without
    limit ([fill_method='pad'], the limit then being the number of rows),
    and the result is [data / data.shift(1) - 1]. *)
Definition pct_change_col (nobs : nat) (vs : list cell) : list cell :=
  let data := pad_1d nobs vs in
  zip_cells (fun x prev => (x / prev - 1)%float) data (shift data).

Definition pct_change (df : DataFrame) : DataFrame :=
  map_columns (pct_change_col (len df)) df.

(** *** [dropna] *)

(** The rows of a list selected by a boolean mask. *)
Fixpoint compress {A} (mask : list bool) (l : list A) : list A :=
  match mask, l with
  | b :: mask', x :: l' => if b then x :: compress mask' l' else compress mask' l'
  | _, _ => []
  end.

Definition cell_of_row (i : nat) (c : string * list cell) : cell := nth i (snd c) nan.

(** [notna(df).any(axis=1)] and [notna(df).all(axis=1)] *)
Definition notna_any (df : DataFrame) : list bool :=
  map (fun i => existsb (fun c => notna (cell_of_row i c)) (columns df)) (seq 0 (len df)).

Definition notna_all (df : DataFrame) : list bool :=
  map (fun i => forallb (fun c => notna (cell_of_row i c)) (columns df)) (seq 0 (len df)).

Definition select_rows (mask : list bool) (df : DataFrame) : DataFrame :=
  mkDataFrame (compress mask (index df))
              (map (fun c => (fst c, compress mask (snd c))) (columns df)).

(** [dropna(how="all")]: a row goes when every cell of it is undefined. *)
Definition dropna_rows_all (df : DataFrame) : DataFrame :=
  select_rows (notna_any df) df.

(** [dropna()]: a row goes when some cell of it is undefined. *)
Definition dropna_rows_any (df : DataFrame) : DataFrame :=
  select_rows (notna_all df) df.

(** [dropna(axis=1, how="all")]: a column goes when every cell of it is
    undefined. *)
Definition dropna_columns_all (df : DataFrame) : DataFrame :=
  mkDataFrame (index df) (List.filter (fun c => existsb notna (snd c)) (columns df)).

(** *** [Index.intersection] and [.loc] *)

Definition contains (idx : list date) (d : date) : bool := existsb (Z.eqb d) idx.

(** [Index.unique()]: first occurrences, in order. *)
Fixpoint unique (idx : list date) : list date :=
  match idx with
  | [] => []
  | d :: rest => d :: List.filter (fun e => negb (e =? d)) (unique rest)
  end.

(** [a.intersection(b)]: the labels of [a] that [b] has, once each, in the
    order of [a]. *)
Definition intersection (a b : list date) : list date :=
  List.filter (contains b) (unique a).

(** The entries of a column at the rows labelled [d], in row order. *)
Definition rows_at {A} (idx : list date) (vs : list A) (d : date) : list A :=
  map snd (List.filter (fun r => fst r =? d) (combine idx vs)).

(** The rows of [df] that carry the labels [keys], key by key. *)
Definition located (keys : list date) (df : DataFrame) : DataFrame :=
  mkDataFrame
    (flat_map (rows_at (index df) (index df)) keys)
    (map (fun c => (fst c, flat_map (rows_at (index df) (snd c)) keys))
         (columns df)).

(** [df.loc[keys]] for a list of labels: for each key in turn, every row
    that carries it; a key that labels no row is a [KeyError]. *)
Definition loc (keys : list date) (df : DataFrame) : result DataFrame :=
  match List.find (fun d => negb (contains (index df) d)) keys with
  | Some d => Raise (KeyError (KDate d))
  | None => Ok (located keys df)
  end.

(** *** [sort_index] *)

(** Stable insertion of a labelled entry into entries sorted by label.
    (On equal labels numpy's default sort fixes no order; no statement below
    depends on the order among equal labels.) *)
Fixpoint insert_by_label {A} (r : date * A) (l : list (date * A)) : list (date * A) :=
  match l with
  | [] => [r]
  | h :: t => if fst r <=? fst h then r :: h :: t else h :: insert_by_label r t
  end.

Definition sort_by_label {A} (l : list (date * A)) : list (date * A) :=
  fold_right insert_by_label [] l.

(** The entries of a column reordered as the index sorts, ascending. *)
Definition sorted_values {A} (idx : list date) (vs : list A) : list A :=
  map snd (sort_by_label (combine idx vs)).

(** [Series.sort_index()] and [DataFrame.sort_index()] *)
Definition sort_index_series (s : Series) : Series :=
  mkSeries (name s) (sorted_values (s_index s) (s_index s))
           (sorted_values (s_index s) (values s)).

Definition sort_index (df : DataFrame) : DataFrame :=
  mkDataFrame (sorted_values (index df) (index df))
              (map (fun c => (fst c, sorted_values (index df) (snd c))) (columns df)).

(** *** Columns of a frame *)

(** [df.empty]: some axis has length 0. *)
Definition empty (df : DataFrame) : bool :=
  (length (index df) =? 0)%nat || (length (columns df) =? 0)%nat.

(** [candidate in df.columns] *)
Definition has_column (df : DataFrame) (label : string) : bool :=
  existsb (String.eqb label) (labels df).

(** [df[label]] for one label: the column as a series, or a [KeyError].
    (Column labels are taken to be distinct, as those of a price table
    are.) *)
Definition getitem (df : DataFrame) (label : string) : result Series :=
  match List.find (fun c => String.eqb label (fst c)) (columns df) with
  | Some c => Ok (mkSeries (fst c) (index df) (snd c))
  | None => Raise (KeyError (KStr label))
  end.

(** [Series.to_frame()] *)
Definition to_frame (s : Series) : DataFrame :=
  mkDataFrame (s_index s) [(name s, values s)].

(** *** [concat(objs, axis=1)] *)

Definition index_eqb (a b : list date) : bool :=
  if decide (a = b) then true else false.

Definition is_unique (idx : list date) : bool :=
  if decide (NoDup idx) then true else false.

(** The cell of a column at the row labelled [d]; NaN when no row is. *)
Definition cell_at (idx : list date) (vs : list cell) (d : date) : cell :=
  match rows_at idx vs d with
  | v :: _ => v
  | [] => nan
  end.

(** [reindex]: the column laid out on another index. *)
Definition reindex (idx : list date) (vs : list cell) (new_index : list date) : list cell :=
  map (cell_at idx vs) new_index.

(** Objects are put side by side on the union of their indexes (outer
    join).  Objects that all carry the same index are put side by side as
    they are; otherwise each is reindexed to the union, which needs its
    labels to be distinct.  The union lists labels in order of first
    appearance.  (One corner is not followed: an object with repeated
    labels whose index happens to be the union is not reindexed by pandas,
    which then returns a table; the statements about [concat_axis1] are
    about objects with distinct labels, or are conditional on its result.) *)
Definition concat_axis1 (objs : list DataFrame) : result DataFrame :=
  match objs with
  | [] => Raise (ValueError NoObjectsToConcatenate)
  | o :: rest =>
      if forallb (fun x => index_eqb (index x) (index o)) rest then
        Ok (mkDataFrame (index o) (flat_map columns objs))
      else if forallb (fun x => is_unique (index x)) objs then
        let new_index := unique (flat_map index objs) in
        Ok (mkDataFrame new_index
              (flat_map (fun x =>
                 map (fun c => (fst c, reindex (index x) (snd c) new_index)) (columns x))
                 objs))
      else Raise (ValueError DuplicateLabels)
  end.

(** [concat([s, df], axis=1)] for a series and a table.  pandas takes the
    dimension of the result from the first object of the highest dimension
    that has rows or columns; a table with neither leaves the series as that
    object, and the table cannot be put beside it. *)
Definition concat_series_frame (s : Series) (df : DataFrame) : result DataFrame :=
  if (length (index df) + length (columns df) =? 0)%nat then Raise TypeError
  else concat_axis1 [to_frame s; df].

(** *** [join] and positional column selection *)

(** A label gets the suffix when the other table has it too. *)
Definition suffixed (others : list string) (suffix : string) (c : string * list cell)
    : string * list cell :=
  if existsb (String.eqb (fst c)) others then ((fst c ++ suffix)%string, snd c) else c.

(** [left.join(right, how="inner", lsuffix=.., rsuffix=..)]: the rows are
    the pairs of a row of [left] and a row of [right] with the same label,
    by the rows of [left]; the columns are those of [left], then those of
    [right].  (Where a suffixed label meets a label already there, recent
    pandas raises; the loader is specified on its successful runs only.) *)
Definition join_inner (left right : DataFrame) (lsuffix rsuffix : string) : DataFrame :=
  let matches (d : date) : list date := rows_at (index right) (index right) d in
  mkDataFrame
    (flat_map (fun d => map (fun _ => d) (matches d)) (index left))
    (map (fun c => suffixed (labels right) lsuffix
            (fst c, flat_map (fun r => map (fun _ => snd r) (matches (fst r)))
                             (combine (index left) (snd c))))
         (columns left)
     ++
     map (fun c => suffixed (labels left) rsuffix
            (fst c, flat_map (rows_at (index right) (snd c)) (index left)))
         (columns right)).

Definition series_of (df : DataFrame) (c : string * list cell) : Series :=
  mkSeries (fst c) (index df) (snd c).

(** [df.iloc[:, -1]] and [df.iloc[:, 0]]: out of bounds without columns. *)
Definition iloc_last (df : DataFrame) : result Series :=
  match last (columns df) with
  | Some c => Ok (series_of df c)
  | None => Raise IndexError
  end.

Definition iloc_first (df : DataFrame) : result Series :=
  match columns df with
  | c :: _ => Ok (series_of df c)
  | [] => Raise IndexError
  end.

(** [df.iloc[:, :-1]] and [df.iloc[:, 1:]] *)
Definition iloc_but_last (df : DataFrame) : DataFrame :=
  mkDataFrame (index df) (removelast (columns df)).

Definition iloc_from_second (df : DataFrame) : DataFrame :=
  mkDataFrame (index df) (tl (columns df)).

(** [s.rename(new_name)] *)
Definition rename (s : Series) (new_name : string) : Series :=
  mkSeries new_name (s_index s) (values s).

(** *** [mean] and [std] *)

Definition float_of_nat (n : nat) : float :=
  PrimFloat.of_uint63 (Uint63.of_Z (Z.of_nat n)).

(** The sums of [mean] and [std] are numpy's ([add.reduce] over binary64
    cells).  The order in which numpy adds, and with it the last bits of a
    sum, depends on the number of cells and on the memory layout of the
    data (one by one, or pairwise in blocks from eight cells on), which the
    source does not fix: the sum is a parameter of [mean], [var] and [std].
    [sum_in_order] is the sum of fewer than eight cells, taken left to
    right. *)
Definition sum_in_order (vs : list cell) : cell := fold_left PrimFloat.add vs 0%float.

Definition count (vs : list cell) : nat := length (List.filter notna vs).

Definition zero_na (vs : list cell) : list cell :=
  map (fun v => if isna v then 0%float else v) vs.

(** [mean()], undefined cells skipped: NaN when no cell is defined. *)
Definition mean (sum : list cell -> cell) (vs : list cell) : cell :=
  (sum (zero_na vs) / float_of_nat (count vs))%float.

(** [nanvar] with [ddof], pandas' own routine: NaN unless more than [ddof]
    cells are defined.  [sum_values] adds the cells, [sum_squares] the
    squared deviations. *)
Definition var (sum_values sum_squares : list cell -> cell) (ddof : nat) (vs : list cell)
    : cell :=
  if (count vs <=? ddof)%nat then nan
  else
    let avg := (sum_values (zero_na vs) / float_of_nat (count vs))%float in
    let sqr := map (fun v => if isna v then 0%float
                             else ((avg - v) * (avg - v))%float) vs in
    (sum_squares sqr / float_of_nat (count vs - ddof))%float.

(** [std()]: the sample standard deviation ([ddof=1]). *)
Definition std (sum_values sum_squares : list cell -> cell) (vs : list cell) : cell :=
  PrimFloat.sqrt (var sum_values sum_squares 1 vs).

(** [std.replace(0.0, 1.0)] on one entry: the comparison is that of
    floating-point numbers, so both zeros match and NaN does not. *)
Definition replace (to_replace value x : cell) : cell :=
  if PrimFloat.eqb x to_replace then value else x.

End pd.

(** ** [prepare_data.py] *)

(** [_forward_fill_limited(df, max_gap)]: [df.ffill(limit=max_gap)]. *)
Definition _forward_fill_limited (df : DataFrame) (max_gap : Z) : result DataFrame :=
  pd.ffill (Some max_gap) df.

(** [_to_simple_returns(prices)]: [pct_change()] then [dropna(how="all")]. *)
Definition _to_simple_returns (prices : DataFrame) : DataFrame :=
  let rets := pd.pct_change prices in
  pd.dropna_rows_all rets.

(** [_intersect_dates(a, b)] *)
Definition _intersect_dates (a b : DataFrame) : result (DataFrame * DataFrame) :=
  let common := pd.intersection (index a) (index b) in
  let? a' := pd.loc common a in
  let? b' := pd.loc common b in
  Ok (a', b').

(** *** [main]: arguments, events

    The namespace that [parse_args] returns: one field per declared
    argument ([--min-days] is declared with [type=int], [--tickers] with
    [nargs="+"]). *)
Module Args.
Record t : Type := mk {
  index : string;
  tickers : list string;
  start : string;
  end_ : string;
  freq : string;
  outdir : string;
  min_days : Z
}.
End Args.

(** One [add_argument] call: the option, whether it is required, its
    [nargs], whether its [type] is [int], its default and its choices. *)
Inductive value : Type :=
| VStr (s : string)
| VInt (z : Z).

Record argument : Type := mkArgument {
  option_name : string;
  arg_required : bool;
  arg_nargs : option string;
  arg_int : bool;
  arg_default : option value;
  arg_choices : option (list string)
}.

(** The provenance record written to [metadata.json]. *)
Record Metadata : Type := mkMetadata {
  source : string;
  index_symbol : string;
  asset_symbols : list string;
  meta_start : string;
  meta_end : string;
  frequency : string;
  n_observations : Z;
  generated_at : string;
  notes : string
}.

(** What [main] does to the world, in order. *)
Inductive event : Type :=
| Makedirs (path : string)
| Print (line : string)
| ToCsv (path : string) (table : DataFrame) (index_label : string)
| JsonDump (path : string) (meta : Metadata).

(** An output file is written by [to_csv] and [json.dump]. *)
Definition persists (e : event) : bool :=
  match e with
  | ToCsv _ _ _ | JsonDump _ _ => true
  | Makedirs _ | Print _ => false
  end.

(** The calls of numpy's sum in [standardise_returns], each on data of
    its own shape: in [y2.mean()], in [X2.mean(axis=0)], and the two in
    [X2.std(axis=0)] (the mean of a column, then its squared deviations). *)
Inductive reduction : Type :=
| MeanOfSeries
| MeanOfColumn
| StdMean
| StdSquares.

(** *** Collaborators

    What the program reaches outside itself for: the command line as
    argparse reads it, the Stooq reader of pandas_datareader, pandas'
    calendar resampling ([df.resample(rule).last()]), the CSV reader, the
    clock, numpy's sums, the interpreter's case mapping of non-ASCII text,
    and the console and the file system, where every operation can fail. *)
Record Env : Type := mkEnv {
  argparse : list argument -> result Args.t;
    (* parser.parse_args() on the command line, for a parser with these
       arguments *)
  DataReader : string -> string -> string -> string -> result DataFrame;
    (* pdr.DataReader(symbol, "stooq", start=start, end=end) *)
  resample_last : string -> DataFrame -> result DataFrame;
    (* df.resample(rule).last() *)
  read_csv_indexed : string -> string -> result DataFrame;
    (* pd.read_csv(path, parse_dates=[date_col]).set_index(date_col) *)
  utcnow_isoformat : string;
    (* datetime.utcnow().isoformat() *)
  np_sum : reduction -> list cell -> cell;
    (* values.sum(): numpy's add.reduce, in its own order of additions *)
  unicode_upper : string -> string;
    (* str.upper() on a string with non-ASCII characters *)
  io_error : event -> option exn
    (* the exception that the operation raises, if it does *)
}.

(** The price field: the first of the candidates that the table has, and
    "Close" when it has none. *)
Definition price_column (df : DataFrame) : string :=
  match List.find (pd.has_column df) ["Adj Close"; "AdjClose"; "Close"] with
  | Some candidate => candidate
  | None => "Close"
  end.

(** [_fetch_stooq(symbol, start, end)] *)
Definition _fetch_stooq (env : Env) (symbol start end_ : string) : result Series :=
  let? df := DataReader env symbol "stooq" start end_ in
  if pd.empty df then Raise (ValueError (NoDataReturned symbol))
  else
    let col := price_column df in
    let? column := pd.getitem df col in
    let s := pd.sort_index_series column in
    Ok (mkSeries symbol (s_index s) (values s)).

(** The loop of [_fetch_many]: one fetch per symbol, in order; the first
    failure ends it. *)
Fixpoint fetch_each (env : Env) (symbols : list string) (start end_ : string)
    : result (list Series) :=
  match symbols with
  | [] => Ok []
  | sym :: rest =>
      let? s := _fetch_stooq env sym start end_ in
      let? series := fetch_each env rest start end_ in
      Ok (s :: series)
  end.

(** [_fetch_many(symbols, start, end)].  (The index of the panel holds
    dates already: [pd.to_datetime] leaves it as it is.) *)
Definition _fetch_many (env : Env) (symbols : list string) (start end_ : string)
    : result DataFrame :=
  let? series := fetch_each env symbols start end_ in
  let? prices := pd.concat_axis1 (map pd.to_frame series) in
  Ok (pd.sort_index prices).

(** [str.upper()].  A string is held as its UTF-8 bytes.  On a string of
    ASCII characters [upper] maps the letters a..z to A..Z and keeps every
    other character; on any other string it is the Unicode case mapping of
    the interpreter (under which, for one, the dotless i U+0131 becomes I). *)
Definition upper_char (c : ascii) : ascii :=
  let n := nat_of_ascii c in
  if ((97 <=? n) && (n <=? 122))%nat then ascii_of_nat (n - 32) else c.

Fixpoint ascii_upper (s : string) : string :=
  match s with
  | EmptyString => EmptyString
  | String c rest => String (upper_char c) (ascii_upper rest)
  end.

Fixpoint isascii (s : string) : bool :=
  match s with
  | EmptyString => true
  | String c rest => (nat_of_ascii c <? 128)%nat && isascii rest
  end.

Definition upper (env : Env) (s : string) : string :=
  if isascii s then ascii_upper s else unicode_upper env s.

Definition str_in (s : string) (l : list string) : bool := existsb (String.eqb s) l.

(** [d[k]] for a dict with string keys *)
Fixpoint dict_get {A} (d : list (string * A)) (k : string) : result A :=
  match d with
  | [] => Raise (KeyError (KStr k))
  | (k', v) :: rest => if String.eqb k k' then Ok v else dict_get rest k
  end.

(** [_resample_if_needed(df, freq)] *)
Definition _resample_if_needed (env : Env) (df : DataFrame) (freq : string)
    : result DataFrame :=
  if str_in (upper env freq) ["D"; "DAILY"] then Ok df
  else
    let? rule := dict_get [("W", "W-FRI"); ("M", "M")] (upper env freq) in
    resample_last env rule df.

(** *** [main]: effects *)

(** A computation with effects: the operations completed so far, in order,
    and how it ended. *)
Definition IO (A : Type) : Type := (list event * result A)%type.

Definition io_ret {A} (a : A) : IO A := ([], Ok a).

Definition io_bind {A B} (m : IO A) (k : A -> IO B) : IO B :=
  match m with
  | (log, inl e) => (log, inl e)
  | (log, inr a) => let (log', r) := k a in (log ++ log', r)
  end.

(** One operation on the console or the file system: it completes, or it
    raises what the environment says.  (No two operations of a run of
    [main] are the same event, so this fixes the outcome of each operation
    separately.) *)
Definition perform (env : Env) (e : event) : IO unit :=
  match io_error env e with
  | Some err => ([], Raise err)
  | None => ([e], Ok tt)
  end.

Definition lift {A} (r : result A) : IO A := ([], r).

Notation "'let!' x ':=' m 'in' k" := (io_bind m (fun x => k))
  (at level 10, x pattern, m at level 100, k at level 200).
Notation "'run!' m 'in' k" := (io_bind m (fun _ => k))
  (at level 10, m at level 100, k at level 200).

(** [os.path.join(a, b)] for a relative [b] *)
Definition path_join (a b : string) : string :=
  match get (String.length a - 1) a with
  | None => b
  | Some c => if Ascii.eqb c "/" then (a ++ b)%string else (a ++ "/" ++ b)%string
  end.

(** [main], from [os.makedirs] to the alignment of the price tables (the
    first [_intersect_dates]), for the arguments [args] that [parse_args()]
    returned: the aligned asset and index prices. *)
Definition main_prices (env : Env) (args : Args.t) : IO (DataFrame * DataFrame) :=
  run! perform env (Makedirs (Args.outdir args)) in
  run! perform env (Print ("[INFO] Fetching index: " ++ Args.index args)%string) in
  let! s := lift (_fetch_stooq env (Args.index args) (Args.start args) (Args.end_ args)) in
  let idx_prices := pd.to_frame s in
  run! perform env (Print ("[INFO] Fetching assets: " ++ String.concat ", " (Args.tickers args))%string) in
  let! asset_prices := lift (_fetch_many env (Args.tickers args) (Args.start args) (Args.end_ args)) in
  let! asset_prices := lift (_forward_fill_limited asset_prices 3) in
  let! idx_prices := lift (_forward_fill_limited idx_prices 3) in
  let! (asset_prices, idx_prices) :=
    (if negb (String.eqb (upper env (Args.freq args)) "D") then
       run! perform env (Print ("[INFO] Resampling to " ++ upper env (Args.freq args))%string) in
       let! asset_prices := lift (_resample_if_needed env asset_prices (Args.freq args)) in
       let! idx_prices := lift (_resample_if_needed env idx_prices (Args.freq args)) in
       io_ret (asset_prices, idx_prices)
     else io_ret (asset_prices, idx_prices)) in
  lift (_intersect_dates asset_prices idx_prices).

(** The sanity check on the aligned prices. *)
Definition sanity_check (args : Args.t) (asset_prices : DataFrame) : result unit :=
  let n_obs := Z.of_nat (len asset_prices) in
  if n_obs <? Args.min_days args
  then Raise (ValueError (TooFewObservations n_obs (Args.min_days args)))
  else Ok tt.

(** [main], from the sanity check to the re-alignment of the returns: the
    asset and index returns. *)
Definition main_returns (args : Args.t) (asset_prices idx_prices : DataFrame)
    : IO (DataFrame * DataFrame) :=
  run! lift (sanity_check args asset_prices) in
  let asset_rets := _to_simple_returns asset_prices in
  let idx_rets := _to_simple_returns idx_prices in
  lift (_intersect_dates asset_rets idx_rets).

(** [main], the saving of the four tables and of the metadata. *)
Definition main_save (env : Env) (args : Args.t)
    (asset_prices idx_prices asset_rets idx_rets : DataFrame) : IO unit :=
  let p_prices_assets := path_join (Args.outdir args) "prices_assets.csv" in
  let p_prices_index := path_join (Args.outdir args) "prices_index.csv" in
  let p_rets_assets := path_join (Args.outdir args) "returns_assets.csv" in
  let p_rets_index := path_join (Args.outdir args) "returns_index.csv" in
  let p_meta := path_join (Args.outdir args) "metadata.json" in
  run! perform env (ToCsv p_prices_assets asset_prices "Date") in
  run! perform env (ToCsv p_prices_index idx_prices "Date") in
  run! perform env (ToCsv p_rets_assets asset_rets "Date") in
  run! perform env (ToCsv p_rets_index idx_rets "Date") in
  let meta := {|
    source := "stooq";
    index_symbol := Args.index args;
    asset_symbols := Args.tickers args;
    meta_start := Args.start args;
    meta_end := Args.end_ args;
    frequency := upper env (Args.freq args);
    n_observations := Z.of_nat (len asset_rets);
    generated_at := (utcnow_isoformat env ++ "Z")%string;
    notes := "Simple returns; forward-filled small gaps (limit=3); dates intersected."
  |} in
  run! perform env (JsonDump p_meta meta) in
  run! perform env (Print "[OK] Wrote:") in
  run! perform env (Print ("  " ++ p_prices_assets)%string) in
  run! perform env (Print ("  " ++ p_prices_index)%string) in
  run! perform env (Print ("  " ++ p_rets_assets)%string) in
  run! perform env (Print ("  " ++ p_rets_index)%string) in
  perform env (Print ("  " ++ p_meta)%string).

(** [main()] from its second statement on, for the arguments [args] that
    [parse_args()] returned. *)
Definition main (env : Env) (args : Args.t) : IO unit :=
  let! (asset_prices, idx_prices) := main_prices env args in
  let! (asset_rets, idx_rets) := main_returns args asset_prices idx_prices in
  main_save env args asset_prices idx_prices asset_rets idx_rets.

(** [parse_args()]: the parser is declared, and argparse runs it on the
    command line. *)
Definition parser : list argument :=
  [mkArgument "--index" true None false None None;
   mkArgument "--tickers" true (Some "+") false None None;
   mkArgument "--start" true None false None None;
   mkArgument "--end" true None false None None;
   mkArgument "--freq" false None false (Some (VStr "D")) (Some ["D"; "W"; "M"]);
   mkArgument "--outdir" false None false (Some (VStr "data")) None;
   mkArgument "--min-days" false None true (Some (VInt 250)) None].

Definition parse_args (env : Env) : result Args.t := argparse env parser.

(** [main()] as a whole, as the script runs it: the arguments are parsed,
    then [main] goes on with them. *)
Definition run_main (env : Env) : IO unit :=
  let! args := lift (parse_args env) in
  main env args.

(** ** [data_io.py] *)

(** [load_returns_from_csv(index_csv, assets_csv, date_col)] *)
Definition load_returns_from_csv (env : Env) (index_csv assets_csv date_col : string)
    : result (Series * DataFrame) :=
  let? idx := read_csv_indexed env index_csv date_col in
  let idx := pd.sort_index idx in
  let? ast := read_csv_indexed env assets_csv date_col in
  let ast := pd.sort_index ast in
  let df := pd.join_inner ast idx "" "_INDEX" in
  let? y := pd.iloc_last df in
  let y := pd.rename y "index_ret" in
  let X := pd.iloc_but_last df in
  let X := pd.dropna_columns_all X in
  let? df2 := pd.concat_series_frame y X in
  let df2 := pd.dropna_rows_any df2 in
  let? y := pd.iloc_first df2 in
  let X := pd.iloc_from_second df2 in
  Ok (y, X).

(** [standardise_returns(y, X, demean, scale)] *)
Definition standardise_returns (env : Env) (y : Series) (X : DataFrame)
    (demean scale : bool) : Series * DataFrame :=
  let y2 := y in
  let X2 := X in
  let y2 :=
    if demean
    then mkSeries (name y2) (s_index y2)
           (map (fun v => (v - pd.mean (np_sum env MeanOfSeries) (values y2))%float)
                (values y2))
    else y2 in
  let X2 :=
    if demean
    then map_columns
           (fun c => map (fun v => (v - pd.mean (np_sum env MeanOfColumn) c)%float) c) X2
    else X2 in
  let X2 :=
    if scale
    then map_columns
           (fun c => let std := pd.replace 0%float 1%float
                                  (pd.std (np_sum env StdMean) (np_sum env StdSquares) c) in
                     map (fun v => (v / std)%float) c) X2
    else X2 in
  (y2, X2).

(** * Specifications *)

(** The columns of [df'] are those of [df], each one transformed as [R]
    says, under the same labels and in the same order. *)
Definition columnwise (R : list cell -> list cell -> Prop) (df df' : DataFrame) : Prop :=
  Forall2 (fun c c' => fst c' = fst c /\ R (snd c) (snd c')) (columns df) (columns df').

(** No cell of the column, respectively of the table, is undefined. *)
Definition defined_column (vs : list cell) : Prop :=
  List.Forall (fun v => isna v = false) vs.

Definition fully_defined (df : DataFrame) : Prop :=
  forall c, In c (columns df) -> defined_column (snd c).

(** A table with distinct dates and one cell per date and column. *)
Definition dated (df : DataFrame) : Prop :=
  well_formed df /\ NoDup (index df).

(** Dates sorted ascending: strictly, and with equal dates allowed. *)
Definition ascending (idx : list date) : Prop := StronglySorted Z.lt idx.
Definition nondecreasing (idx : list date) : Prop := Sorted Z.le idx.

Definition le_label {A} (r1 r2 : date * A) : Prop := fst r1 <= fst r2.

(** ** Gap filling *)

(** Column [c] is undefined at row [k]. *)
Definition undefined_at (c : list cell) (k : nat) : Prop :=
  exists y, c !! k = Some y /\ isna y = true.

(** Row [j] is the last row before [k] at which [c] is defined, with value
    [v]: the cells after it, up to row [k] excluded, are undefined. *)
Definition last_defined_before (c : list cell) (k j : nat) (v : cell) : Prop :=
  (j < k)%nat /\ c !! j = Some v /\ isna v = false /\
  forall m, (j < m < k)%nat -> undefined_at c m.

(** [c] is defined at no row before [k]. *)
Definition none_defined_before (c : list cell) (k : nat) : Prop :=
  forall m, (m < k)%nat -> undefined_at c m.

(** [c'] is [c] forward-filled over at most [g] rows: a defined cell stays;
    an undefined cell at row [k] takes the last defined value before it,
    found at row [j], when the undefined cells from there to row [k]
    included are at most [g] ([k - j <= g]), and stays undefined otherwise,
    as it does when no cell before it is defined. *)
Definition filled_upto (g : Z) (c c' : list cell) : Prop :=
  length c' = length c /\
  forall k x, c !! k = Some x ->
    (isna x = false -> c' !! k = Some x) /\
    (isna x = true ->
       (forall j v, last_defined_before c k j v ->
          if Z.of_nat (k - j) <=? g then c' !! k = Some v else undefined_at c' k) /\
       (none_defined_before c k -> undefined_at c' k)).

(** [c'] keeps the defined cells of [c], row by row. *)
Definition keeps_defined (c c' : list cell) : Prop :=
  length c' = length c /\
  forall k x, c !! k = Some x -> isna x = false -> c' !! k = Some x.

(** ** Alignment *)

(** The dates of [a] that [b] has too, in the order of [a]. *)
Definition common_dates (a b : list date) : list date :=
  List.filter (pd.contains b) a.

(** The table on the dates [keys]: each column holds, for each date in
    turn, its cell at the row of that date. *)
Definition restricted_to (keys : list date) (df : DataFrame) : DataFrame :=
  mkDataFrame keys
    (map (fun c => (fst c, map (pd.cell_at (index df) (snd c)) keys)) (columns df)).

(** ** Fetching *)

(** The price field selected from the columns of a source table: the
    adjusted close, else its second spelling, else the plain close. *)
Definition selected_field (df : DataFrame) (label : string) : Prop :=
  (pd.has_column df "Adj Close" = true /\ label = "Adj Close") \/
  (pd.has_column df "Adj Close" = false /\ pd.has_column df "AdjClose" = true /\
   label = "AdjClose") \/
  (pd.has_column df "Adj Close" = false /\ pd.has_column df "AdjClose" = false /\
   pd.has_column df "Close" = true /\ label = "Close").

(** The series holds the entries of column [col] of [df] (each with its
    date), reordered. *)
Definition entries_of (s : Series) (df : DataFrame) (col : list cell) : Prop :=
  Permutation (combine (s_index s) (values s)) (combine (index df) col).

(** ** The pipeline and the loader *)

(** No output file is written in the course of the computation. *)
Definition writes_nothing {A} (m : IO A) : Prop :=
  Forall (fun e => persists e = false) (fst m).

(** The source returns tables with distinct dates, and resampling keeps
    dates distinct. *)
Definition source_dated (env : Env) : Prop :=
  forall symbol src start end_ df,
    DataReader env symbol src start end_ = Ok df -> dated df.

Definition resampler_dated (env : Env) : Prop :=
  forall rule df df', dated df -> resample_last env rule df = Ok df' -> dated df'.

(** Resampling keeps the columns of a table. *)
Definition resampler_labelled (env : Env) : Prop :=
  forall rule df df', resample_last env rule df = Ok df' -> labels df' = labels df.

(** The aligned dataset: index returns and asset returns on one date axis,
    without undefined cells. *)
Definition aligned_dataset (y : Series) (X : DataFrame) : Prop :=
  s_index y = index X /\ defined_column (values y) /\ fully_defined X.

(** ** Standardising *)

(** The standard deviation of a column, as [X2.std(axis=0)] computes it. *)
Definition column_std (env : Env) (c : list cell) : cell :=
  pd.std (np_sum env StdMean) (np_sum env StdSquares) c.

(** The column as it enters the scaling: demeaned, when asked. *)
Definition demeaned (env : Env) (demean : bool) (c : list cell) : list cell :=
  if demean then map (fun v => (v - pd.mean (np_sum env MeanOfColumn) c)%float) c else c.

(** [c2] is [c] scaled: divided by 1 when its standard deviation equals
    zero, by its standard deviation otherwise; when at most one cell of
    [c] is defined that standard deviation is undefined, and so is every
    cell of [c2]. *)
Definition scaled_column (env : Env) (c c2 : list cell) : Prop :=
  (PrimFloat.eqb (column_std env c) 0 = true -> c2 = map (fun v => (v / 1)%float) c) /\
  (PrimFloat.eqb (column_std env c) 0 = false ->
     c2 = map (fun v => (v / column_std env c)%float) c) /\
  ((pd.count c <= 1)%nat -> List.Forall (fun v => isna v = true) c2).

(** [c2] is [c] divided by a number that is not zero. *)
Definition divided_by_nonzero (c c2 : list cell) : Prop :=
  exists divisor, PrimFloat.eqb divisor 0 = false /\
                  c2 = map (fun v => (v / divisor)%float) c.

(** ** Sample data *)

(** A small price table with a gap in each column. *)
Definition gappy_prices : DataFrame :=
  mkDataFrame [1; 2; 3; 4; 5; 6]
    [("A", [10; nan; nan; nan; 14; nan]%float);
     ("B", [nan; 20; nan; 22; 23; 24]%float)].

(** Asset and index prices on calendars that differ. *)
Definition sample_assets : DataFrame :=
  mkDataFrame [1; 2; 4; 5]
    [("AAPL.US", [50; 50.5; 50; 51]%float); ("MSFT.US", [nan; 20; 40; 41]%float)].

Definition sample_index : DataFrame :=
  mkDataFrame [2; 3; 4] [("SPY.US", [100; 101; 99]%float)].

(** Returns of a single day, and of two days. *)
Definition one_day_index : Series := mkSeries "index_ret" [2] [0.5]%float.

Definition one_day_assets : DataFrame :=
  mkDataFrame [2] [("AAPL.US", [0.25]%float); ("MSFT.US", [0.125]%float)].

Definition two_day_assets : DataFrame :=
  mkDataFrame [2; 3] [("AAPL.US", [1; 3]%float); ("MSFT.US", [0.5; 0.5]%float)].

(** A source with three days of prices, newest first, for an index and two
    assets, the second asset starting a day late, and nothing for any other
    symbol. *)
Definition sample_reader (symbol src start end_ : string) : result DataFrame :=
  if String.eqb symbol "SPY.US" then
    Ok (mkDataFrame [3; 2; 1]
          [("Open", [101; 100; 99]%float); ("Close", [99; 101; 100]%float)])
  else if String.eqb symbol "AAPL.US" then
    Ok (mkDataFrame [3; 2; 1] [("Close", [50; 50.5; 50]%float)])
  else if String.eqb symbol "MSFT.US" then
    Ok (mkDataFrame [3; 2] [("Close", [41; 21]%float); ("Adj Close", [40; 20]%float)])
  else Ok (mkDataFrame [] []).

(** A source with ten days of prices for every symbol. *)
Definition ten_day_reader (symbol src start end_ : string) : result DataFrame :=
  Ok (mkDataFrame [10; 9; 8; 7; 6; 5; 4; 3; 2; 1]
        [("Close", [110; 109; 108; 107; 106; 105; 104; 103; 102; 101]%float)]).

(** Tables of returns to load. *)
Definition sample_csv (path date_col : string) : result DataFrame :=
  if String.eqb path "returns_index.csv" then
    Ok (mkDataFrame [3; 2; 1] [("SPY.US", [0.5; 0.25; 0.125]%float)])
  else
    Ok (mkDataFrame [2; 3; 4]
          [("AAPL.US", [1; nan; 3]%float); ("MSFT.US", [5; 6; 7]%float)]).

(** A stand-in for the calendar resampler: it keeps the rows of Fridays
    (ordinal 1 modulo 7, day 0 being a Thursday). *)
Definition sample_resampler (rule : string) (df : DataFrame) : result DataFrame :=
  Ok (pd.select_rows (map (fun d => d mod 7 =? 1) (index df)) df).

Definition sample_args (min_days : Z) : Args.t :=
  Args.mk "SPY.US" ["AAPL.US"; "MSFT.US"] "2018-01-01" "2024-12-31" "D" "data" min_days.

(** A console and a file system on which every operation completes. *)
Definition no_failure (e : event) : option exn := None.

(** An environment around a command line as argparse reads it, a source
    and a CSV reader: sums are taken in order (the sample columns have fewer
    than eight cells), and the operations fail as [failures] says. *)
Definition env_around
    (command_line : result Args.t)
    (reader : string -> string -> string -> string -> result DataFrame)
    (csv : string -> string -> result DataFrame)
    (failures : event -> option exn) : Env :=
  mkEnv (fun _ => command_line) reader sample_resampler csv "2024-12-31T00:00:00"
        (fun _ => pd.sum_in_order) (fun s => s) failures.

Definition sample_env : Env :=
  env_around (Ok (sample_args 250)) sample_reader sample_csv no_failure.

Definition ten_day_env : Env :=
  env_around (Ok (sample_args 250)) ten_day_reader sample_csv no_failure.


(** A disk that is full once the two price files are written. *)
Definition disk_full (e : event) : option exn :=
  match e with
  | ToCsv path _ _ =>
      if String.eqb path "data/returns_assets.csv" then Some (OSError 28) else None
  | _ => None
  end.

Definition full_disk_env : Env :=
  env_around (Ok (sample_args 1)) sample_reader sample_csv disk_full.

(** A command line that argparse rejects. *)
Definition bad_command_line_env : Env :=
  env_around (Raise (SystemExit 2)) sample_reader sample_csv no_failure.

(** ** Further properties: gap filling and returns *)

(** [c'] holds nothing that [c] does not hold: where [c] is undefined at row
    [k] and [c'] is defined, the value of [c'] is the value of [c] at a row
    [j] at most [g] rows above, with only undefined cells of [c] from there
    down to row [k]. *)
Definition copied_within (g : Z) (c c' : list cell) : Prop :=
  forall k x y, c !! k = Some x -> isna x = true ->
    c' !! k = Some y -> isna y = false ->
    exists j, (j < k)%nat /\ Z.of_nat (k - j) <= g /\ c !! j = Some y /\
              forall m, (j < m <= k)%nat -> undefined_at c m.

(** The simple returns of a column of prices: [P_t / P_{t-1} - 1] for every
    row [t] after the first. *)
Definition simple_returns (vs : list cell) : list cell :=
  pd.zip_cells (fun x prev => (x / prev - 1)%float) (tl vs) vs.

(** Three days of prices without gaps. *)
Definition steady_prices : DataFrame :=
  mkDataFrame [1; 2; 3]
    [("SPY.US", [100; 101; 99]%float); ("AAPL.US", [50; 50.5; 50]%float)].

(** ** Further properties: the price panel *)

(** Column [c] of the panel on the dates [idx] is the series [s] laid out on
    those dates: it carries the name of [s], and at every date the value of
    [s] there, undefined at the dates that [s] lacks. *)
Definition lays_out (idx : list date) (s : Series) (c : string * list cell) : Prop :=
  fst c = name s /\ length (snd c) = length idx /\
  (forall d, In d (s_index s) ->
     pd.cell_at idx (snd c) d = pd.cell_at (s_index s) (values s) d) /\
  (forall d, ~ In d (s_index s) -> isna (pd.cell_at idx (snd c) d) = true).

(** ** Further properties: the run of [main] *)

(** The ways the fetch of one symbol fails: the source itself fails, it
    returns an empty table, or a table without any of the price fields. *)
Definition fetch_error (env : Env) (args : Args.t) (symbol : string) (e : exn) : Prop :=
  DataReader env symbol "stooq" (Args.start args) (Args.end_ args) = Raise e \/
  e = ValueError (NoDataReturned symbol) \/
  e = KeyError (KStr "Close").

(** What argparse makes of the declared parser: the value of an option
    with [choices] is one of them, or the default of the option; an option
    with [nargs="+"] holds at least one value; and a command line that does
    not parse, or that asks for help, ends the program with [SystemExit]. *)
Definition parsed_as_declared (env : Env) : Prop :=
  match parse_args env with
  | inr args =>
      (forall a cs, In a parser -> option_name a = "--freq" -> arg_choices a = Some cs ->
         In (Args.freq args) cs \/ arg_default a = Some (VStr (Args.freq args))) /\
      (forall a, In a parser -> option_name a = "--tickers" -> arg_nargs a = Some "+" ->
         Args.tickers args <> [])
  | inl e => exists code, e = SystemExit code
  end.

(** The ways the program fails: argparse ends it; or, with the arguments
    parsed, an operation on the console or the file system fails, the fetch
    of the index or of an asset fails, the fetched series cannot be put side
    by side, the resampling fails, or the aligned prices are too few. *)
Definition main_error (env : Env) (e : exn) : Prop :=
  (exists code, e = SystemExit code /\ parse_args env = Raise e) \/
  exists args, parse_args env = Ok args /\
    ((exists ev, io_error env ev = Some e) \/
     (exists symbol, In symbol (Args.index args :: Args.tickers args) /\
                     fetch_error env args symbol e) \/
     (exists series,
        fetch_each env (Args.tickers args) (Args.start args) (Args.end_ args) = Ok series /\
        pd.concat_axis1 (map pd.to_frame series) = Raise e) \/
     (exists rule df, In (Args.freq args, rule) [("W", "W-FRI"); ("M", "M")] /\
                      resample_last env rule df = Raise e) \/
     (exists n_obs, n_obs < Args.min_days args /\
                    e = ValueError (TooFewObservations n_obs (Args.min_days args)))).

(** The files a successful run writes, in order. *)
Definition saved_files (env : Env) (args : Args.t)
    (asset_prices idx_prices asset_rets idx_rets : DataFrame) : list event :=
  [ToCsv (path_join (Args.outdir args) "prices_assets.csv") asset_prices "Date";
   ToCsv (path_join (Args.outdir args) "prices_index.csv") idx_prices "Date";
   ToCsv (path_join (Args.outdir args) "returns_assets.csv") asset_rets "Date";
   ToCsv (path_join (Args.outdir args) "returns_index.csv") idx_rets "Date";
   JsonDump (path_join (Args.outdir args) "metadata.json")
     {| source := "stooq";
        index_symbol := Args.index args;
        asset_symbols := Args.tickers args;
        meta_start := Args.start args;
        meta_end := Args.end_ args;
        frequency := upper env (Args.freq args);
        n_observations := Z.of_nat (len asset_rets);
        generated_at := (utcnow_isoformat env ++ "Z")%string;
        notes := "Simple returns; forward-filled small gaps (limit=3); dates intersected."
     |}].

(** The lines printed once the files are saved. *)
Definition wrote_lines (args : Args.t) : list event :=
  [Print "[OK] Wrote:";
   Print ("  " ++ path_join (Args.outdir args) "prices_assets.csv");
   Print ("  " ++ path_join (Args.outdir args) "prices_index.csv");
   Print ("  " ++ path_join (Args.outdir args) "returns_assets.csv");
   Print ("  " ++ path_join (Args.outdir args) "returns_index.csv");
   Print ("  " ++ path_join (Args.outdir args) "metadata.json")].

(** Operations performed one after the other, up to the first that fails. *)
Fixpoint perform_all (env : Env) (evs : list event) : IO unit :=
  match evs with
  | [] => io_ret tt
  | ev :: rest => run! perform env ev in perform_all env rest
  end.

(** The operations of [main] up to the alignment of the prices, in order:
    the output directory, then the lines on the console (the third one when
    the frequency is not D). *)
Definition price_operations (env : Env) (args : Args.t) : list event :=
  [Makedirs (Args.outdir args);
   Print ("[INFO] Fetching index: " ++ Args.index args);
   Print ("[INFO] Fetching assets: " ++ String.concat ", " (Args.tickers args))]
  ++ (if negb (String.eqb (upper env (Args.freq args)) "D")
      then [Print ("[INFO] Resampling to " ++ upper env (Args.freq args))]
      else []).

(** [m] performs the operations [evs], in order, unless it fails before
    the last of them. *)
Definition performs {A} (evs : list event) (m : IO A) : Prop :=
  match snd m with
  | inr _ => fst m = evs
  | inl _ => exists rest, evs = fst m ++ rest
  end.

(** ** Further properties: the loader and the standardiser *)

(** The joined table of the loader: the assets, sorted by date, joined to
    the index, sorted by date, on the dates that both have. *)
Definition loader_join (ast idx : DataFrame) : DataFrame :=
  pd.join_inner (pd.sort_index ast) (pd.sort_index idx) "" "_INDEX".

(** * Proofs *)

Section Pad.
Variable lim : nat.

Lemma pad_loop_length val fc i vs :
  length (pd.pad_loop lim val fc i vs) = length vs.
Proof.
  revert val fc i; induction vs as [|v rest IH]; intros val fc i; simpl; [reflexivity|].
  destruct (isna v); [destruct (_ || _)|]; simpl; now rewrite IH.
Qed.

Lemma pad_loop_defined val fc i vs k x :
  vs !! k = Some x -> isna x = false ->
  pd.pad_loop lim val fc i vs !! k = Some x.
Proof.
  revert val fc i k; induction vs as [|v rest IH]; intros val fc i k Hk Hx; [discriminate|].
  destruct k as [|k]; simpl in *.
  - injection Hk as ->. rewrite Hx. reflexivity.
  - destruct (isna v); [destruct (_ || _)|]; simpl; now apply IH.
Qed.

(** Inside a run of undefined cells that started [fc] fills ago. *)
Lemma pad_loop_run val fc i vs k x :
  (0 < i)%nat -> vs !! k = Some x ->
  (forall m, (m <= k)%nat -> undefined_at vs m) ->
  pd.pad_loop lim val fc i vs !! k = Some (if (fc + k <? lim)%nat then val else x).
Proof.
  revert fc i k; induction vs as [|v rest IH]; intros fc i k Hi Hk Hrun; [discriminate|].
  assert (Hv : isna v = true).
  { destruct (Hrun 0%nat) as (y & Hy & Hna); [lia|]. simpl in Hy. now injection Hy as ->. }
  assert (Hrest : forall m, (S m <= k)%nat -> undefined_at rest m).
  { intros m Hm. exact (Hrun (S m) Hm). }
  simpl. rewrite Hv.
  replace (i =? 0)%nat with false by (symmetry; apply Nat.eqb_neq; lia).
  rewrite orb_false_r.
  destruct (Nat.leb_spec lim fc) as [Hle|Hlt].
  - destruct k as [|k]; simpl in *.
    + injection Hk as ->.
      replace (fc + 0 <? lim)%nat with false by (symmetry; apply Nat.ltb_ge; lia).
      reflexivity.
    + rewrite (IH fc (S i) k); [|lia|assumption|intros; apply Hrest; lia].
      replace (fc + k <? lim)%nat with false by (symmetry; apply Nat.ltb_ge; lia).
      replace (fc + S k <? lim)%nat with false by (symmetry; apply Nat.ltb_ge; lia).
      reflexivity.
  - destruct k as [|k]; simpl in *.
    + replace (fc + 0 <? lim)%nat with true by (symmetry; apply Nat.ltb_lt; lia).
      reflexivity.
    + rewrite (IH (S fc) (S i) k); [|lia|assumption|intros; apply Hrest; lia].
      replace (fc + S k)%nat with (S fc + k)%nat by lia. reflexivity.
Qed.

(** With an undefined [val], a run of undefined cells stays undefined. *)
Lemma pad_loop_leading val fc i vs k :
  isna val = true ->
  (forall m, (m <= k)%nat -> undefined_at vs m) ->
  undefined_at (pd.pad_loop lim val fc i vs) k.
Proof.
  revert fc i k; induction vs as [|v rest IH]; intros fc i k Hval Hrun.
  { destruct (Hrun k) as (y & Hy & _); [lia|discriminate]. }
  assert (Hv : isna v = true).
  { destruct (Hrun 0%nat) as (y & Hy & Hna); [lia|]. simpl in Hy. now injection Hy as ->. }
  assert (Hrest : forall m, (S m <= k)%nat -> undefined_at rest m).
  { intros m Hm. exact (Hrun (S m) Hm). }
  simpl. rewrite Hv.
  destruct (_ || _); (destruct k as [|k];
    [eexists; split; [reflexivity|assumption]
    |apply (IH _ _ k Hval); intros; apply Hrest; lia]).
Qed.

(** After a defined cell at row [j], through a run of undefined cells. *)
Lemma pad_loop_gap val fc i vs j k v x :
  (j < k)%nat -> vs !! j = Some v -> isna v = false -> vs !! k = Some x ->
  (forall m, (j < m <= k)%nat -> undefined_at vs m) ->
  pd.pad_loop lim val fc i vs !! k = Some (if (k - j <=? lim)%nat then v else x).
Proof.
  revert val fc i j k; induction vs as [|h rest IH]; intros val fc i j k Hjk Hj Hv Hk Hrun;
    [discriminate|].
  destruct k as [|k]; [lia|]. simpl in Hk.
  destruct j as [|j]; simpl in Hj.
  - injection Hj as ->. simpl. rewrite Hv. simpl.
    rewrite (pad_loop_run v 0 (S i) rest k x); [|lia|assumption|].
    + replace (S k - 0 <=? lim)%nat with (0 + k <? lim)%nat; [reflexivity|].
      destruct (Nat.ltb_spec (0 + k) lim), (Nat.leb_spec (S k - 0) lim); (reflexivity || lia).
    + intros m Hm. apply (Hrun (S m)). lia.
  - assert (Hgoal : forall val' fc',
      pd.pad_loop lim val' fc' (S i) rest !! k = Some (if (S k - S j <=? lim)%nat then v else x)).
    { intros val' fc'. apply (IH val' fc' (S i) j k); [lia|assumption..|].
      intros m Hm. apply (Hrun (S m)). lia. }
    simpl. destruct (isna h); [destruct (_ || _)|]; simpl; apply Hgoal.
Qed.

End Pad.

Lemma pad_1d_length lim vs : length (pd.pad_1d lim vs) = length vs.
Proof. destruct vs; [reflexivity|]. apply pad_loop_length. Qed.

Lemma pad_1d_defined lim vs k x :
  vs !! k = Some x -> isna x = false -> pd.pad_1d lim vs !! k = Some x.
Proof.
  destruct vs as [|v0 rest]; [discriminate|]. unfold pd.pad_1d. apply pad_loop_defined.
Qed.

Lemma pad_1d_filled lim vs : (1 <= lim)%nat -> filled_upto (Z.of_nat lim) vs (pd.pad_1d lim vs).
Proof.
  intros Hlim. split; [apply pad_1d_length|].
  intros k x Hk. destruct vs as [|v0 rest] eqn:E; [discriminate|]. rewrite <- E in *.
  assert (Hpad : pd.pad_1d lim vs = pd.pad_loop lim v0 0 0 vs) by now rewrite E.
  rewrite Hpad.
  split; [intros Hx; now apply pad_loop_defined|].
  intros Hx. split.
  - intros j v (Hjk & Hj & Hv & Hrun).
    assert (Hall : forall m, (j < m <= k)%nat -> undefined_at vs m).
    { intros m Hm. destruct (Nat.eq_dec m k) as [->|]; [now exists x|apply Hrun; lia]. }
    pose proof (pad_loop_gap lim v0 0 0 vs j k v x Hjk Hj Hv Hk Hall) as H.
    destruct (Z.leb_spec (Z.of_nat (k - j)) (Z.of_nat lim)) as [Hle|Hgt].
    + replace (k - j <=? lim)%nat with true in H by (symmetry; apply Nat.leb_le; lia).
      exact H.
    + replace (k - j <=? lim)%nat with false in H by (symmetry; apply Nat.leb_gt; lia).
      now exists x.
  - intros Hnone. apply pad_loop_leading.
    + destruct k as [|k].
      * rewrite E in Hk. simpl in Hk. now injection Hk as ->.
      * destruct (Hnone 0%nat) as (y & Hy & Hna); [lia|]. rewrite E in Hy. simpl in Hy.
        now injection Hy as ->.
    + intros m Hm. destruct (Nat.eq_dec m k) as [->|]; [now exists x|apply Hnone; lia].
Qed.

Lemma columnwise_map_columns (R : list cell -> list cell -> Prop) f df :
  (forall c, In c (columns df) -> R (snd c) (f (snd c))) ->
  columnwise R df (map_columns f df).
Proof.
  unfold columnwise, map_columns. simpl.
  induction (columns df) as [|c cs IH]; intros H; simpl; constructor.
  - split; [reflexivity|]. apply H. now left.
  - apply IH. intros c' Hc'. apply H. now right.
Qed.

Lemma columnwise_refl (R : list cell -> list cell -> Prop) df :
  (forall c, In c (columns df) -> R (snd c) (snd c)) ->
  columnwise R df df.
Proof.
  unfold columnwise.
  induction (columns df) as [|c cs IH]; intros H; constructor.
  - split; [reflexivity|]. apply H. now left.
  - apply IH. intros c' Hc'. apply H. now right.
Qed.

Lemma size_zero_columns_empty df :
  well_formed df -> pd.size df = 0%nat ->
  forall c, In c (columns df) -> snd c = [].
Proof.
  unfold well_formed, pd.size. intros Hwf Hsize c Hc.
  pose proof (proj1 (List.Forall_forall _ _) Hwf c Hc) as Hlen. simpl in Hlen.
  destruct (columns df) as [|c0 cs]; [contradiction|]. simpl in Hsize.
  destruct (snd c); [reflexivity|]. simpl in Hlen. lia.
Qed.

Lemma ffill_some_eq g df :
  pd.size df <> 0%nat -> 1 <= g < 2 ^ 31 ->
  pd.ffill (Some g) df = Ok (map_columns (pd.pad_1d (Z.to_nat g)) df).
Proof.
  intros Hsize Hg. unfold pd.ffill.
  destruct (Nat.eqb_spec (pd.size df) 0%nat) as [|_]; [contradiction|].
  unfold pd.validate_limit. destruct (Z.ltb_spec g 1); [lia|].
  destruct (Z.leb_spec (2 ^ 31) g); [lia|reflexivity].
Qed.

(** C1 (amended to the limits the call accepts, and to a rule for each cell
    of a gap): [_forward_fill_limited] with [1 <= g < 2^31] returns the
    table with the same dates in which every undefined cell has taken the
    last defined value before it in its column when the undefined cells
    since that value, the cell included, are at most [g]; the cells further
    into a gap and the cells with no defined value before them stay
    undefined, and defined cells are kept.  On a table that has cells it
    raises "Limit must be greater than 0" with [g < 1] and an
    [OverflowError] with [g >= 2^31]; a table without cells it returns as it
    is. *)
Theorem forward_fill_limited_fills_short_gaps (df : DataFrame) (g : Z) :
  well_formed df ->
  (1 <= g < 2 ^ 31 ->
     exists df', _forward_fill_limited df g = Ok df' /\
                 index df' = index df /\ columnwise (filled_upto g) df df') /\
  (g < 1 -> pd.size df <> 0%nat ->
     _forward_fill_limited df g = Raise (ValueError LimitMustBePositive)) /\
  (2 ^ 31 <= g -> pd.size df <> 0%nat ->
     _forward_fill_limited df g = Raise OverflowError) /\
  (pd.size df = 0%nat -> _forward_fill_limited df g = Ok df).
Proof.
  intros Hwf. unfold _forward_fill_limited. repeat split.
  - intros Hg. destruct (Nat.eq_dec (pd.size df) 0%nat) as [Hz|Hnz].
    + exists df. unfold pd.ffill. rewrite Hz. simpl. repeat split.
      apply columnwise_refl. intros c Hc.
      rewrite (size_zero_columns_empty df Hwf Hz c Hc).
      split; [reflexivity|]. intros k x Hk. discriminate.
    + rewrite (ffill_some_eq g df Hnz Hg). eexists. split; [reflexivity|].
      split; [reflexivity|]. apply columnwise_map_columns. intros c _.
      rewrite <- (Z2Nat.id g) at 1 by lia. apply pad_1d_filled. lia.
  - intros Hg Hsize. unfold pd.ffill.
    destruct (Nat.eqb_spec (pd.size df) 0%nat) as [|_]; [contradiction|].
    unfold pd.validate_limit. destruct (Z.ltb_spec g 1); [reflexivity|lia].
  - intros Hg Hsize. unfold pd.ffill.
    destruct (Nat.eqb_spec (pd.size df) 0%nat) as [|_]; [contradiction|].
    unfold pd.validate_limit. destruct (Z.ltb_spec g 1); [lia|].
    destruct (Z.leb_spec (2 ^ 31) g); [reflexivity|lia].
  - intros Hz. unfold pd.ffill. now rewrite Hz.
Qed.

Lemma forward_fill_limited_fills_short_gaps_witness :
  well_formed gappy_prices /\
  _forward_fill_limited gappy_prices 2
  = Ok (mkDataFrame [1; 2; 3; 4; 5; 6]
          [("A", [10; 10; 10; nan; 14; 14]%float);
           ("B", [nan; 20; 20; 22; 23; 24]%float)]) /\
  exists df', _forward_fill_limited gappy_prices 2 = Ok df' /\
              index df' = index gappy_prices /\
              columnwise (filled_upto 2) gappy_prices df'.
Proof.
  assert (Hwf : well_formed gappy_prices) by (repeat constructor).
  split; [exact Hwf|]. split; [reflexivity|].
  apply (forward_fill_limited_fills_short_gaps gappy_prices 2 Hwf). lia.
Defined.

(** C1, as stated, fails in three places.  At [g = 0] the call is not the
    identity on a table that has cells: it raises.  A gap longer than [g] is
    not left undefined: with [g = 2], the three undefined cells that follow
    the price 10 in column A get that price in their first two rows, and
    only the third stays undefined.  And not every [g >= 0] is accepted:
    [g = 2^31] raises. *)
Lemma forward_fill_limited_not_as_stated :
  (0 <= 0 /\
   _forward_fill_limited gappy_prices 0 = Raise (ValueError LimitMustBePositive) /\
   _forward_fill_limited gappy_prices 0 <> Ok gappy_prices) /\
  (exists c c',
     In ("A", c) (columns gappy_prices) /\
     _forward_fill_limited gappy_prices 2
     = Ok (mkDataFrame (index gappy_prices) [("A", c'); ("B", [nan; 20; 20; 22; 23; 24]%float)]) /\
     c !! 0%nat = Some 10%float /\
     undefined_at c 1 /\ undefined_at c 2 /\ undefined_at c 3 /\
     c !! 4%nat = Some 14%float /\
     c' !! 1%nat = Some 10%float /\ c' !! 2%nat = Some 10%float /\ undefined_at c' 3) /\
  (0 <= 2 ^ 31 /\ _forward_fill_limited gappy_prices (2 ^ 31) = Raise OverflowError).
Proof.
  split; [split; [lia|split; [reflexivity|discriminate]]|].
  split.
  - exists [10; nan; nan; nan; 14; nan]%float, [10; 10; 10; nan; 14; 14]%float.
    split; [left; reflexivity|]. split; [reflexivity|].
    repeat split; try reflexivity; eexists; split; reflexivity.
  - split; [lia|reflexivity].
Qed.

(** C9: whenever [_forward_fill_limited] returns a table, that table has the
    date axis of its input, the same columns in the same order, and every
    cell that is defined in the input unchanged. *)
Theorem forward_fill_limited_frame (df df' : DataFrame) (g : Z) :
  _forward_fill_limited df g = Ok df' ->
  index df' = index df /\ labels df' = labels df /\ columnwise keeps_defined df df'.
Proof.
  unfold _forward_fill_limited, pd.ffill. intros H.
  destruct (pd.size df =? 0)%nat.
  - injection H as <-. repeat split. apply columnwise_refl. intros c _.
    split; [reflexivity|]. intros k x Hk _. exact Hk.
  - unfold pd.validate_limit in H. destruct (g <? 1); [discriminate|].
    destruct (2 ^ 31 <=? g); [discriminate|].
    simpl in H. injection H as <-. repeat split.
    + unfold labels, map_columns. simpl. rewrite map_map. reflexivity.
    + apply columnwise_map_columns. intros c _. split; [apply pad_1d_length|].
      intros k x Hk Hx. now apply pad_1d_defined.
Qed.

Lemma forward_fill_limited_frame_witness :
  exists df', _forward_fill_limited gappy_prices 3 = Ok df' /\
    index df' = index gappy_prices /\ labels df' = labels gappy_prices /\
    columnwise keeps_defined gappy_prices df'.
Proof.
  eexists. split; [reflexivity|].
  apply (forward_fill_limited_frame gappy_prices _ 3). reflexivity.
Defined.

(** ** Simple returns *)

Lemma isna_of_nan (z : float) : Prim2SF z = S754_nan -> isna z = true.
Proof.
  intros H. unfold isna, PrimFloat.is_nan. rewrite FloatAxioms.eqb_spec, H. reflexivity.
Qed.

(** The return over an undefined previous price is undefined. *)
Lemma return_from_nan (x : float) : isna (x / nan - 1)%float = true.
Proof.
  apply isna_of_nan. rewrite FloatAxioms.sub_spec, FloatAxioms.div_spec.
  replace (Prim2SF nan) with S754_nan by reflexivity.
  destruct (Prim2SF x); reflexivity.
Qed.

(** C2 (amended at the undefined middle row): on one column of three rows
    [P0, undefined, P2], [_to_simple_returns] computes the returns of the
    forward-filled prices [P0, P0, P2]: once the leading row is dropped, the
    row of the undefined price holds [P0/P0 - 1] and the last row
    [P2/P0 - 1], when these two values are defined.  On two rows [P0, P1],
    both defined, the output is the single row [P1/P0 - 1], when that value
    is defined. *)
Theorem to_simple_returns_small_inputs
    (label : string) (d0 d1 d2 : date) (P0 P1 P2 u : cell) :
  isna P0 = false -> isna u = true ->
  (isna P2 = false ->
   isna (P0 / P0 - 1)%float = false -> isna (P2 / P0 - 1)%float = false ->
   _to_simple_returns (mkDataFrame [d0; d1; d2] [(label, [P0; u; P2])])
   = mkDataFrame [d1; d2] [(label, [P0 / P0 - 1; P2 / P0 - 1]%float)]) /\
  (isna P1 = false -> isna (P1 / P0 - 1)%float = false ->
   _to_simple_returns (mkDataFrame [d0; d1] [(label, [P0; P1])])
   = mkDataFrame [d1] [(label, [P1 / P0 - 1]%float)]).
Proof.
  intros H0 Hu. split.
  - intros HP2 H1 H2.
    unfold _to_simple_returns, pd.pct_change, pd.dropna_rows_all, pd.select_rows,
      pd.notna_any, map_columns, pd.pct_change_col, pd.pad_1d, pd.cell_of_row, notna, len.
    simpl. rewrite H0, Hu, HP2. simpl. rewrite return_from_nan, H1, H2. reflexivity.
  - intros HP1 H1.
    unfold _to_simple_returns, pd.pct_change, pd.dropna_rows_all, pd.select_rows,
      pd.notna_any, map_columns, pd.pct_change_col, pd.pad_1d, pd.cell_of_row, notna, len.
    simpl. rewrite H0, HP1. simpl. rewrite return_from_nan, H1. reflexivity.
Qed.

Lemma to_simple_returns_small_inputs_witness :
  _to_simple_returns (mkDataFrame [1; 2; 3] [("A", [100; nan; 99]%float)])
  = mkDataFrame [2; 3] [("A", [100 / 100 - 1; 99 / 100 - 1]%float)] /\
  _to_simple_returns (mkDataFrame [1; 2] [("A", [100; 101]%float)])
  = mkDataFrame [2] [("A", [101 / 100 - 1]%float)].
Proof.
  destruct (to_simple_returns_small_inputs "A" 1 2 3 100%float 101%float 99%float nan
              eq_refl eq_refl)
    as [H3 H2].
  split; [apply H3; reflexivity | apply H2; reflexivity].
Defined.

(** C2, as stated, fails at the row after [P0]: with prices
    [100, undefined, 99] that row holds the defined return 0, the return of
    the forward-filled price. *)
Lemma to_simple_returns_middle_row_defined :
  exists r1 r2 : cell,
    _to_simple_returns (mkDataFrame [1; 2; 3] [("A", [100; nan; 99]%float)])
    = mkDataFrame [2; 3] [("A", [r1; r2])] /\
    r1 = 0%float /\ isna r1 = false.
Proof. exists 0%float, (99 / 100 - 1)%float. repeat split. Qed.

(** ** Resampling *)

Ltac solve_tag :=
  repeat split; intros H;
  try reflexivity; try discriminate; try congruence;
  try (exfalso; apply H; simpl; tauto);
  try (simpl in H; intuition congruence).

(** C3 (amended to the tags as the code reads them, upper-cased and with
    DAILY as a second spelling of D): for every frequency tag whose
    upper-cased form is outside {D, DAILY, W, M}, [_resample_if_needed]
    fails, with the [KeyError] of the rule lookup; for no tag whose
    upper-cased form is inside that set does it fail on its own account: on
    D and DAILY it returns its input table unchanged, on W and M its outcome
    is that of resampling the table by the rule W-FRI, respectively M, a
    table whenever that resampling returns one. *)
Theorem resample_if_needed_by_tag (env : Env) (df : DataFrame) (freq : string) :
  (~ In (upper env freq) ["D"; "DAILY"; "W"; "M"] ->
   _resample_if_needed env df freq = Raise (KeyError (KStr (upper env freq)))) /\
  (In (upper env freq) ["D"; "DAILY"] -> _resample_if_needed env df freq = Ok df) /\
  (upper env freq = "W" ->
   _resample_if_needed env df freq = resample_last env "W-FRI" df) /\
  (upper env freq = "M" ->
   _resample_if_needed env df freq = resample_last env "M" df).
Proof.
  unfold _resample_if_needed, str_in. simpl.
  destruct (String.eqb_spec (upper env freq) "D") as [ED|HD];
    [rewrite ED; simpl; solve_tag|].
  destruct (String.eqb_spec (upper env freq) "DAILY") as [ED|HDAILY];
    [rewrite ED; simpl; solve_tag|].
  destruct (String.eqb_spec (upper env freq) "W") as [ED|HW];
    [rewrite ED; simpl; solve_tag|].
  destruct (String.eqb_spec (upper env freq) "M") as [ED|HM];
    [rewrite ED; simpl; solve_tag|].
  simpl. solve_tag.
Qed.

Lemma resample_if_needed_by_tag_witness :
  _resample_if_needed sample_env gappy_prices "weekly"
    = Raise (KeyError (KStr "WEEKLY")) /\
  _resample_if_needed sample_env gappy_prices "daily" = Ok gappy_prices /\
  _resample_if_needed sample_env gappy_prices "D" = Ok gappy_prices /\
  _resample_if_needed sample_env gappy_prices "W"
    = resample_last sample_env "W-FRI" gappy_prices /\
  _resample_if_needed sample_env gappy_prices "M"
    = resample_last sample_env "M" gappy_prices /\
  resample_last sample_env "W-FRI" gappy_prices
    = Ok (mkDataFrame [1] [("A", [10]%float); ("B", [nan])]).
Proof.
  pose proof (resample_if_needed_by_tag sample_env gappy_prices) as T.
  destruct (T "weekly") as (Hweekly & _).
  destruct (T "daily") as (_ & Hdaily & _).
  destruct (T "D") as (_ & HD & _).
  destruct (T "W") as (_ & _ & HW & _).
  destruct (T "M") as (_ & _ & _ & HM).
  split; [apply Hweekly; intros [H|[H|[H|[H|[]]]]]; discriminate|].
  split; [apply Hdaily; simpl; right; left; reflexivity|].
  split; [apply HD; simpl; left; reflexivity|].
  split; [apply HW; reflexivity|]. split; [apply HM; reflexivity|reflexivity].
Defined.

(** C3, as stated, fails on tags outside {D, W, M} that the code accepts:
    the lower-case tag d and the tag DAILY are outside the set, and the call
    returns the table. *)
Lemma resample_if_needed_accepts_other_tags :
  ~ In "d" ["D"; "W"; "M"] /\ ~ In "DAILY" ["D"; "W"; "M"] /\
  (forall env df, _resample_if_needed env df "d" = Ok df) /\
  (forall env df, _resample_if_needed env df "DAILY" = Ok df).
Proof.
  repeat split; try reflexivity; simpl; intros [H|[H|[H|[]]]]; discriminate.
Qed.

(** ** Alignment *)

Lemma filter_all {A} (f : A -> bool) (l : list A) :
  (forall x, In x l -> f x = true) -> List.filter f l = l.
Proof.
  induction l as [|x l IH]; intros H; simpl; [reflexivity|].
  rewrite (H x (or_introl eq_refl)), IH; [reflexivity|].
  intros y Hy. apply H. now right.
Qed.

Lemma filter_none {A} (f : A -> bool) (l : list A) :
  (forall x, In x l -> f x = false) -> List.filter f l = [].
Proof.
  induction l as [|x l IH]; intros H; simpl; [reflexivity|].
  rewrite (H x (or_introl eq_refl)). apply IH.
  intros y Hy. apply H. now right.
Qed.

Lemma find_absent {A} (f : A -> bool) (l : list A) :
  (forall x, In x l -> f x = false) -> List.find f l = None.
Proof.
  induction l as [|x l IH]; intros H; simpl; [reflexivity|].
  rewrite (H x (or_introl eq_refl)). apply IH.
  intros y Hy. apply H. now right.
Qed.

Lemma contains_In idx d : pd.contains idx d = true <-> In d idx.
Proof.
  unfold pd.contains. rewrite existsb_exists. split.
  - intros (x & Hx & Heq). apply Z.eqb_eq in Heq. now subst.
  - intros H. exists d. split; [assumption|apply Z.eqb_refl].
Qed.

Lemma unique_In d l : In d (pd.unique l) <-> In d l.
Proof.
  induction l as [|a l IH]; simpl; [tauto|].
  rewrite filter_In, IH, negb_true_iff, Z.eqb_neq.
  destruct (Z.eq_dec a d); [subst|]; intuition congruence.
Qed.

Lemma unique_NoDup l : NoDup l -> pd.unique l = l.
Proof.
  induction 1 as [|a l Hnotin Hnd IH]; simpl; [reflexivity|].
  rewrite IH. f_equal. apply filter_all. intros x Hx.
  apply negb_true_iff, Z.eqb_neq. intros ->.
  apply Hnotin, list_elem_of_In, Hx.
Qed.

Lemma common_dates_In a b d :
  In d (common_dates a b) <-> In d a /\ In d b.
Proof. unfold common_dates. rewrite filter_In, contains_In. tauto. Qed.

Lemma intersection_In a b d :
  In d (pd.intersection a b) <-> In d a /\ In d b.
Proof. unfold pd.intersection. rewrite filter_In, contains_In, unique_In. tauto. Qed.

Lemma intersection_NoDup a b :
  NoDup a -> pd.intersection a b = common_dates a b.
Proof. intros H. unfold pd.intersection. now rewrite (unique_NoDup a H). Qed.

Lemma NoDup_common_dates a b : NoDup a -> NoDup (common_dates a b).
Proof.
  intros H. apply NoDup_ListNoDup, List.NoDup_filter, NoDup_ListNoDup, H.
Qed.

Lemma ascending_filter f idx : ascending idx -> ascending (List.filter f idx).
Proof.
  unfold ascending. induction 1 as [|d idx Hs IH Hall]; simpl; [constructor|].
  destruct (f d); [|assumption]. constructor; [assumption|].
  apply List.Forall_forall. intros x Hx. apply filter_In in Hx as [Hx _].
  exact (proj1 (List.Forall_forall _ _) Hall x Hx).
Qed.

Lemma rows_at_self idx d :
  pd.rows_at idx idx d = List.filter (fun x => x =? d) idx.
Proof.
  unfold pd.rows_at. induction idx as [|h t IH]; simpl; [reflexivity|].
  destruct (h =? d); simpl; now rewrite IH.
Qed.

Lemma rows_at_absent {A} idx (vs : list A) d :
  ~ In d idx -> pd.rows_at idx vs d = [].
Proof.
  unfold pd.rows_at. revert vs. induction idx as [|h t IH]; intros vs H; [reflexivity|].
  destruct vs as [|v vs]; [reflexivity|]. simpl.
  destruct (Z.eqb_spec h d) as [->|_]; [exfalso; apply H; now left|].
  apply IH. intros Hd. apply H. now right.
Qed.

Lemma rows_at_self_one idx d : NoDup idx -> In d idx -> pd.rows_at idx idx d = [d].
Proof.
  intros Hnd. rewrite rows_at_self. induction Hnd as [|h t Hnotin Hnd IH]; [contradiction|].
  intros Hd. simpl. destruct (Z.eqb_spec h d) as [->|Hne].
  - f_equal. apply filter_none. intros x Hx. apply Z.eqb_neq. intros ->.
    apply Hnotin, list_elem_of_In, Hx.
  - destruct Hd as [|Hd]; [contradiction|]. now apply IH.
Qed.

Lemma rows_at_cell idx vs d :
  NoDup idx -> length vs = length idx -> In d idx ->
  pd.rows_at idx vs d = [pd.cell_at idx vs d].
Proof.
  intros Hnd. revert vs. induction Hnd as [|h t Hnotin Hnd IH]; intros vs Hlen Hd;
    [contradiction|].
  destruct vs as [|v vs]; [discriminate|]. simpl in Hlen.
  unfold pd.cell_at. unfold pd.rows_at in *. simpl.
  destruct (Z.eqb_spec h d) as [->|Hne]; simpl.
  - f_equal. apply (rows_at_absent t vs d). intros Hin.
    apply Hnotin, list_elem_of_In, Hin.
  - destruct Hd as [|Hd]; [contradiction|].
    specialize (IH vs (eq_add_S _ _ Hlen) Hd). rewrite IH. reflexivity.
Qed.

Lemma loc_total keys df :
  (forall d, In d keys -> In d (index df)) ->
  pd.loc keys df = Ok (pd.located keys df).
Proof.
  intros H. unfold pd.loc. rewrite find_absent; [reflexivity|].
  intros d Hd. apply negb_false_iff, contains_In, H, Hd.
Qed.

Lemma flat_map_one {A B} (f : A -> list B) (g : A -> B) (l : list A) :
  (forall x, In x l -> f x = [g x]) -> flat_map f l = map g l.
Proof.
  induction l as [|x l IH]; intros H; simpl; [reflexivity|].
  rewrite (H x (or_introl eq_refl)), IH; [reflexivity|].
  intros y Hy. apply H. now right.
Qed.

Lemma located_restricted keys df :
  well_formed df -> NoDup (index df) ->
  (forall d, In d keys -> In d (index df)) ->
  pd.located keys df = restricted_to keys df.
Proof.
  intros Hwf Hnd Hkeys. unfold restricted_to, pd.located. f_equal.
  - rewrite (flat_map_one _ (fun d => d)); [apply map_id|].
    intros d Hd. apply rows_at_self_one; auto.
  - apply map_ext_in. intros c Hc. f_equal. apply flat_map_one.
    intros d Hd. apply rows_at_cell; auto.
    exact (proj1 (List.Forall_forall _ _) Hwf c Hc).
Qed.

Lemma located_index_In keys df d :
  In d (index (pd.located keys df)) <-> In d keys /\ In d (index df).
Proof.
  simpl. rewrite in_flat_map. split.
  - intros (k & Hk & Hd). rewrite rows_at_self in Hd.
    apply filter_In in Hd as [Hd Heq]. apply Z.eqb_eq in Heq. subst. tauto.
  - intros [Hk Hd]. exists d. split; [assumption|].
    rewrite rows_at_self. apply filter_In. split; [assumption|apply Z.eqb_refl].
Qed.

Lemma intersect_dates_total a b :
  _intersect_dates a b =
  Ok (pd.located (pd.intersection (index a) (index b)) a,
      pd.located (pd.intersection (index a) (index b)) b).
Proof.
  unfold _intersect_dates.
  rewrite (loc_total _ a), (loc_total _ b); [reflexivity| |];
    intros d Hd; apply intersection_In in Hd; tauto.
Qed.

Lemma intersect_dates_common_axis_parts a b :
  well_formed a -> well_formed b -> NoDup (index a) -> NoDup (index b) ->
  _intersect_dates a b =
  Ok (restricted_to (common_dates (index a) (index b)) a,
      restricted_to (common_dates (index a) (index b)) b) /\
  NoDup (common_dates (index a) (index b)).
Proof.
  intros Hwa Hwb Hna Hnb. split; [|now apply NoDup_common_dates].
  rewrite intersect_dates_total, (intersection_NoDup _ _ Hna).
  assert (Hsub : forall d, In d (common_dates (index a) (index b)) ->
                           In d (index a) /\ In d (index b))
    by (intros d Hd; now apply common_dates_In).
  rewrite (located_restricted _ a), (located_restricted _ b); auto;
    intros d Hd; now apply Hsub.
Qed.

(** C7: for any two tables [_intersect_dates] returns two tables whose
    dates are exactly the dates that both inputs have, and these date axes
    are determined by the two input date axes alone: tables with the same
    axes and other values come out on the same axes.  When the dates of
    each input are distinct, as those of a date-indexed table are, both
    outputs carry one and the same axis, the dates of the first input that
    the second has too, in their order, hence ascending when the input is,
    and each output is its input restricted to those dates. *)
Theorem intersect_dates_common_axis (a b : DataFrame) :
  exists a' b',
    _intersect_dates a b = Ok (a', b') /\
    (forall d, In d (index a') <-> In d (index a) /\ In d (index b)) /\
    (forall d, In d (index b') <-> In d (index a) /\ In d (index b)) /\
    (forall a2 b2, index a2 = index a -> index b2 = index b ->
       exists a2' b2', _intersect_dates a2 b2 = Ok (a2', b2') /\
                       index a2' = index a' /\ index b2' = index b') /\
    (well_formed a -> well_formed b -> NoDup (index a) -> NoDup (index b) ->
       let common := common_dates (index a) (index b) in
       a' = restricted_to common a /\ b' = restricted_to common b /\
       NoDup common /\ (ascending (index a) -> ascending common)).
Proof.
  exists (pd.located (pd.intersection (index a) (index b)) a),
         (pd.located (pd.intersection (index a) (index b)) b).
  split; [apply intersect_dates_total|].
  split; [intros d; rewrite located_index_In, intersection_In; tauto|].
  split; [intros d; rewrite located_index_In, intersection_In; tauto|].
  split.
  - intros a2 b2 Ha Hb. eexists _, _. split; [apply intersect_dates_total|].
    simpl. rewrite Ha, Hb. split; reflexivity.
  - intros Hwa Hwb Hna Hnb common.
    rewrite (intersection_NoDup _ _ Hna). fold common.
    assert (Hsub : forall d, In d common -> In d (index a) /\ In d (index b))
      by (intros d Hd; now apply common_dates_In).
    split; [apply located_restricted; auto; intros d Hd; now apply Hsub|].
    split; [apply located_restricted; auto; intros d Hd; now apply Hsub|].
    split; [now apply NoDup_common_dates|apply ascending_filter].
Qed.

Lemma intersect_dates_common_axis_witness :
  _intersect_dates sample_assets sample_index
  = Ok (restricted_to [2; 4] sample_assets, restricted_to [2; 4] sample_index) /\
  restricted_to [2; 4] sample_assets
  = mkDataFrame [2; 4] [("AAPL.US", [50.5; 50]%float); ("MSFT.US", [20; 40]%float)] /\
  restricted_to [2; 4] sample_index
  = mkDataFrame [2; 4] [("SPY.US", [100; 99]%float)] /\
  ascending [2; 4].
Proof.
  destruct (intersect_dates_common_axis sample_assets sample_index)
    as (a' & b' & Heq & _ & _ & _ & Hrestricted).
  destruct Hrestricted as (Ha & Hb & _ & Hasc);
    [repeat constructor..| | |].
  - apply NoDup_ListNoDup. repeat constructor; simpl; intuition discriminate.
  - apply NoDup_ListNoDup. repeat constructor; simpl; intuition discriminate.
  - rewrite Heq, Ha, Hb. split; [reflexivity|]. split; [reflexivity|].
    split; [reflexivity|]. apply Hasc. repeat constructor; lia.
Defined.

(** ** Sorting by date *)

Lemma insert_by_label_perm {A} (r : date * A) l :
  Permutation (pd.insert_by_label r l) (r :: l).
Proof.
  induction l as [|h t IH]; simpl; [reflexivity|].
  destruct (fst r <=? fst h); [reflexivity|].
  rewrite IH. apply perm_swap.
Qed.

Lemma sort_by_label_perm {A} (l : list (date * A)) :
  Permutation (pd.sort_by_label l) l.
Proof.
  induction l as [|r l IH]; simpl; [reflexivity|].
  rewrite insert_by_label_perm. now constructor.
Qed.

Lemma insert_by_label_sorted {A} (r : date * A) l :
  Sorted le_label l -> Sorted le_label (pd.insert_by_label r l).
Proof.
  induction 1 as [|h t Hs IH Hhd]; simpl; [repeat constructor|].
  destruct (Z.leb_spec (fst r) (fst h)) as [Hle|Hgt].
  - constructor; [now constructor|]. now constructor.
  - constructor; [assumption|].
    destruct t as [|h' t']; simpl.
    + constructor. unfold le_label. lia.
    + destruct (fst r <=? fst h'); constructor.
      * unfold le_label. lia.
      * now inversion Hhd.
Qed.

Lemma sort_by_label_sorted {A} (l : list (date * A)) :
  Sorted le_label (pd.sort_by_label l).
Proof.
  induction l as [|r l IH]; simpl; [constructor|]. now apply insert_by_label_sorted.
Qed.

(** Sorting looks at labels only: it commutes with any change of payload. *)
Lemma insert_by_label_map {A B} (f : date * A -> B) (r : date * A) l :
  pd.insert_by_label (fst r, f r) (map (fun x => (fst x, f x)) l)
  = map (fun x => (fst x, f x)) (pd.insert_by_label r l).
Proof.
  induction l as [|h t IH]; simpl; [reflexivity|].
  destruct (fst r <=? fst h); simpl; [reflexivity|]. now rewrite IH.
Qed.

Lemma sort_by_label_map {A B} (f : date * A -> B) (l : list (date * A)) :
  pd.sort_by_label (map (fun x => (fst x, f x)) l)
  = map (fun x => (fst x, f x)) (pd.sort_by_label l).
Proof.
  induction l as [|r l IH]; simpl; [reflexivity|].
  rewrite IH. apply insert_by_label_map.
Qed.

Lemma combine_relabel {A B} (f : date * A -> B) (idx : list date) (vs : list A) :
  length vs = length idx ->
  combine idx (map f (combine idx vs)) = map (fun x => (fst x, f x)) (combine idx vs).
Proof.
  revert vs. induction idx as [|d idx IH]; intros [|v vs] Hlen; try discriminate;
    simpl; [reflexivity|].
  f_equal. apply IH. now injection Hlen.
Qed.

Lemma combine_self_fst {A} (idx : list date) (vs : list A) :
  length vs = length idx -> map fst (combine idx vs) = idx.
Proof.
  revert vs. induction idx as [|d idx IH]; intros [|v vs] Hlen; try discriminate;
    simpl; [reflexivity|].
  f_equal. apply IH. now injection Hlen.
Qed.

(** The sorted index is the column of labels of the sorted entries. *)
Lemma sorted_values_index {A} (idx : list date) (vs : list A) :
  length vs = length idx ->
  pd.sorted_values idx idx = map fst (pd.sort_by_label (combine idx vs)).
Proof.
  intros Hlen. unfold pd.sorted_values.
  assert (Hidx : combine idx idx = map (fun x => (fst x, fst x)) (combine idx vs)).
  { rewrite <- (combine_relabel fst idx vs Hlen). f_equal.
    symmetry. now apply combine_self_fst. }
  rewrite Hidx, (sort_by_label_map fst), map_map. reflexivity.
Qed.

Lemma combine_fst_snd {A B} (l : list (A * B)) :
  combine (map fst l) (map snd l) = l.
Proof. induction l as [|[a b] l IH]; simpl; [reflexivity|]. now rewrite IH. Qed.

Lemma sorted_entries (idx : list date) (vs : list cell) :
  length vs = length idx ->
  combine (pd.sorted_values idx idx) (pd.sorted_values idx vs)
  = pd.sort_by_label (combine idx vs).
Proof.
  intros Hlen. rewrite (sorted_values_index idx vs Hlen).
  unfold pd.sorted_values. apply combine_fst_snd.
Qed.

Lemma sorted_values_length {A} (idx : list date) (vs : list A) :
  length vs = length idx -> length (pd.sorted_values idx vs) = length idx.
Proof.
  intros Hlen. unfold pd.sorted_values.
  rewrite length_map, (Permutation_length (sort_by_label_perm _)), length_combine. lia.
Qed.

Lemma sorted_values_perm (idx : list date) :
  Permutation (pd.sorted_values idx idx) idx.
Proof.
  rewrite (sorted_values_index idx idx eq_refl).
  rewrite (Permutation_map fst (sort_by_label_perm _)).
  now rewrite combine_self_fst.
Qed.

Lemma sorted_values_nondecreasing (idx : list date) :
  nondecreasing (pd.sorted_values idx idx).
Proof.
  rewrite (sorted_values_index idx idx eq_refl).
  pose proof (sort_by_label_sorted (combine idx idx)) as H.
  induction H as [|h t Hs IH Hhd]; simpl; [constructor|].
  constructor; [assumption|]. destruct Hhd; simpl; now constructor.
Qed.

(** ** Fetching *)

Lemma getitem_present df label :
  pd.has_column df label = true ->
  exists col, In (label, col) (columns df) /\
              pd.getitem df label = Ok (mkSeries label (index df) col).
Proof.
  unfold pd.has_column, pd.getitem, labels.
  induction (columns df) as [|[l c] cs IH]; simpl; [discriminate|].
  destruct (String.eqb_spec label l) as [->|Hne]; simpl.
  - intros _. exists c. split; [now left|reflexivity].
  - intros H. destruct (IH H) as (col & Hin & Heq). exists col. split; [now right|exact Heq].
Qed.

Lemma getitem_absent df label :
  pd.has_column df label = false -> pd.getitem df label = Raise (KeyError (KStr label)).
Proof.
  unfold pd.has_column, pd.getitem, labels.
  induction (columns df) as [|[l c] cs IH]; simpl; [reflexivity|].
  destruct (String.eqb_spec label l) as [->|Hne]; simpl; [discriminate|exact IH].
Qed.

Lemma price_column_selected df label :
  selected_field df label -> price_column df = label.
Proof.
  unfold selected_field, price_column. simpl.
  intros [(H1 & ->)|[(H1 & H2 & ->)|(H1 & H2 & H3 & ->)]];
    rewrite H1; try rewrite H2; try rewrite H3; reflexivity.
Qed.

Lemma price_column_default df :
  (forall label, ~ selected_field df label) ->
  price_column df = "Close" /\ pd.has_column df "Close" = false.
Proof.
  intros H. unfold price_column. simpl.
  destruct (pd.has_column df "Adj Close") eqn:H1.
  { exfalso. apply (H "Adj Close"). left. auto. }
  destruct (pd.has_column df "AdjClose") eqn:H2.
  { exfalso. apply (H "AdjClose"). right. left. auto. }
  destruct (pd.has_column df "Close") eqn:H3.
  { exfalso. apply (H "Close"). right. right. auto. }
  auto.
Qed.

Lemma fetch_stooq_selected env symbol start end_ df label :
  DataReader env symbol "stooq" start end_ = Ok df ->
  pd.empty df = false -> selected_field df label ->
  exists col, In (label, col) (columns df) /\
    _fetch_stooq env symbol start end_ =
    Ok (mkSeries symbol (pd.sorted_values (index df) (index df))
                        (pd.sorted_values (index df) col)).
Proof.
  intros Hread Hne Hsel. unfold _fetch_stooq. rewrite Hread. simpl. rewrite Hne.
  rewrite (price_column_selected df label Hsel).
  assert (Hhas : pd.has_column df label = true).
  { destruct Hsel as [(H1 & ->)|[(H1 & H2 & ->)|(H1 & H2 & H3 & ->)]]; assumption. }
  destruct (getitem_present df label Hhas) as (col & Hin & Hget).
  exists col. split; [assumption|]. rewrite Hget. reflexivity.
Qed.

Lemma selected_or_not df :
  (exists label, selected_field df label) \/ (forall label, ~ selected_field df label).
Proof.
  unfold selected_field.
  destruct (pd.has_column df "Adj Close") eqn:H1; [left; exists "Adj Close"; tauto|].
  destruct (pd.has_column df "AdjClose") eqn:H2; [left; exists "AdjClose"; tauto|].
  destruct (pd.has_column df "Close") eqn:H3; [left; exists "Close"; tauto|].
  right. intros label. intuition discriminate.
Qed.

(** C8: when the source returns a table, [_fetch_stooq] fails with the
    "No data returned" error exactly when that table is empty; a series it
    returns is never empty: it carries the symbol as its name and the
    entries of the selected price field (the adjusted close, else its second
    spelling, else the plain close, whichever the table has first in that
    order), sorted by date ascending.  A non-empty table with one of the
    three fields always gives a series; with none of them the lookup of
    "Close" fails. *)
Theorem fetch_stooq_result (env : Env) (symbol start end_ : string) (df : DataFrame) :
  DataReader env symbol "stooq" start end_ = Ok df -> well_formed df ->
  (_fetch_stooq env symbol start end_ = Raise (ValueError (NoDataReturned symbol))
   <-> pd.empty df = true) /\
  (forall s, _fetch_stooq env symbol start end_ = Ok s ->
     name s = symbol /\ values s <> [] /\ s_well_formed s /\
     nondecreasing (s_index s) /\
     exists label col, selected_field df label /\ In (label, col) (columns df) /\
                       entries_of s df col) /\
  (pd.empty df = false -> forall label, selected_field df label ->
     exists s, _fetch_stooq env symbol start end_ = Ok s) /\
  (pd.empty df = false -> (forall label, ~ selected_field df label) ->
     _fetch_stooq env symbol start end_ = Raise (KeyError (KStr "Close"))).
Proof.
  intros Hread Hwf.
  destruct (pd.empty df) eqn:Hempty.
  - assert (Hfail : _fetch_stooq env symbol start end_
                    = Raise (ValueError (NoDataReturned symbol))).
    { unfold _fetch_stooq. rewrite Hread. simpl. now rewrite Hempty. }
    rewrite Hfail. repeat split; discriminate.
  - assert (Hnone : (forall label, ~ selected_field df label) ->
                    _fetch_stooq env symbol start end_ = Raise (KeyError (KStr "Close"))).
    { intros Hno. destruct (price_column_default df Hno) as [Hcol Hhas].
      unfold _fetch_stooq. rewrite Hread. simpl. rewrite Hempty, Hcol.
      now rewrite (getitem_absent df "Close" Hhas). }
    split; [|split; [|split]].
    + split; [|discriminate]. intros Hfail.
      destruct (selected_or_not df) as [(label & Hsel)|Hno].
      * destruct (fetch_stooq_selected env symbol start end_ df label Hread Hempty Hsel)
          as (col & _ & Heq). rewrite Heq in Hfail. discriminate.
      * rewrite (Hnone Hno) in Hfail. discriminate.
    + intros s Hs. destruct (selected_or_not df) as [(label & Hsel)|Hno].
      2:{ rewrite (Hnone Hno) in Hs. discriminate. }
      destruct (fetch_stooq_selected env symbol start end_ df label Hread Hempty Hsel)
        as (col & Hin & Heq).
      rewrite Heq in Hs. injection Hs as <-. simpl.
      assert (Hlen : length col = length (index df))
        by exact (proj1 (List.Forall_forall _ _) Hwf _ Hin).
      split; [reflexivity|]. split; [|split; [|split]].
      * intros Hnil. apply (f_equal (@length _)) in Hnil.
        rewrite (sorted_values_length _ _ Hlen) in Hnil. simpl in Hnil.
        unfold pd.empty in Hempty. apply orb_false_elim in Hempty as [Hrows _].
        apply Nat.eqb_neq in Hrows. contradiction.
      * unfold s_well_formed. simpl.
        now rewrite (sorted_values_length _ _ Hlen), (sorted_values_length _ _ eq_refl).
      * apply sorted_values_nondecreasing.
      * exists label, col. split; [assumption|]. split; [assumption|].
        unfold entries_of. simpl. rewrite (sorted_entries _ _ Hlen).
        apply sort_by_label_perm.
    + intros _ label Hsel.
      destruct (fetch_stooq_selected env symbol start end_ df label Hread Hempty Hsel)
        as (col & _ & Heq). eexists. exact Heq.
    + intros _. exact Hnone.
Qed.

Lemma fetch_stooq_result_witness :
  (exists s,
     _fetch_stooq sample_env "MSFT.US" "2018-01-01" "2024-12-31" = Ok s /\
     s = mkSeries "MSFT.US" [2; 3] [20; 40]%float /\
     name s = "MSFT.US" /\ values s <> [] /\ s_well_formed s /\
     nondecreasing (s_index s)) /\
  (_fetch_stooq sample_env "NONE.US" "2018-01-01" "2024-12-31"
     = Raise (ValueError (NoDataReturned "NONE.US"))
   <-> pd.empty (mkDataFrame [] []) = true).
Proof.
  split.
  - pose proof (fetch_stooq_result sample_env "MSFT.US" "2018-01-01" "2024-12-31"
                  (mkDataFrame [3; 2] [("Close", [41; 21]%float);
                                        ("Adj Close", [40; 20]%float)])
                  eq_refl ltac:(repeat constructor)) as (_ & Hseries & _).
    eexists. split; [reflexivity|]. split; [reflexivity|].
    destruct (Hseries _ eq_refl) as (Hname & Hvalues & Hwf & Hsorted & _).
    auto.
  - apply (fetch_stooq_result sample_env "NONE.US" "2018-01-01" "2024-12-31"
             (mkDataFrame [] []) eq_refl). constructor.
Defined.

Lemma fetch_stooq_name env symbol start end_ s :
  _fetch_stooq env symbol start end_ = Ok s -> name s = symbol.
Proof.
  unfold _fetch_stooq. destruct (DataReader env symbol "stooq" start end_) as [e|df];
    simpl; [discriminate|].
  destruct (pd.empty df); [discriminate|].
  destruct (pd.getitem df (price_column df)) as [e|column]; simpl; [discriminate|].
  intros H. injection H as <-. reflexivity.
Qed.

Lemma fetch_each_names env symbols start end_ series :
  fetch_each env symbols start end_ = Ok series -> map name series = symbols.
Proof.
  revert series. induction symbols as [|sym rest IH]; intros series; simpl.
  - intros H. injection H as <-. reflexivity.
  - destruct (_fetch_stooq env sym start end_) as [e|s] eqn:Hs; simpl; [discriminate|].
    destruct (fetch_each env rest start end_) as [e|ss]; simpl; [discriminate|].
    intros H. injection H as <-. simpl.
    now rewrite (fetch_stooq_name _ _ _ _ _ Hs), (IH ss eq_refl).
Qed.

Lemma concat_axis1_series_labels series prices :
  pd.concat_axis1 (map pd.to_frame series) = Ok prices ->
  labels prices = map name series.
Proof.
  unfold pd.concat_axis1. destruct series as [|s0 rest]; simpl; [discriminate|].
  destruct (forallb _ (map pd.to_frame rest)).
  - intros H. injection H as <-. unfold labels. simpl. f_equal.
    induction rest as [|s rest IH]; simpl; [reflexivity|]. now rewrite IH.
  - destruct (pd.is_unique (s_index s0) && _); [|discriminate].
    intros H. injection H as <-. unfold labels. simpl. f_equal.
    generalize (pd.unique (s_index s0 ++ flat_map index (map pd.to_frame rest))).
    intros new_index. induction rest as [|s rest IH]; simpl; [reflexivity|]. now rewrite IH.
Qed.

Lemma sort_index_labels df : labels (pd.sort_index df) = labels df.
Proof. unfold labels, pd.sort_index. simpl. now rewrite map_map. Qed.

(** C10: whenever [_fetch_many] returns a price table for a list of
    symbols, the labels of its columns are the symbols, one column per
    symbol, in the order of the list. *)
Theorem fetch_many_columns (env : Env) (symbols : list string) (start end_ : string)
    (prices : DataFrame) :
  _fetch_many env symbols start end_ = Ok prices ->
  labels prices = symbols /\ length (columns prices) = length symbols.
Proof.
  unfold _fetch_many. intros H.
  destruct (fetch_each env symbols start end_) as [e|series] eqn:Hseries;
    simpl in H; [discriminate|].
  destruct (pd.concat_axis1 (map pd.to_frame series)) as [e|joined] eqn:Hjoined;
    simpl in H; [discriminate|].
  injection H as <-.
  assert (Hlabels : labels (pd.sort_index joined) = symbols).
  { rewrite sort_index_labels, (concat_axis1_series_labels _ _ Hjoined).
    exact (fetch_each_names _ _ _ _ _ Hseries). }
  split; [exact Hlabels|].
  apply (f_equal (@length _)) in Hlabels. unfold labels in Hlabels.
  now rewrite length_map in Hlabels.
Qed.

Lemma fetch_many_columns_witness :
  exists prices,
    _fetch_many sample_env ["AAPL.US"; "MSFT.US"] "2018-01-01" "2024-12-31" = Ok prices /\
    labels prices = ["AAPL.US"; "MSFT.US"] /\ length (columns prices) = 2%nat.
Proof.
  eexists. split; [reflexivity|].
  apply (fetch_many_columns sample_env ["AAPL.US"; "MSFT.US"] "2018-01-01" "2024-12-31").
  reflexivity.
Defined.

(** ** The pipeline *)

Lemma perform_ok env ev log u : perform env ev = (log, Ok u) -> log = [ev].
Proof. unfold perform. destruct (io_error env ev); [discriminate|]. intros H. now injection H. Qed.

Lemma perform_err env ev log e :
  perform env ev = (log, Raise e) -> log = [] /\ io_error env ev = Some e.
Proof.
  unfold perform. destruct (io_error env ev) as [err|]; [|discriminate].
  intros H. injection H as <- <-. now split.
Qed.

Lemma perform_no_failure env ev :
  (forall ev', io_error env ev' = None) -> perform env ev = ([ev], Ok tt).
Proof. intros H. unfold perform. now rewrite H. Qed.

Lemma writes_nothing_perform env ev : persists ev = false -> writes_nothing (perform env ev).
Proof.
  intros H. unfold writes_nothing, perform.
  destruct (io_error env ev); simpl; repeat constructor. exact H.
Qed.

Lemma writes_nothing_lift {A} (r : result A) : writes_nothing (lift r).
Proof. constructor. Qed.

Lemma writes_nothing_ret {A} (a : A) : writes_nothing (io_ret a).
Proof. constructor. Qed.

Lemma writes_nothing_bind {A B} (m : IO A) (k : A -> IO B) :
  writes_nothing m -> (forall a, writes_nothing (k a)) -> writes_nothing (io_bind m k).
Proof.
  unfold writes_nothing, io_bind. intros Hm Hk.
  destruct m as [log [e|a]]; simpl in *; [assumption|].
  specialize (Hk a). destruct (k a) as [log' r]. simpl in *.
  apply List.Forall_app. split; assumption.
Qed.

Lemma main_prices_writes_nothing env args : writes_nothing (main_prices env args).
Proof.
  unfold main_prices.
  repeat first
    [ apply writes_nothing_bind; [|intros ?]
    | apply writes_nothing_perform; reflexivity
    | apply writes_nothing_lift
    | apply writes_nothing_ret
    | match goal with |- writes_nothing (let (_, _) := ?p in _) => destruct p end
    | match goal with |- writes_nothing (if ?b then _ else _) => destruct b end ].
Qed.

(** The saving is the five writes, then the six lines, one operation after
    the other. *)
Lemma perform_last env ev : perform env ev = run! perform env ev in io_ret tt.
Proof. unfold perform, io_bind, io_ret. destruct (io_error env ev); reflexivity. Qed.

Lemma main_save_performs env args asset_prices idx_prices asset_rets idx_rets :
  main_save env args asset_prices idx_prices asset_rets idx_rets
  = perform_all env (saved_files env args asset_prices idx_prices asset_rets idx_rets
                     ++ wrote_lines args).
Proof.
  unfold main_save, saved_files, wrote_lines. cbv zeta. cbn [app perform_all].
  now rewrite <- (perform_last env (Print _)).
Qed.

Lemma perform_all_ok env evs log u : perform_all env evs = (log, Ok u) -> log = evs.
Proof.
  revert log. induction evs as [|ev rest IH]; intros log H; simpl in H.
  - now injection H.
  - unfold io_bind in H. destruct (perform env ev) as [l1 [e|a]] eqn:Hev; [discriminate|].
    apply perform_ok in Hev as ->.
    destruct (perform_all env rest) as [l2 r] eqn:Hrest. injection H as <- ->.
    now rewrite (IH l2 eq_refl).
Qed.

Lemma perform_all_no_failure env evs :
  (forall ev, io_error env ev = None) -> perform_all env evs = (evs, Ok tt).
Proof.
  intros Hquiet. induction evs as [|ev rest IH]; simpl; [reflexivity|].
  now rewrite (perform_no_failure env ev Hquiet), IH.
Qed.

(** C5: when the aligned asset price table has fewer rows than
    [--min-days], [main] fails there with the "Too few common observations"
    error, which carries the row count and the required minimum, and it has
    written no output file (the returns are computed, and the files saved,
    only after the check); with 10 aligned rows and a minimum of 250 the
    error carries 10 and 250.  When the row count meets the minimum the
    check passes, and [main] goes on to the saving of the returns, and to
    the end when no operation of the saving fails. *)
Theorem main_sanity_check (env : Env) (args : Args.t)
    (log : list event) (asset_prices idx_prices : DataFrame) :
  main_prices env args = (log, Ok (asset_prices, idx_prices)) ->
  (Z.of_nat (len asset_prices) < Args.min_days args ->
     main env args
     = (log, Raise (ValueError (TooFewObservations (Z.of_nat (len asset_prices))
                                                   (Args.min_days args)))) /\
     writes_nothing (main env args)) /\
  (Args.min_days args <= Z.of_nat (len asset_prices) ->
     sanity_check args asset_prices = Ok tt /\
     (exists asset_rets idx_rets,
        _intersect_dates (_to_simple_returns asset_prices) (_to_simple_returns idx_prices)
        = Ok (asset_rets, idx_rets) /\
        main env args
        = run! (log, Ok tt) in
          main_save env args asset_prices idx_prices asset_rets idx_rets) /\
     ((forall ev, io_error env ev = None) ->
      exists log', main env args = (log ++ log', Ok tt))).
Proof.
  intros Hprices. split.
  - intros Hfew.
    assert (Hmain : main env args
              = (log, Raise (ValueError (TooFewObservations (Z.of_nat (len asset_prices))
                                                            (Args.min_days args))))).
    { unfold main. rewrite Hprices. unfold main_returns, sanity_check. simpl.
      destruct (Z.ltb_spec (Z.of_nat (len asset_prices)) (Args.min_days args)); [|lia].
      simpl. now rewrite app_nil_r. }
    split; [exact Hmain|]. rewrite Hmain.
    pose proof (main_prices_writes_nothing env args) as Hquiet.
    rewrite Hprices in Hquiet. exact Hquiet.
  - intros Henough.
    assert (Hcheck : sanity_check args asset_prices = Ok tt).
    { unfold sanity_check.
      destruct (Z.ltb_spec (Z.of_nat (len asset_prices)) (Args.min_days args)); [lia|].
      reflexivity. }
    split; [exact Hcheck|].
    destruct (_intersect_dates (_to_simple_returns asset_prices)
                               (_to_simple_returns idx_prices)) as [e|[ra ri]] eqn:Hrets.
    { rewrite intersect_dates_total in Hrets. discriminate. }
    assert (Hmain : main env args
              = run! (log, Ok tt) in main_save env args asset_prices idx_prices ra ri).
    { unfold main. rewrite Hprices. unfold main_returns. simpl.
      rewrite Hcheck. simpl. rewrite Hrets. simpl.
      now destruct (main_save _ _ _ _ _ _) as [l r]. }
    split.
    + exists ra, ri. split; [reflexivity|exact Hmain].
    + intros Hquiet. rewrite Hmain, main_save_performs.
      rewrite (perform_all_no_failure env _ Hquiet). simpl. eexists. reflexivity.
Qed.

Lemma main_sanity_check_witness :
  main ten_day_env (sample_args 250)
  = ([Makedirs "data"; Print "[INFO] Fetching index: SPY.US";
      Print "[INFO] Fetching assets: AAPL.US, MSFT.US"],
     Raise (ValueError (TooFewObservations 10 250))) /\
  writes_nothing (main ten_day_env (sample_args 250)) /\
  exists log, main ten_day_env (sample_args 10) = (log, Ok tt).
Proof.
  destruct (main_prices ten_day_env (sample_args 250)) as [log [e|[a i]]] eqn:Hprices;
    [vm_compute in Hprices; discriminate|].
  pose proof (main_sanity_check ten_day_env (sample_args 250) log a i Hprices) as [Hfew _].
  pose proof (main_sanity_check ten_day_env (sample_args 10) log a i Hprices) as [_ Henough].
  vm_compute in Hprices. injection Hprices as <- <- <-.
  destruct Hfew as [Hmain Hquiet]; [unfold len; simpl; lia|].
  destruct Henough as (_ & _ & Hend); [unfold len; simpl; lia|].
  destruct (Hend (fun _ => eq_refl)) as (log' & Hok).
  split; [exact Hmain|]. split; [exact Hquiet|]. eexists. exact Hok.
Defined.

(** ** The loader *)

Lemma compress_seq_Forall (P : cell -> Prop) (f : nat -> bool) n :
  forall s (col : list cell),
    (forall i v, f (s + i)%nat = true -> col !! i = Some v -> P v) ->
    List.Forall P (pd.compress (map f (seq s n)) col).
Proof.
  induction n as [|n IH]; intros s col H; simpl; [constructor|].
  destruct col as [|v col]; [constructor|].
  assert (Hrest : List.Forall P (pd.compress (map f (seq (S s) n)) col)).
  { apply IH. intros i w Hf Hw. apply (H (S i) w); [|exact Hw].
    now replace (s + S i)%nat with (S s + i)%nat by lia. }
  destruct (f s) eqn:Hfs; [|exact Hrest].
  constructor; [|exact Hrest].
  apply (H 0%nat v); [|reflexivity]. now rewrite Nat.add_0_r.
Qed.

Lemma dropna_rows_any_defined df : fully_defined (pd.dropna_rows_any df).
Proof.
  unfold fully_defined, pd.dropna_rows_any, pd.select_rows. simpl.
  intros c Hc. apply in_map_iff in Hc as (c0 & <- & Hc0). simpl.
  unfold pd.notna_all. apply compress_seq_Forall. intros i v Hall Hv.
  rewrite forallb_forall in Hall. specialize (Hall c0 Hc0).
  unfold pd.cell_of_row, notna in Hall. simpl in Hall.
  rewrite (nth_lookup_Some _ _ _ _ Hv) in Hall. now apply negb_true_iff.
Qed.

Lemma rbind_ok {A B} (m : result A) (k : A -> result B) (b : B) :
  rbind m k = Ok b -> exists a, m = Ok a /\ k a = Ok b.
Proof. destruct m as [e|a]; simpl; [discriminate|]. intros H. now exists a. Qed.

Lemma load_returns_aligned env index_csv assets_csv date_col y X :
  load_returns_from_csv env index_csv assets_csv date_col = Ok (y, X) ->
  aligned_dataset y X.
Proof.
  unfold load_returns_from_csv. intros H.
  apply rbind_ok in H as (idx & _ & H).
  apply rbind_ok in H as (ast & _ & H).
  apply rbind_ok in H as (y0 & _ & H).
  apply rbind_ok in H as (df2 & _ & H).
  apply rbind_ok in H as (y1 & Hy1 & H).
  pose proof (dropna_rows_any_defined df2) as Hdef.
  unfold pd.iloc_first in Hy1. unfold pd.iloc_from_second in H.
  destruct (columns (pd.dropna_rows_any df2)) as [|c cs] eqn:Hcols; [discriminate|].
  injection Hy1 as <-. injection H as <- <-.
  unfold aligned_dataset. simpl. split; [reflexivity|]. split.
  - apply Hdef. rewrite Hcols. now left.
  - intros c' Hc'. apply Hdef. rewrite Hcols. now right.
Qed.

(** ** Tables with distinct dates, through the pipeline *)

Lemma unique_distinct l : NoDup (pd.unique l).
Proof.
  induction l as [|a l IH]; simpl; [constructor|].
  apply NoDup_cons. split.
  - rewrite list_elem_of_In, filter_In, negb_true_iff, Z.eqb_neq. tauto.
  - apply NoDup_ListNoDup, List.NoDup_filter, NoDup_ListNoDup, IH.
Qed.

Lemma sorted_values_distinct idx : NoDup idx -> NoDup (pd.sorted_values idx idx).
Proof. intros H. now rewrite (sorted_values_perm idx). Qed.

Lemma sort_index_dated df : dated df -> dated (pd.sort_index df).
Proof.
  intros [Hwf Hnd]. split; [|now apply sorted_values_distinct].
  unfold well_formed, pd.sort_index in *. simpl.
  apply List.Forall_forall. intros c Hc. apply in_map_iff in Hc as (c0 & <- & Hc0). simpl.
  pose proof (proj1 (List.Forall_forall _ _) Hwf c0 Hc0) as Hlen. simpl in Hlen.
  now rewrite (sorted_values_length _ _ Hlen), (sorted_values_length _ _ eq_refl).
Qed.

Lemma fetch_stooq_shape env symbol start end_ s :
  _fetch_stooq env symbol start end_ = Ok s ->
  exists df c, DataReader env symbol "stooq" start end_ = Ok df /\ In c (columns df) /\
    s = mkSeries symbol (pd.sorted_values (index df) (index df))
                        (pd.sorted_values (index df) (snd c)).
Proof.
  unfold _fetch_stooq. intros H. apply rbind_ok in H as (df & Hdf & H).
  destruct (pd.empty df); [discriminate|].
  apply rbind_ok in H as (column & Hcol & H). unfold pd.getitem in Hcol.
  destruct (List.find _ (columns df)) as [c|] eqn:Hfind; [|discriminate].
  apply find_some in Hfind as [Hin _]. injection Hcol as <-. injection H as <-.
  exists df, c. auto.
Qed.

Lemma fetch_stooq_dated env symbol start end_ s :
  source_dated env -> _fetch_stooq env symbol start end_ = Ok s -> dated (pd.to_frame s).
Proof.
  intros Hsrc H. apply fetch_stooq_shape in H as (df & c & Hdf & Hc & ->).
  destruct (Hsrc _ _ _ _ _ Hdf) as [Hwf Hnd].
  pose proof (proj1 (List.Forall_forall _ _) Hwf c Hc) as Hlen. simpl in Hlen.
  split; [|now apply sorted_values_distinct].
  unfold well_formed. simpl. constructor; [|constructor]. simpl.
  now rewrite (sorted_values_length _ _ Hlen), (sorted_values_length _ _ eq_refl).
Qed.

Lemma fetch_each_dated env symbols start end_ series :
  source_dated env -> fetch_each env symbols start end_ = Ok series ->
  List.Forall dated (map pd.to_frame series).
Proof.
  intros Hsrc. revert series. induction symbols as [|sym rest IH]; intros series H; simpl in H.
  - injection H as <-. constructor.
  - apply rbind_ok in H as (s & Hs & H). apply rbind_ok in H as (ss & Hss & H).
    injection H as <-. simpl. constructor; [now apply (fetch_stooq_dated env sym start end_)|].
    now apply IH.
Qed.

Lemma index_eqb_eq a b : pd.index_eqb a b = true -> a = b.
Proof. unfold pd.index_eqb. now destruct (decide (a = b)). Qed.

Lemma concat_axis1_dated objs df :
  List.Forall dated objs -> pd.concat_axis1 objs = Ok df -> dated df.
Proof.
  unfold pd.concat_axis1. intros Hall H. destruct objs as [|o rest]; [discriminate|].
  destruct (forallb _ rest) eqn:Hsame.
  - injection H as <-. pose proof (proj1 (List.Forall_forall _ _) Hall) as Hin.
    split; [|apply (Hin o); now left].
    unfold well_formed.
    change (List.Forall (fun c => length (snd c) = length (index o))
                        (flat_map columns (o :: rest))).
    apply List.Forall_forall. intros c Hc.
    apply in_flat_map in Hc as (x & Hx & Hc).
    destruct (Hin x Hx) as [Hwf _].
    rewrite (proj1 (List.Forall_forall _ _) Hwf c Hc).
    destruct Hx as [<-|Hx]; [reflexivity|].
    rewrite forallb_forall in Hsame. now rewrite (index_eqb_eq _ _ (Hsame x Hx)).
  - destruct (forallb _ (o :: rest)); [|discriminate]. injection H as <-.
    split; [|apply unique_distinct].
    unfold well_formed. simpl. apply List.Forall_forall. intros c Hc.
    apply in_app_or in Hc as [Hc|Hc]; [|apply in_flat_map in Hc as (x & Hx & Hc)];
      apply in_map_iff in Hc as (c0 & <- & _); apply length_map.
Qed.

Lemma ffill_dated limit df df' : dated df -> pd.ffill limit df = Ok df' -> dated df'.
Proof.
  intros [Hwf Hnd]. unfold pd.ffill. destruct (pd.size df =? 0)%nat.
  - intros H. injection H as <-. now split.
  - intros H. apply rbind_ok in H as (lim & _ & H). injection H as <-.
    split; [|exact Hnd]. unfold well_formed, map_columns in *. simpl.
    apply List.Forall_forall. intros c Hc. apply in_map_iff in Hc as (c0 & <- & Hc0). simpl.
    rewrite pad_1d_length. exact (proj1 (List.Forall_forall _ _) Hwf c0 Hc0).
Qed.

Lemma resample_if_needed_dated env df freq df' :
  resampler_dated env -> dated df -> _resample_if_needed env df freq = Ok df' -> dated df'.
Proof.
  intros Hres Hdf. unfold _resample_if_needed. destruct (str_in _ _).
  - intros H. now injection H as <-.
  - intros H. apply rbind_ok in H as (rule & _ & H). now apply (Hres rule df).
Qed.

Lemma restricted_to_dated keys df : NoDup keys -> dated (restricted_to keys df).
Proof.
  intros Hnd. split; [|exact Hnd]. unfold well_formed, restricted_to. simpl.
  apply List.Forall_forall. intros c Hc. apply in_map_iff in Hc as (c0 & <- & _).
  apply length_map.
Qed.

Lemma intersect_dates_dated a b a' b' :
  dated a -> dated b -> _intersect_dates a b = Ok (a', b') ->
  dated a' /\ dated b' /\ index a' = index b'.
Proof.
  intros [Hwa Hna] [Hwb Hnb] H.
  destruct (intersect_dates_common_axis_parts a b Hwa Hwb Hna Hnb) as (Heq & Hcommon).
  rewrite Heq in H. injection H as <- <-.
  repeat split; try (apply restricted_to_dated; exact Hcommon); exact Hcommon.
Qed.

Lemma compress_In {A} mask (l : list A) x : In x (pd.compress mask l) -> In x l.
Proof.
  revert l. induction mask as [|b mask IH]; intros [|y l]; simpl; try contradiction.
  destruct b; simpl; intros H; [destruct H as [H|H]|]; auto.
Qed.

Lemma compress_distinct mask (l : list date) : NoDup l -> NoDup (pd.compress mask l).
Proof.
  revert l. induction mask as [|b mask IH]; intros [|y l] H; simpl; try constructor.
  apply NoDup_cons in H as [Hy Hl]. destruct b; [|now apply IH].
  apply NoDup_cons. split; [|now apply IH].
  rewrite list_elem_of_In. intros Hin. apply Hy, list_elem_of_In.
  exact (compress_In _ _ _ Hin).
Qed.

Lemma compress_length {A B} mask (l1 : list A) (l2 : list B) :
  length l1 = length l2 -> length (pd.compress mask l1) = length (pd.compress mask l2).
Proof.
  revert l1 l2. induction mask as [|b mask IH]; intros [|x l1] [|y l2] H; simpl;
    try reflexivity; try discriminate.
  injection H as H. destruct b; simpl; now rewrite (IH l1 l2 H).
Qed.

Lemma zip_cells_length f xs ys :
  length ys = length xs -> length (pd.zip_cells f xs ys) = length xs.
Proof.
  revert ys. induction xs as [|x xs IH]; intros [|y ys] H; simpl; try reflexivity;
    try discriminate.
  now rewrite IH by (now injection H).
Qed.

Lemma pct_change_col_length nobs vs : length (pd.pct_change_col nobs vs) = length vs.
Proof.
  unfold pd.pct_change_col, pd.shift. rewrite zip_cells_length; [apply pad_1d_length|].
  rewrite length_firstn. cbn [length]. apply Nat.min_l. apply Nat.le_succ_diag_r.
Qed.

Lemma to_simple_returns_dated df : dated df -> dated (_to_simple_returns df).
Proof.
  intros [Hwf Hnd]. unfold _to_simple_returns, pd.dropna_rows_all, pd.select_rows.
  split; [|now apply compress_distinct].
  unfold well_formed. simpl. apply List.Forall_forall. intros c Hc.
  apply in_map_iff in Hc as (c0 & <- & Hc0). simpl. apply compress_length.
  apply in_map_iff in Hc0 as (c1 & <- & Hc1). simpl. rewrite pct_change_col_length.
  exact (proj1 (List.Forall_forall _ _) Hwf c1 Hc1).
Qed.

Lemma io_bind_ok {A B} (m : IO A) (k : A -> IO B) log (b : B) :
  io_bind m k = (log, Ok b) ->
  exists l1 a l2, m = (l1, Ok a) /\ k a = (l2, Ok b) /\ log = l1 ++ l2.
Proof.
  unfold io_bind. destruct m as [l1 [e|a]]; [discriminate|].
  destruct (k a) as [l2 r] eqn:Hk. intros H. injection H as <- ->.
  exists l1, a, l2. auto.
Qed.

Lemma lift_ok {A} (r : result A) log (a : A) : lift r = (log, Ok a) -> r = Ok a.
Proof. unfold lift. intros H. now injection H. Qed.

Lemma main_prices_dated env args log asset_prices idx_prices :
  source_dated env -> resampler_dated env ->
  main_prices env args = (log, Ok (asset_prices, idx_prices)) ->
  dated asset_prices /\ dated idx_prices /\ index asset_prices = index idx_prices.
Proof.
  intros Hsrc Hres H. unfold main_prices in H.
  apply io_bind_ok in H as (? & ? & ? & _ & H & _).
  apply io_bind_ok in H as (? & ? & ? & _ & H & _).
  apply io_bind_ok in H as (? & s & ? & Hs & H & _). apply lift_ok in Hs.
  apply io_bind_ok in H as (? & ? & ? & _ & H & _).
  apply io_bind_ok in H as (? & a0 & ? & Ha0 & H & _). apply lift_ok in Ha0.
  apply io_bind_ok in H as (? & a1 & ? & Ha1 & H & _). apply lift_ok in Ha1.
  apply io_bind_ok in H as (? & i1 & ? & Hi1 & H & _). apply lift_ok in Hi1.
  apply io_bind_ok in H as (? & [a2 i2] & ? & Hresample & H & _). apply lift_ok in H.
  assert (Hi0 : dated (pd.to_frame s)) by exact (fetch_stooq_dated env _ _ _ s Hsrc Hs).
  assert (Hda0 : dated a0).
  { unfold _fetch_many in Ha0. apply rbind_ok in Ha0 as (series & Hseries & Ha0).
    apply rbind_ok in Ha0 as (joined & Hjoined & Ha0). injection Ha0 as <-.
    apply sort_index_dated, (concat_axis1_dated _ _ (fetch_each_dated _ _ _ _ _ Hsrc Hseries)).
    exact Hjoined. }
  assert (Hda1 : dated a1) by exact (ffill_dated _ _ _ Hda0 Ha1).
  assert (Hdi1 : dated i1) by exact (ffill_dated _ _ _ Hi0 Hi1).
  unfold io_ret in Hresample.
  assert (Hd2 : dated a2 /\ dated i2).
  { destruct (negb _).
    - apply io_bind_ok in Hresample as (? & ? & ? & _ & Hresample & _).
      apply io_bind_ok in Hresample as (? & a' & ? & Ha' & Hresample & _). apply lift_ok in Ha'.
      apply io_bind_ok in Hresample as (? & i' & ? & Hi' & Hresample & _). apply lift_ok in Hi'.
      injection Hresample as _ <- <-.
      split; [exact (resample_if_needed_dated _ _ _ _ Hres Hda1 Ha')
             |exact (resample_if_needed_dated _ _ _ _ Hres Hdi1 Hi')].
    - injection Hresample as _ <- <-. now split. }
  destruct Hd2 as [Hda2 Hdi2]. exact (intersect_dates_dated _ _ _ _ Hda2 Hdi2 H).
Qed.

Lemma main_returns_dated args asset_prices idx_prices log asset_rets idx_rets :
  dated asset_prices -> dated idx_prices ->
  main_returns args asset_prices idx_prices = (log, Ok (asset_rets, idx_rets)) ->
  dated asset_rets /\ dated idx_rets /\ index asset_rets = index idx_rets.
Proof.
  intros Ha Hi H. unfold main_returns in H.
  apply io_bind_ok in H as (? & ? & ? & _ & H & _). apply lift_ok in H.
  exact (intersect_dates_dated _ _ _ _ (to_simple_returns_dated _ Ha)
           (to_simple_returns_dated _ Hi) H).
Qed.

Lemma sample_source_dated : source_dated sample_env.
Proof.
  intros symbol src start end_ df. simpl. unfold sample_reader.
  assert (Hdistinct : forall l : list date, List.NoDup l -> NoDup l)
    by (intros l; apply NoDup_ListNoDup).
  repeat match goal with |- context [String.eqb ?a ?b] => destruct (String.eqb a b) end;
    intros H; injection H as <-;
    (split; [repeat constructor
            |apply Hdistinct; repeat constructor; simpl; intuition discriminate]).
Qed.

Lemma sample_resampler_dated : resampler_dated sample_env.
Proof.
  intros rule df df' [Hwf Hnd] H. simpl in H. unfold sample_resampler in H.
  injection H as <-. unfold pd.select_rows.
  split; [|now apply compress_distinct].
  unfold well_formed. simpl. apply List.Forall_forall. intros c Hc.
  apply in_map_iff in Hc as (c0 & <- & Hc0). simpl. apply compress_length.
  exact (proj1 (List.Forall_forall _ _) Hwf c0 Hc0).
Qed.

(** *** The index returns of the pipeline *)

Lemma ffill_labels limit df df' : pd.ffill limit df = Ok df' -> labels df' = labels df.
Proof.
  unfold pd.ffill. destruct (pd.size df =? 0)%nat; intros H.
  - now injection H as <-.
  - apply rbind_ok in H as (lim & _ & H). injection H as <-.
    unfold labels, map_columns. simpl. now rewrite map_map.
Qed.

Lemma resample_if_needed_labels env df freq df' :
  resampler_labelled env -> _resample_if_needed env df freq = Ok df' ->
  labels df' = labels df.
Proof.
  intros Hres. unfold _resample_if_needed. destruct (str_in _ _); intros H.
  - now injection H as <-.
  - apply rbind_ok in H as (rule & _ & H). exact (Hres rule df df' H).
Qed.

Lemma located_labels keys df : labels (pd.located keys df) = labels df.
Proof. unfold labels, pd.located. simpl. now rewrite map_map. Qed.

Lemma rows_at_In {A} idx (vs : list A) d v : In v (pd.rows_at idx vs d) -> In v vs.
Proof.
  unfold pd.rows_at. intros H. apply in_map_iff in H as ([d' v'] & <- & H).
  apply filter_In in H as [H _]. exact (in_combine_r _ _ _ _ H).
Qed.

Lemma located_defined keys df : fully_defined df -> fully_defined (pd.located keys df).
Proof.
  intros Hdef c Hc. unfold pd.located in Hc. simpl in Hc.
  apply in_map_iff in Hc as (c0 & <- & Hc0). simpl.
  apply List.Forall_forall. intros v Hv. apply in_flat_map in Hv as (d & _ & Hv).
  exact (proj1 (List.Forall_forall _ _) (Hdef c0 Hc0) v (rows_at_In _ _ _ _ Hv)).
Qed.

(** The returns of a table with a single column have no undefined cell:
    [dropna(how="all")] drops each row at which that column is undefined. *)
Lemma to_simple_returns_single_column df :
  length (labels df) = 1%nat -> fully_defined (_to_simple_returns df).
Proof.
  unfold labels. rewrite length_map. intros Hone.
  destruct (columns df) as [|c0 [|c1 cs]] eqn:Hcols; try discriminate.
  unfold fully_defined, _to_simple_returns, pd.dropna_rows_all, pd.select_rows,
    pd.notna_any, pd.pct_change, map_columns.
  cbn [columns index]. rewrite Hcols. cbn [map]. intros c [<-|[]]. cbn [snd].
  apply compress_seq_Forall. intros i v Hany Hv.
  cbn [existsb] in Hany. rewrite orb_false_r in Hany.
  unfold pd.cell_of_row, notna in Hany. cbn [snd] in Hany.
  rewrite (nth_lookup_Some _ _ _ _ Hv) in Hany. now apply negb_true_iff.
Qed.

Lemma main_prices_index_column env args log asset_prices idx_prices :
  resampler_labelled env ->
  main_prices env args = (log, Ok (asset_prices, idx_prices)) ->
  length (labels idx_prices) = 1%nat.
Proof.
  intros Hres H. unfold main_prices in H.
  apply io_bind_ok in H as (? & ? & ? & _ & H & _).
  apply io_bind_ok in H as (? & ? & ? & _ & H & _).
  apply io_bind_ok in H as (? & s & ? & _ & H & _).
  apply io_bind_ok in H as (? & ? & ? & _ & H & _).
  apply io_bind_ok in H as (? & a0 & ? & _ & H & _).
  apply io_bind_ok in H as (? & a1 & ? & _ & H & _).
  apply io_bind_ok in H as (? & i1 & ? & Hi1 & H & _). apply lift_ok in Hi1.
  apply io_bind_ok in H as (? & [a2 i2] & ? & Hresample & H & _). apply lift_ok in H.
  rewrite intersect_dates_total in H. injection H as _ <-.
  rewrite located_labels.
  assert (Hl1 : labels i1 = labels (pd.to_frame s)) by exact (ffill_labels _ _ _ Hi1).
  assert (Hl2 : labels i2 = labels i1).
  { unfold io_ret in Hresample. destruct (negb _).
    - apply io_bind_ok in Hresample as (? & ? & ? & _ & Hresample & _).
      apply io_bind_ok in Hresample as (? & a' & ? & _ & Hresample & _).
      apply io_bind_ok in Hresample as (? & i' & ? & Hi' & Hresample & _). apply lift_ok in Hi'.
      injection Hresample as _ _ <-.
      exact (resample_if_needed_labels _ _ _ _ Hres Hi').
    - now injection Hresample as _ _ <-. }
  now rewrite Hl2, Hl1.
Qed.

Lemma main_save_writes env args asset_prices idx_prices asset_rets idx_rets log u :
  main_save env args asset_prices idx_prices asset_rets idx_rets = (log, Ok u) ->
  log = saved_files env args asset_prices idx_prices asset_rets idx_rets ++ wrote_lines args.
Proof. rewrite main_save_performs. apply perform_all_ok. Qed.

Lemma sample_resampler_labelled : resampler_labelled sample_env.
Proof.
  intros rule df df' H. simpl in H. unfold sample_resampler in H. injection H as <-.
  unfold labels, pd.select_rows. simpl. now rewrite map_map.
Qed.

(** C4 (amended for the asset returns of the pipeline, which may keep
    undefined cells): every dataset returned by [load_returns_from_csv] has
    its index returns and its asset returns on exactly the same ordered date
    axis and no undefined cell in either; the two return tables that [main]
    saves share exactly the same ordered date axis (of distinct dates), and
    the index returns among them have no undefined cell, when the source and
    the resampler deliver tables with distinct dates and the resampler keeps
    the columns. *)
Theorem aligned_dataset_invariant (env : Env) :
  (forall index_csv assets_csv date_col y X,
     load_returns_from_csv env index_csv assets_csv date_col = Ok (y, X) ->
     aligned_dataset y X) /\
  (source_dated env -> resampler_dated env -> resampler_labelled env ->
   forall args log, main env args = (log, Ok tt) ->
     exists asset_rets idx_rets,
       In (ToCsv (path_join (Args.outdir args) "returns_assets.csv") asset_rets "Date") log /\
       In (ToCsv (path_join (Args.outdir args) "returns_index.csv") idx_rets "Date") log /\
       index asset_rets = index idx_rets /\ NoDup (index asset_rets) /\
       fully_defined idx_rets).
Proof.
  split; [intros; eapply load_returns_aligned; eassumption|].
  intros Hsrc Hres Hlab args log H. unfold main in H.
  apply io_bind_ok in H as (l0 & [a i] & l1 & Hprices & H & ->).
  apply io_bind_ok in H as (l2 & [ra ri] & l3 & Hrets & Hsave & ->).
  destruct (main_prices_dated _ _ _ _ _ Hsrc Hres Hprices) as (Ha & Hi & _).
  destruct (main_returns_dated _ _ _ _ _ _ Ha Hi Hrets) as (Hra & _ & Heq).
  apply main_save_writes in Hsave as ->.
  exists ra, ri. repeat split.
  - apply in_or_app. right. apply in_or_app. right. simpl. tauto.
  - apply in_or_app. right. apply in_or_app. right. simpl. tauto.
  - exact Heq.
  - exact (proj2 Hra).
  - unfold main_returns in Hrets.
    apply io_bind_ok in Hrets as (? & ? & ? & _ & Hrets & _). apply lift_ok in Hrets.
    rewrite intersect_dates_total in Hrets. injection Hrets as _ <-.
    apply located_defined, to_simple_returns_single_column.
    exact (main_prices_index_column _ _ _ _ _ Hlab Hprices).
Qed.

Lemma aligned_dataset_invariant_witness :
  aligned_dataset (mkSeries "index_ret" [2] [0.25]%float)
                  (mkDataFrame [2] [("AAPL.US", [1]%float); ("MSFT.US", [5]%float)]) /\
  exists log asset_rets idx_rets,
    main sample_env (sample_args 1) = (log, Ok tt) /\
    In (ToCsv "data/returns_assets.csv" asset_rets "Date") log /\
    In (ToCsv "data/returns_index.csv" idx_rets "Date") log /\
    index asset_rets = index idx_rets /\ NoDup (index asset_rets) /\
    fully_defined idx_rets.
Proof.
  destruct (aligned_dataset_invariant sample_env) as [Hload Hmain].
  split.
  - apply (Hload "returns_index.csv" "returns_assets.csv" "Date"). reflexivity.
  - destruct (main sample_env (sample_args 1)) as [log [e|[]]] eqn:Hrun;
      [vm_compute in Hrun; discriminate|].
    destruct (Hmain sample_source_dated sample_resampler_dated sample_resampler_labelled
                (sample_args 1) log Hrun)
      as (ra & ri & H).
    exists log, ra, ri. split; [reflexivity|exact H].
Defined.

(** C4, as stated, fails for the pipeline: with an asset that starts a day
    late, the saved asset returns keep an undefined cell at the first row,
    where the other asset has a return. *)
Lemma main_keeps_undefined_cells :
  source_dated sample_env /\
  exists log asset_rets,
    main sample_env (sample_args 1) = (log, Ok tt) /\
    In (ToCsv "data/returns_assets.csv" asset_rets "Date") log /\
    asset_rets = mkDataFrame [2; 3]
                   [("AAPL.US", [50.5 / 50 - 1; 50 / 50.5 - 1]%float);
                    ("MSFT.US", [nan; 40 / 20 - 1]%float)] /\
    ~ fully_defined asset_rets.
Proof.
  split; [exact sample_source_dated|].
  eexists _, _. split; [vm_compute; reflexivity|].
  split; [do 5 right; left; reflexivity|]. split; [reflexivity|].
  intros Hdef. specialize (Hdef ("MSFT.US", [nan; 1]%float)).
  assert (Hbad : defined_column [nan; 1]%float) by (apply Hdef; right; left; reflexivity).
  inversion Hbad as [|v l Hnan _]. discriminate.
Qed.

(** ** Standardising *)

Lemma map_columns_compose f g df :
  map_columns g (map_columns f df) = map_columns (fun c => g (f c)) df.
Proof. unfold map_columns. simpl. now rewrite map_map. Qed.

(** Division by an undefined value is undefined. *)
Lemma div_by_nan (x : float) : isna (x / nan)%float = true.
Proof.
  apply isna_of_nan. rewrite FloatAxioms.div_spec.
  replace (Prim2SF nan) with S754_nan by reflexivity.
  destruct (Prim2SF x); reflexivity.
Qed.

Lemma std_undefined sum_values sum_squares c :
  (pd.count c <= 1)%nat -> pd.std sum_values sum_squares c = nan.
Proof.
  intros H. unfold pd.std, pd.var.
  destruct (Nat.leb_spec (pd.count c) 1); [reflexivity|lia].
Qed.

(** C6: the code misses a case of what the claim says.  On returns of a
    single day the standard deviation of every column is undefined;
    [replace(0.0, 1.0)] catches a standard deviation of zero but not an
    undefined one, the scaling divides by it, and the output is undefined in
    every cell where the input was defined, with and without demeaning. *)
Theorem standardise_returns_single_row_undefined :
  fully_defined one_day_assets /\
  snd (standardise_returns sample_env one_day_index one_day_assets true true)
  = mkDataFrame [2] [("AAPL.US", [nan]); ("MSFT.US", [nan])] /\
  snd (standardise_returns sample_env one_day_index one_day_assets false true)
  = mkDataFrame [2] [("AAPL.US", [nan]); ("MSFT.US", [nan])] /\
  ~ fully_defined (snd (standardise_returns sample_env one_day_index one_day_assets true true)).
Proof.
  split.
  { intros c [<-|[<-|[]]]; repeat constructor. }
  split; [reflexivity|]. split; [reflexivity|].
  intros Hdef. specialize (Hdef ("AAPL.US", [nan])).
  assert (Hbad : defined_column [nan]) by (apply Hdef; left; reflexivity).
  inversion Hbad as [|v l Hnan _]. discriminate.
Qed.

(** * Further properties *)

(** ** Gap filling *)

Lemma pad_loop_defined_id lim val fc i vs :
  defined_column vs -> pd.pad_loop lim val fc i vs = vs.
Proof.
  intros H. revert val fc i. induction H as [|v rest Hv _ IH]; intros val fc i; simpl;
    [reflexivity|].
  rewrite Hv. now rewrite IH.
Qed.

Lemma pad_1d_defined_id lim vs : defined_column vs -> pd.pad_1d lim vs = vs.
Proof.
  intros H. destruct vs as [|v rest]; [reflexivity|]. unfold pd.pad_1d.
  now apply pad_loop_defined_id.
Qed.

Lemma map_columns_id f df :
  (forall c, In c (columns df) -> f (snd c) = snd c) -> map_columns f df = df.
Proof.
  intros H. destruct df as [idx cols]. unfold map_columns. simpl in *. f_equal.
  rewrite <- (map_id cols) at 2. apply map_ext_in. intros [l c] Hc.
  pose proof (H (l, c) Hc) as Hf. simpl in *. now rewrite Hf.
Qed.

(** X1: a table without undefined cells comes back from
    [_forward_fill_limited] as it is, for every limit that the call accepts
    (at least 1 and below [2^31]). *)
Theorem forward_fill_limited_no_gaps (df : DataFrame) (g : Z) :
  1 <= g < 2 ^ 31 -> fully_defined df -> _forward_fill_limited df g = Ok df.
Proof.
  intros Hg Hdef. unfold _forward_fill_limited, pd.ffill.
  destruct (pd.size df =? 0)%nat; [reflexivity|].
  unfold pd.validate_limit. destruct (Z.ltb_spec g 1); [lia|].
  destruct (Z.leb_spec (2 ^ 31) g); [lia|]. cbn [rbind Ok].
  rewrite map_columns_id; [reflexivity|].
  intros c Hc. apply pad_1d_defined_id. now apply Hdef.
Qed.

Lemma steady_prices_defined : fully_defined steady_prices.
Proof. intros c [<-|[<-|[]]]; repeat constructor. Qed.

Lemma forward_fill_limited_no_gaps_witness :
  1 <= 3 < 2 ^ 31 /\ fully_defined steady_prices /\
  _forward_fill_limited steady_prices 3 = Ok steady_prices.
Proof.
  split; [lia|]. split; [exact steady_prices_defined|].
  apply (forward_fill_limited_no_gaps steady_prices 3); [lia|exact steady_prices_defined].
Defined.

(** Before any row of a column, either no cell is defined or there is a
    last defined one. *)
Lemma last_defined_or_none (c : list cell) (k : nat) :
  (k <= length c)%nat ->
  none_defined_before c k \/ exists j v, last_defined_before c k j v.
Proof.
  induction k as [|k IH]; intros Hk.
  - left. intros m Hm. lia.
  - destruct (lookup_lt_is_Some_2 c k) as [z Hz]; [lia|].
    destruct (isna z) eqn:Hna.
    + destruct IH as [Hnone|(j & v & Hjk & Hj & Hv & Hrun)]; [lia| |].
      * left. intros m Hm. destruct (Nat.eq_dec m k) as [->|]; [now exists z|].
        apply Hnone. lia.
      * right. exists j, v. repeat split; auto.
        intros m Hm. destruct (Nat.eq_dec m k) as [->|]; [now exists z|].
        apply Hrun. lia.
    + right. exists k, z. repeat split; auto. intros m Hm. lia.
Qed.

Lemma filled_upto_copied g c c' : filled_upto g c c' -> copied_within g c c'.
Proof.
  intros [_ Hfill] k x y Hx Hnax Hy Hnay.
  destruct (Hfill k x Hx) as [_ Hundef]. destruct (Hundef Hnax) as [Hlast Hnone].
  assert (Hk : (k <= length c)%nat).
  { apply lookup_lt_Some in Hx. lia. }
  destruct (last_defined_or_none c k Hk) as [Hno|(j & v & Hld)].
  - destruct (Hnone Hno) as (y' & Hy' & Hna'). congruence.
  - specialize (Hlast j v Hld). destruct Hld as (Hjk & Hj & Hv & Hrun).
    destruct (Z.leb_spec (Z.of_nat (k - j)) g) as [Hle|Hgt].
    + exists j. assert (y = v) by congruence. subst y. repeat split; auto.
      intros m Hm. destruct (Nat.eq_dec m k) as [->|]; [now exists x|apply Hrun; lia].
    + destruct Hlast as (y' & Hy' & Hna'). congruence.
Qed.

(** X2: [_forward_fill_limited] only copies values down a column: wherever
    the output holds a value at a cell that was undefined, that value stands
    in the same column at most [g] rows above, and every cell from there down
    to the filled one was undefined.  So it never fills a cell that has no
    defined cell above it, nor one more than [g] rows below the last defined
    cell. *)
Theorem forward_fill_limited_only_copies (df df' : DataFrame) (g : Z) :
  _forward_fill_limited df g = Ok df' -> columnwise (copied_within g) df df'.
Proof.
  unfold _forward_fill_limited, pd.ffill. intros H.
  destruct (pd.size df =? 0)%nat.
  - injection H as <-. apply columnwise_refl. intros c _ k x y Hx Hnax Hy Hnay.
    congruence.
  - unfold pd.validate_limit in H. destruct (Z.ltb_spec g 1); [discriminate|].
    destruct (2 ^ 31 <=? g); [discriminate|].
    cbn [rbind Ok] in H. injection H as <-. apply columnwise_map_columns. intros c _.
    apply filled_upto_copied. rewrite <- (Z2Nat.id g) at 1 by lia.
    apply pad_1d_filled. lia.
Qed.

Lemma forward_fill_limited_only_copies_witness :
  exists df', _forward_fill_limited gappy_prices 2 = Ok df' /\
              columnwise (copied_within 2) gappy_prices df'.
Proof.
  eexists. split; [reflexivity|].
  apply (forward_fill_limited_only_copies gappy_prices _ 2). reflexivity.
Defined.
(** ** Returns *)

Lemma existsb_none {A} (f : A -> bool) (l : list A) :
  (forall x, In x l -> f x = false) -> existsb f l = false.
Proof.
  induction l as [|x l IH]; intros H; simpl; [reflexivity|].
  rewrite (H x (or_introl eq_refl)). apply IH. intros y Hy. apply H. now right.
Qed.

Lemma compress_length_le {A} mask (l : list A) :
  (length (pd.compress mask l) <= length l)%nat.
Proof.
  revert l. induction mask as [|b mask IH]; intros [|x l]; simpl; try lia.
  specialize (IH l). destruct b; simpl; lia.
Qed.

Lemma compress_all {A} mask (l : list A) :
  List.Forall (fun b => b = true) mask -> length mask = length l ->
  pd.compress mask l = l.
Proof.
  intros H. revert l. induction H as [|b mask Hb _ IH]; intros [|x l] Hlen;
    try discriminate; simpl; [reflexivity|].
  subst b. f_equal. apply IH. now injection Hlen.
Qed.

(** The first return of a column is undefined: no price stands before it. *)
Lemma pct_change_col_head nobs vs :
  isna (nth 0 (pd.pct_change_col nobs vs) nan) = true.
Proof.
  unfold pd.pct_change_col, pd.shift.
  destruct (pd.pad_1d nobs vs) as [|d0 dr]; simpl; [reflexivity|apply return_from_nan].
Qed.

Lemma first_row_all_undefined df :
  existsb (fun c => notna (pd.cell_of_row 0 c)) (columns (pd.pct_change df)) = false.
Proof.
  apply existsb_none. intros c Hc. unfold pd.pct_change, map_columns in Hc. simpl in Hc.
  apply in_map_iff in Hc as (c0 & <- & _). unfold pd.cell_of_row, notna. simpl.
  now rewrite pct_change_col_head.
Qed.

Lemma to_simple_returns_drops_first_row_mask (prices : DataFrame) :
  exists mask,
    index (_to_simple_returns prices) = pd.compress mask (tl (index prices)) /\
    (length (index (_to_simple_returns prices)) <= pred (length (index prices)))%nat.
Proof.
  unfold _to_simple_returns, pd.dropna_rows_all, pd.select_rows, pd.notna_any, len.
  cbn [index]. change (index (pd.pct_change prices)) with (index prices).
  destruct (index prices) as [|d idx] eqn:Hidx.
  - exists []. split; reflexivity.
  - cbn [length seq map]. rewrite first_row_all_undefined. cbn [pd.compress tl].
    eexists. split; [reflexivity|]. simpl. apply compress_length_le.
Qed.

(** X3: [_to_simple_returns] always drops the first row: the dates of its
    output are selected among the dates after the first, in their order, so
    the output has at most one row less than the input has. *)
Theorem to_simple_returns_drops_first_row (prices : DataFrame) :
  exists mask,
    index (_to_simple_returns prices) = pd.compress mask (tl (index prices)) /\
    (len (_to_simple_returns prices) <= pred (len prices))%nat.
Proof. exact (to_simple_returns_drops_first_row_mask prices). Qed.

Lemma zip_cells_firstn f xs ys :
  pd.zip_cells f xs (firstn (length xs) ys) = pd.zip_cells f xs ys.
Proof.
  revert ys. induction xs as [|x xs IH]; intros [|y ys]; simpl; try reflexivity.
  now rewrite IH.
Qed.

Lemma zip_cells_length_le f xs ys :
  (length xs <= length ys)%nat -> length (pd.zip_cells f xs ys) = length xs.
Proof.
  revert ys. induction xs as [|x xs IH]; intros [|y ys] H; simpl in *; try reflexivity;
    try lia.
  rewrite IH; [reflexivity|lia].
Qed.

Lemma simple_returns_length vs : length (simple_returns vs) = pred (length vs).
Proof.
  unfold simple_returns. rewrite zip_cells_length_le; destruct vs; simpl; lia.
Qed.

(** On a column without undefined cells the percentage change is the
    undefined first cell followed by the simple returns. *)
Lemma pct_change_col_defined nobs v rest :
  defined_column (v :: rest) ->
  pd.pct_change_col nobs (v :: rest)
  = (v / nan - 1)%float :: simple_returns (v :: rest).
Proof.
  intros H. unfold pd.pct_change_col. rewrite (pad_1d_defined_id nobs _ H).
  unfold pd.shift, simple_returns. cbn [length firstn pd.zip_cells tl]. f_equal.
  apply zip_cells_firstn.
Qed.

(** X4: on a well-formed table with at least one column and no undefined
    price, whose simple returns are all defined, [_to_simple_returns] returns
    exactly the dates after the first and, in every column, the returns
    [P_t / P_{t-1} - 1] of consecutive rows. *)
Theorem to_simple_returns_defined_prices (prices : DataFrame) :
  well_formed prices -> columns prices <> [] -> fully_defined prices ->
  (forall c, In c (columns prices) -> defined_column (simple_returns (snd c))) ->
  _to_simple_returns prices
  = mkDataFrame (tl (index prices))
      (map (fun c => (fst c, simple_returns (snd c))) (columns prices)).
Proof.
  intros Hwf Hcols Hdef Hrets.
  assert (Hlen : forall c, In c (columns prices) -> length (snd c) = length (index prices))
    by exact (proj1 (List.Forall_forall _ _) Hwf).
  unfold _to_simple_returns, pd.dropna_rows_all, pd.select_rows, pd.notna_any, len.
  cbn [index]. change (index (pd.pct_change prices)) with (index prices).
  change (columns (pd.pct_change prices))
    with (map (fun c => (fst c, pd.pct_change_col (len prices) (snd c))) (columns prices)).
  destruct (index prices) as [|d idx] eqn:Hidx.
  - cbn [length seq map pd.compress tl]. f_equal. rewrite map_map. apply map_ext_in.
    intros c Hc. cbn [fst snd]. f_equal. specialize (Hlen c Hc).
    destruct (snd c); [reflexivity|discriminate].
  - cbn [length seq map].
    pose proof (first_row_all_undefined prices) as Hfirst.
    change (columns (pd.pct_change prices))
      with (map (fun c => (fst c, pd.pct_change_col (len prices) (snd c))) (columns prices))
      in Hfirst.
    rewrite Hfirst. cbn [pd.compress tl].
    set (mask := map _ (seq 1 (length idx))).
    assert (Hmask : List.Forall (fun b => b = true) mask).
    { assert (Hsome : exists c0, In c0 (columns prices)).
      { destruct (columns prices) as [|c0 cs]; [contradiction|]. exists c0. now left. }
      destruct Hsome as (c0 & Hin0).
      apply List.Forall_forall. intros b Hb. apply in_map_iff in Hb as (i & <- & Hi).
      apply in_seq in Hi. apply existsb_exists.
      exists (fst c0, pd.pct_change_col (len prices) (snd c0)).
      split; [apply in_map_iff; now exists c0|].
      pose proof (Hlen c0 Hin0) as Hl0. pose proof (Hdef c0 Hin0) as Hd0.
      pose proof (Hrets c0 Hin0) as Hr.
      destruct (snd c0) as [|v rest]; [discriminate|].
      unfold pd.cell_of_row, notna. cbn [fst snd].
      rewrite (pct_change_col_defined _ _ _ Hd0).
      destruct i as [|i]; [lia|]. cbn [nth].
      assert (Hi' : (i < length (simple_returns (v :: rest)))%nat).
      { rewrite simple_returns_length. simpl in *. lia. }
      apply negb_true_iff.
      exact (proj1 (List.Forall_forall _ _) Hr _ (nth_In _ nan Hi')). }
    assert (Hmlen : length mask = length idx)
      by (unfold mask; now rewrite length_map, length_seq).
    f_equal; [now apply compress_all|].
    rewrite map_map. apply map_ext_in. intros c Hc. cbn [fst snd]. f_equal.
    specialize (Hlen c Hc). pose proof (Hdef c Hc) as Hd.
    destruct (snd c) as [|v rest]; [discriminate|].
    rewrite (pct_change_col_defined _ _ _ Hd).
    cbn [pd.compress]. apply compress_all; [exact Hmask|].
    rewrite Hmlen, simple_returns_length. simpl in *. lia.
Qed.

Lemma to_simple_returns_defined_prices_witness :
  _to_simple_returns steady_prices
  = mkDataFrame [2; 3]
      [("SPY.US", [101 / 100 - 1; 99 / 101 - 1]%float);
       ("AAPL.US", [50.5 / 50 - 1; 50 / 50.5 - 1]%float)].
Proof.
  apply (to_simple_returns_defined_prices steady_prices).
  - repeat constructor.
  - discriminate.
  - exact steady_prices_defined.
  - intros c [<-|[<-|[]]]; repeat constructor.
Defined.
(** ** Alignment *)

Lemma cell_at_cons_ne h t v vs d :
  h <> d -> pd.cell_at (h :: t) (v :: vs) d = pd.cell_at t vs d.
Proof.
  intros Hne. unfold pd.cell_at, pd.rows_at. simpl.
  destruct (Z.eqb_spec h d); [contradiction|reflexivity].
Qed.

Lemma cell_at_cons_eq h t v vs : pd.cell_at (h :: t) (v :: vs) h = v.
Proof. unfold pd.cell_at, pd.rows_at. simpl. now rewrite Z.eqb_refl. Qed.

(** Reading a column back at its own distinct dates gives the column. *)
Lemma cell_at_own_dates idx vs :
  NoDup idx -> length vs = length idx -> map (pd.cell_at idx vs) idx = vs.
Proof.
  intros Hnd. revert vs. induction Hnd as [|h t Hnotin Hnd IH]; intros [|v vs] Hlen;
    try discriminate; [reflexivity|].
  cbn [map]. rewrite cell_at_cons_eq. f_equal.
  rewrite <- (IH vs) at 2 by (now injection Hlen).
  apply map_ext_in. intros d Hd. apply cell_at_cons_ne. intros ->.
  apply Hnotin, list_elem_of_In, Hd.
Qed.

Lemma restricted_to_own_dates df : dated df -> restricted_to (index df) df = df.
Proof.
  intros [Hwf Hnd]. destruct df as [idx cols]. unfold restricted_to. simpl in *. f_equal.
  rewrite <- (map_id cols) at 2. apply map_ext_in. intros [l c] Hc. simpl. f_equal.
  apply cell_at_own_dates; [assumption|].
  exact (proj1 (List.Forall_forall _ _) Hwf (l, c) Hc).
Qed.

(** X5: two tables that already stand on one and the same axis of distinct
    dates come back from [_intersect_dates] unchanged, whatever the order of
    the dates. *)
Theorem intersect_dates_aligned_unchanged (a b : DataFrame) :
  dated a -> dated b -> index a = index b -> _intersect_dates a b = Ok (a, b).
Proof.
  intros Ha Hb Heq.
  destruct (intersect_dates_common_axis_parts a b (proj1 Ha) (proj1 Hb) (proj2 Ha) (proj2 Hb))
    as [Hrun _].
  rewrite Hrun.
  assert (Hcommon : common_dates (index a) (index b) = index a).
  { unfold common_dates. apply filter_all. intros d Hd. apply contains_In. now rewrite <- Heq. }
  rewrite Hcommon, (restricted_to_own_dates a Ha).
  rewrite Heq, (restricted_to_own_dates b Hb). reflexivity.
Qed.

Lemma intersect_dates_aligned_unchanged_witness :
  dated gappy_prices /\ dated (pd.to_frame (mkSeries "SPY.US" [1; 2; 3; 4; 5; 6]
                                 [100; 101; 99; 98; 97; 96]%float)) /\
  _intersect_dates gappy_prices
    (pd.to_frame (mkSeries "SPY.US" [1; 2; 3; 4; 5; 6] [100; 101; 99; 98; 97; 96]%float))
  = Ok (gappy_prices,
        pd.to_frame (mkSeries "SPY.US" [1; 2; 3; 4; 5; 6] [100; 101; 99; 98; 97; 96]%float)).
Proof.
  assert (Hdistinct : NoDup [1; 2; 3; 4; 5; 6])
    by (apply NoDup_ListNoDup; repeat constructor; simpl; intuition discriminate).
  assert (Ha : dated gappy_prices) by (split; [repeat constructor|exact Hdistinct]).
  assert (Hb : dated (pd.to_frame (mkSeries "SPY.US" [1; 2; 3; 4; 5; 6]
                                    [100; 101; 99; 98; 97; 96]%float)))
    by (split; [repeat constructor|exact Hdistinct]).
  split; [exact Ha|]. split; [exact Hb|].
  apply (intersect_dates_aligned_unchanged _ _ Ha Hb). reflexivity.
Defined.

(** ** The price panel *)

Lemma fetch_each_app_fail env before sym after start end_ series e :
  fetch_each env before start end_ = Ok series ->
  _fetch_stooq env sym start end_ = Raise e ->
  fetch_each env (before ++ sym :: after) start end_ = Raise e.
Proof.
  revert series. induction before as [|b before IH]; intros series Hbefore Hsym; simpl.
  - now rewrite Hsym.
  - simpl in Hbefore. apply rbind_ok in Hbefore as (s & Hs & Hrest).
    apply rbind_ok in Hrest as (ss & Hss & _). rewrite Hs. simpl.
    now rewrite (IH ss Hss Hsym).
Qed.

(** X7: [_fetch_many] has no partial results: the first symbol whose fetch
    fails makes the whole panel fail with that error, whatever symbols
    follow; and without any symbol the panel fails with "No objects to
    concatenate". *)
Theorem fetch_many_fails_fast (env : Env) (start end_ : string) :
  _fetch_many env [] start end_ = Raise (ValueError NoObjectsToConcatenate) /\
  forall before sym after series e,
    fetch_each env before start end_ = Ok series ->
    _fetch_stooq env sym start end_ = Raise e ->
    _fetch_many env (before ++ sym :: after) start end_ = Raise e.
Proof.
  split; [reflexivity|].
  intros before sym after series e Hbefore Hsym. unfold _fetch_many.
  now rewrite (fetch_each_app_fail env before sym after start end_ series e Hbefore Hsym).
Qed.

Lemma fetch_many_fails_fast_witness :
  _fetch_many sample_env [] "2018-01-01" "2024-12-31"
    = Raise (ValueError NoObjectsToConcatenate) /\
  _fetch_many sample_env ["AAPL.US"; "NONE.US"; "MSFT.US"] "2018-01-01" "2024-12-31"
    = Raise (ValueError (NoDataReturned "NONE.US")).
Proof.
  destruct (fetch_many_fails_fast sample_env "2018-01-01" "2024-12-31") as [Hnone Hfirst].
  split; [exact Hnone|].
  apply (Hfirst ["AAPL.US"] "NONE.US" ["MSFT.US"]
           [mkSeries "AAPL.US" [1; 2; 3] [50; 50.5; 50]%float]); reflexivity.
Defined.

(** *** Looking up a date among entries with distinct dates *)

Lemma entries_absent {A} (L : list (date * A)) d :
  ~ In d (map fst L) -> map snd (List.filter (fun r => fst r =? d) L) = [].
Proof.
  induction L as [|[k w] L IH]; intros H; simpl; [reflexivity|].
  destruct (Z.eqb_spec k d) as [->|_]; [exfalso; apply H; now left|].
  apply IH. intros Hd. apply H. now right.
Qed.

Lemma entries_unique {A} (L : list (date * A)) d v :
  NoDup (map fst L) -> In (d, v) L ->
  map snd (List.filter (fun r => fst r =? d) L) = [v].
Proof.
  induction L as [|[k w] L IH]; intros Hnd Hin; [contradiction|].
  cbn [map fst] in Hnd. apply NoDup_cons in Hnd as [Hk Hnd]. rewrite list_elem_of_In in Hk.
  simpl. destruct Hin as [Heq|Hin].
  - injection Heq as -> ->. rewrite Z.eqb_refl. simpl. f_equal. now apply entries_absent.
  - destruct (Z.eqb_spec k d) as [->|_].
    + exfalso. apply Hk. apply in_map_iff. now exists (d, v).
    + now apply IH.
Qed.

Lemma entries_perm {A} (L L' : list (date * A)) d :
  NoDup (map fst L) -> Permutation L L' ->
  map snd (List.filter (fun r => fst r =? d) L')
  = map snd (List.filter (fun r => fst r =? d) L).
Proof.
  intros Hnd Hperm.
  assert (Hnd' : NoDup (map fst L')) by now rewrite <- Hperm.
  destruct (in_dec Z.eq_dec d (map fst L)) as [Hin|Hout].
  - apply in_map_iff in Hin as ([k v] & Hk & Hin). simpl in Hk. subst k.
    rewrite (entries_unique L d v Hnd Hin).
    apply (entries_unique L' d v Hnd'). exact (Permutation_in _ Hperm Hin).
  - rewrite (entries_absent L d Hout). apply entries_absent. intros Hin. apply Hout.
    apply (Permutation_in _ (Permutation_sym (Permutation_map fst Hperm)) Hin).
Qed.

(** Sorting a column with its index does not change what stands at a date. *)
Lemma cell_at_sorted idx vs d :
  NoDup idx -> length vs = length idx ->
  pd.cell_at (pd.sorted_values idx idx) (pd.sorted_values idx vs) d = pd.cell_at idx vs d.
Proof.
  intros Hnd Hlen. unfold pd.cell_at, pd.rows_at. rewrite (sorted_entries idx vs Hlen).
  rewrite (entries_perm (combine idx vs) (pd.sort_by_label (combine idx vs)) d);
    [reflexivity| |].
  - now rewrite (combine_self_fst idx vs Hlen).
  - symmetry. apply sort_by_label_perm.
Qed.

Lemma cell_at_absent idx vs d : ~ In d idx -> pd.cell_at idx vs d = nan.
Proof. intros H. unfold pd.cell_at. now rewrite (rows_at_absent idx vs d H). Qed.

Lemma cell_at_reindexed (f : date -> cell) idx d :
  NoDup idx -> In d idx -> pd.cell_at idx (map f idx) d = f d.
Proof.
  intros Hnd. induction Hnd as [|h t Hnotin Hnd IH]; intros Hd; [contradiction|].
  cbn [map]. destruct (Z.eq_dec h d) as [->|Hne]; [apply cell_at_cons_eq|].
  rewrite (cell_at_cons_ne h t _ _ d Hne). apply IH. destruct Hd; [contradiction|assumption].
Qed.

Lemma ascending_of_distinct idx : nondecreasing idx -> NoDup idx -> ascending idx.
Proof.
  intros Hs. apply Sorted_StronglySorted in Hs; [|intros x y z; apply Z.le_trans].
  induction Hs as [|h t Hs IH Hall]; intros Hnd; [constructor|].
  apply NoDup_cons in Hnd as [Hh Hnd]. rewrite list_elem_of_In in Hh.
  constructor; [now apply IH|].
  apply List.Forall_forall. intros x Hx.
  pose proof (proj1 (List.Forall_forall _ _) Hall x Hx) as Hle.
  destruct (Z.eq_dec h x) as [->|]; [contradiction|lia].
Qed.

Lemma Forall2_map_in {A B} (P : A -> B -> Prop) (f : A -> B) (l : list A) :
  (forall x, In x l -> P x (f x)) -> Forall2 P l (map f l).
Proof.
  induction l as [|x l IH]; intros H; simpl; constructor.
  - apply H. now left.
  - apply IH. intros y Hy. apply H. now right.
Qed.

Lemma columns_of_series (g : DataFrame -> string * list cell -> string * list cell) series :
  flat_map (fun x => map (g x) (columns x)) (map pd.to_frame series)
  = map (fun s => g (pd.to_frame s) (name s, values s)) series.
Proof. induction series as [|s series IH]; simpl; [reflexivity|]. now rewrite IH. Qed.

Lemma columns_of_frames series :
  flat_map columns (map pd.to_frame series) = map (fun s => (name s, values s)) series.
Proof. induction series as [|s series IH]; simpl; [reflexivity|]. now rewrite IH. Qed.

Lemma dates_of_series series :
  flat_map index (map pd.to_frame series) = flat_map s_index series.
Proof. induction series as [|s series IH]; simpl; [reflexivity|]. now rewrite IH. Qed.

(** The series side by side, before the rows are sorted. *)
Lemma concat_axis1_series_lays_out series joined :
  List.Forall (fun s => dated (pd.to_frame s)) series ->
  pd.concat_axis1 (map pd.to_frame series) = Ok joined ->
  dated joined /\
  (forall d, In d (index joined) <-> exists s, In s series /\ In d (s_index s)) /\
  Forall2 (lays_out (index joined)) series (columns joined).
Proof.
  intros Hall Hjoin.
  assert (Hdated : dated joined).
  { apply (concat_axis1_dated (map pd.to_frame series)); [|exact Hjoin].
    apply List.Forall_forall. intros x Hx. apply in_map_iff in Hx as (s & <- & Hs).
    exact (proj1 (List.Forall_forall _ _) Hall s Hs). }
  split; [exact Hdated|].
  assert (Hs_ok : forall s, In s series ->
            length (values s) = length (s_index s) /\ NoDup (s_index s)).
  { intros s Hs. destruct (proj1 (List.Forall_forall _ _) Hall s Hs) as [Hwf Hnd].
    split; [|exact Hnd]. now inversion Hwf. }
  unfold pd.concat_axis1 in Hjoin.
  destruct series as [|s0 rest]; [discriminate|]. cbn [map] in Hjoin.
  destruct (forallb _ (map pd.to_frame rest)) eqn:Hsame.
  - injection Hjoin as <-.
    change (pd.to_frame s0 :: map pd.to_frame rest) with (map pd.to_frame (s0 :: rest)).
    cbn [index columns]. rewrite columns_of_frames. cbn [index pd.to_frame].
    assert (Heq : forall s, In s (s0 :: rest) -> s_index s = s_index s0).
    { intros s [<-|Hs]; [reflexivity|]. rewrite forallb_forall in Hsame.
      apply (index_eqb_eq (s_index s) (s_index s0)).
      apply (Hsame (pd.to_frame s)). apply in_map_iff. now exists s. }
    split.
    + intros d. split.
      * intros Hd. exists s0. split; [now left|exact Hd].
      * intros (s & Hs & Hd). now rewrite <- (Heq s Hs).
    + apply (Forall2_map_in _ (fun s => (name s, values s)) (s0 :: rest)).
      intros s Hs. destruct (Hs_ok s Hs) as [Hlen Hnd].
      unfold lays_out. cbn [fst snd]. rewrite <- (Heq s Hs).
      repeat split; auto. intros d Hd. now rewrite cell_at_absent.
  - destruct (forallb _ (pd.to_frame s0 :: map pd.to_frame rest)); [|discriminate].
    injection Hjoin as <-.
    change (pd.to_frame s0 :: map pd.to_frame rest) with (map pd.to_frame (s0 :: rest)).
    cbn [index columns]. rewrite dates_of_series.
    set (new_index := pd.unique (flat_map s_index (s0 :: rest))).
    assert (Hnew : forall d, In d new_index <-> exists s, In s (s0 :: rest) /\ In d (s_index s)).
    { intros d. unfold new_index. rewrite unique_In, in_flat_map. reflexivity. }
    split; [exact Hnew|].
    rewrite (columns_of_series
               (fun x c => (fst c, pd.reindex (index x) (snd c) new_index))).
    apply (Forall2_map_in _
             (fun s => (fst (name s, values s),
                        pd.reindex (index (pd.to_frame s)) (snd (name s, values s))
                                   new_index))
             (s0 :: rest)).
    intros s Hs. destruct (Hs_ok s Hs) as [Hlen Hnd].
    unfold lays_out, pd.reindex. cbn [fst snd index pd.to_frame].
    repeat split.
    + apply length_map.
    + intros d Hd. apply cell_at_reindexed; [apply unique_distinct|].
      apply Hnew. now exists s.
    + intros d Hd. destruct (in_dec Z.eq_dec d new_index) as [Hin|Hout].
      * rewrite cell_at_reindexed; [|apply unique_distinct|exact Hin].
        now rewrite cell_at_absent.
      * now rewrite cell_at_absent.
Qed.

Lemma lays_out_sorted idx series cols :
  NoDup idx -> Forall2 (lays_out idx) series cols ->
  Forall2 (lays_out (pd.sorted_values idx idx)) series
          (map (fun c => (fst c, pd.sorted_values idx (snd c))) cols).
Proof.
  intros Hnd Hcols.
  induction Hcols as [|s c series' cols' (Hname & Hlen & Hhas & Hlacks) _ IH];
    cbn [map]; constructor; [|exact IH].
  unfold lays_out. cbn [fst snd]. split; [exact Hname|]. split.
  - now rewrite (sorted_values_length _ _ Hlen), (sorted_values_length _ _ eq_refl).
  - split; intros d Hd; rewrite (cell_at_sorted _ _ d Hnd Hlen); auto.
Qed.

(** X6: the panel that [_fetch_many] builds from sources with distinct dates
    is the outer join of the fetched series, sorted: its dates are exactly
    the dates that some series has, in strictly ascending order, and its
    columns are the series in order, each under its symbol with its value at
    every date it has and an undefined cell at every date it lacks. *)
Theorem fetch_many_outer_join (env : Env) (symbols : list string) (start end_ : string)
    (series : list Series) (prices : DataFrame) :
  source_dated env ->
  fetch_each env symbols start end_ = Ok series ->
  _fetch_many env symbols start end_ = Ok prices ->
  ascending (index prices) /\
  (forall d, In d (index prices) <-> exists s, In s series /\ In d (s_index s)) /\
  Forall2 (lays_out (index prices)) series (columns prices).
Proof.
  intros Hsrc Hseries Hmany. unfold _fetch_many in Hmany. rewrite Hseries in Hmany.
  apply rbind_ok in Hmany as (series' & Heq & Hmany). injection Heq as <-.
  apply rbind_ok in Hmany as (joined & Hjoined & Hmany). injection Hmany as <-.
  assert (Hall : List.Forall (fun s => dated (pd.to_frame s)) series).
  { pose proof (fetch_each_dated env symbols start end_ series Hsrc Hseries) as H.
    apply List.Forall_forall. intros s Hs.
    apply (proj1 (List.Forall_forall _ _) H). apply in_map_iff. now exists s. }
  destruct (concat_axis1_series_lays_out series joined Hall Hjoined)
    as ([Hwf Hnd] & Hdates & Hcols).
  cbn [index columns pd.sort_index]. split; [|split].
  - apply ascending_of_distinct; [apply sorted_values_nondecreasing|].
    now apply sorted_values_distinct.
  - intros d. rewrite <- Hdates. split; apply Permutation_in;
      [|symmetry]; apply sorted_values_perm.
  - now apply lays_out_sorted.
Qed.

Lemma fetch_many_outer_join_witness :
  exists series prices,
    fetch_each sample_env ["AAPL.US"; "MSFT.US"] "2018-01-01" "2024-12-31" = Ok series /\
    _fetch_many sample_env ["AAPL.US"; "MSFT.US"] "2018-01-01" "2024-12-31" = Ok prices /\
    prices = mkDataFrame [1; 2; 3]
               [("AAPL.US", [50; 50.5; 50]%float); ("MSFT.US", [nan; 20; 40]%float)] /\
    ascending (index prices) /\
    Forall2 (lays_out (index prices)) series (columns prices).
Proof.
  eexists _, _. split; [reflexivity|]. split; [reflexivity|]. split; [reflexivity|].
  destruct (fetch_many_outer_join sample_env ["AAPL.US"; "MSFT.US"] "2018-01-01" "2024-12-31"
              _ _ sample_source_dated eq_refl eq_refl) as (Hasc & _ & Hcols).
  split; [exact Hasc|exact Hcols].
Defined.

(** ** The run of [main] *)

Lemma io_bind_err {A B} (m : IO A) (k : A -> IO B) log e :
  io_bind m k = (log, Raise e) ->
  m = (log, Raise e) \/
  exists l1 a l2, m = (l1, Ok a) /\ k a = (l2, Raise e) /\ log = l1 ++ l2.
Proof.
  unfold io_bind. destruct m as [l1 [e'|a]].
  - intros H. injection H as <- <-. now left.
  - destruct (k a) as [l2 r] eqn:Hk. intros H. injection H as <- ->.
    right. exists l1, a, l2. auto.
Qed.

Lemma lift_err {A} (r : result A) log e : lift r = (log, Raise e) -> r = Raise e.
Proof. unfold lift. intros H. now injection H. Qed.

Lemma rbind_err {A B} (m : result A) (k : A -> result B) e :
  rbind m k = Raise e -> m = Raise e \/ exists a, m = Ok a /\ k a = Raise e.
Proof.
  destruct m as [e'|a]; simpl; intros H; [left|right; now exists a].
  injection H as ->. reflexivity.
Qed.

Lemma main_returns_writes_nothing args asset_prices idx_prices :
  writes_nothing (main_returns args asset_prices idx_prices).
Proof.
  unfold main_returns. apply writes_nothing_bind; [apply writes_nothing_lift|].
  intros _. apply writes_nothing_lift.
Qed.

Lemma perform_all_err env evs log e :
  perform_all env evs = (log, Raise e) ->
  exists ev rest, evs = log ++ ev :: rest /\ io_error env ev = Some e.
Proof.
  revert log. induction evs as [|ev rest IH]; intros log H; simpl in H; [discriminate|].
  apply io_bind_err in H as [H|(l1 & a & l2 & Hev & H & ->)].
  - apply perform_err in H as [-> H]. now exists ev, rest.
  - apply perform_ok in Hev as ->. destruct (IH l2 H) as (ev' & rest' & -> & Hfail).
    now exists ev', rest'.
Qed.

(** Of operations cut short, the files written are the first of the files. *)
Lemma written_prefix (files lines done : list event) ev rest :
  List.Forall (fun e => persists e = true) files ->
  List.Forall (fun e => persists e = false) lines ->
  files ++ lines = done ++ ev :: rest ->
  exists n, List.filter persists done = firstn n files.
Proof.
  intros Hfiles Hlines. revert done.
  induction Hfiles as [|f fs Hf _ IH]; intros done Heq.
  - exists 0%nat. simpl in *. rewrite Heq in Hlines. apply List.Forall_app in Hlines as [Hdone _].
    apply filter_none. exact (proj1 (List.Forall_forall _ _) Hdone).
  - destruct done as [|d done]; [now exists 0%nat|].
    simpl in Heq. injection Heq as <- Heq. destruct (IH done Heq) as (n & Hn).
    exists (S n). simpl. now rewrite Hf, Hn.
Qed.

Lemma saved_files_persist env args asset_prices idx_prices asset_rets idx_rets :
  List.Forall (fun e => persists e = true)
    (saved_files env args asset_prices idx_prices asset_rets idx_rets).
Proof. repeat constructor. Qed.

Lemma wrote_lines_quiet args : List.Forall (fun e => persists e = false) (wrote_lines args).
Proof. repeat constructor. Qed.

Lemma filter_quiet log :
  List.Forall (fun e => persists e = false) log -> List.filter persists log = [].
Proof.
  intros H. apply filter_none. exact (proj1 (List.Forall_forall _ _) H).
Qed.

(** X8: a run of the program that fails has completed no write of an
    output file, unless it fails in the course of the saving, on an
    operation that the console or the file system refuses; the writes
    completed are then the first of the five files, in their order, and no
    other. *)
Theorem main_failure_writes_prefix (env : Env) (log : list event) (e : exn) :
  run_main env = (log, Raise e) ->
  List.Forall (fun ev => persists ev = false) log \/
  exists args asset_prices idx_prices asset_rets idx_rets log0 n ev,
    parse_args env = Ok args /\
    main_prices env args = (log0, Ok (asset_prices, idx_prices)) /\
    _intersect_dates (_to_simple_returns asset_prices) (_to_simple_returns idx_prices)
    = Ok (asset_rets, idx_rets) /\
    List.filter persists log
    = firstn n (saved_files env args asset_prices idx_prices asset_rets idx_rets) /\
    io_error env ev = Some e.
Proof.
  intros H. unfold run_main in H.
  apply io_bind_err in H as [H|(l & args & l' & Hargs & H & ->)].
  { left. unfold lift in H. injection H as <- _. constructor. }
  unfold lift in Hargs. injection Hargs as <- Hargs. cbn [app]. unfold main in H.
  apply io_bind_err in H as [H|(l1 & [a i] & l2 & Hprices & H & ->)].
  { left. pose proof (main_prices_writes_nothing env args) as Hq. now rewrite H in Hq. }
  pose proof (main_prices_writes_nothing env args) as Hq. rewrite Hprices in Hq.
  unfold writes_nothing in Hq. cbn [fst] in Hq.
  apply io_bind_err in H as [H|(l3 & [ra ri] & l4 & Hrets & H & ->)].
  { left. apply List.Forall_app. split; [exact Hq|].
    pose proof (main_returns_writes_nothing args a i) as Hq'. now rewrite H in Hq'. }
  pose proof (main_returns_writes_nothing args a i) as Hq2. rewrite Hrets in Hq2.
  unfold writes_nothing in Hq2. cbn [fst] in Hq2.
  unfold main_returns in Hrets.
  apply io_bind_ok in Hrets as (? & ? & ? & _ & Hrets & _). apply lift_ok in Hrets.
  rewrite main_save_performs in H.
  apply perform_all_err in H as (ev & rest & Hcut & Hfail).
  destruct (written_prefix _ _ l4 ev rest (saved_files_persist env args a i ra ri)
              (wrote_lines_quiet args) Hcut) as (n & Hn).
  right. exists args, a, i, ra, ri, l1, n, ev.
  split; [exact Hargs|]. split; [exact Hprices|]. split; [exact Hrets|].
  split; [|exact Hfail].
  now rewrite !List.filter_app, (filter_quiet l1 Hq), (filter_quiet l3 Hq2).
Qed.

Lemma main_failure_writes_prefix_witness :
  (exists log,
     run_main sample_env = (log, Raise (ValueError (TooFewObservations 3 250))) /\
     List.filter persists log = []) /\
  (exists log asset_prices idx_prices,
     run_main full_disk_env = (log, Raise (OSError 28)) /\
     List.filter persists log
     = [ToCsv "data/prices_assets.csv" asset_prices "Date";
        ToCsv "data/prices_index.csv" idx_prices "Date"]).
Proof.
  split.
  - destruct (run_main sample_env) as [log r] eqn:Hrun.
    assert (Hr : r = Raise (ValueError (TooFewObservations 3 250)))
      by (vm_compute in Hrun; now injection Hrun as _ <-).
    subst r. exists log. split; [reflexivity|].
    destruct (main_failure_writes_prefix sample_env log _ Hrun)
      as [Hquiet|(? & ? & ? & ? & ? & ? & ? & ev & _ & _ & _ & _ & Hfail)];
      [now apply filter_quiet|discriminate Hfail].
  - destruct (run_main full_disk_env) as [log r] eqn:Hrun.
    assert (Hr : r = Raise (OSError 28))
      by (vm_compute in Hrun; now injection Hrun as _ <-).
    subst r.
    destruct (main_failure_writes_prefix full_disk_env log _ Hrun)
      as [Hquiet|(args & a & i & ra & ri & l0 & n & ev & _ & _ & _ & Hn & _)].
    + exfalso. vm_compute in Hrun. injection Hrun as <-.
      apply List.Forall_forall with (x := ToCsv "data/prices_assets.csv"
        (mkDataFrame [1; 2; 3]
           [("AAPL.US", [50; 50.5; 50]%float); ("MSFT.US", [nan; 20; 40]%float)]) "Date")
        in Hquiet; [discriminate|].
      do 3 right. left. reflexivity.
    + eexists log, _, _. split; [reflexivity|].
      vm_compute in Hrun. injection Hrun as <-. reflexivity.
Defined.

(** X9: a run of [main] that succeeds writes exactly five files, in this
    order: the asset prices, the index prices, the asset returns and the
    index returns, each a CSV with the index labelled "Date", then the
    metadata, whose observation count is the number of rows of the saved
    asset returns and whose frequency is the upper-cased tag.  The saved
    prices are the aligned prices, and they passed the sanity check. *)
Theorem main_success_writes_five_files (env : Env) (args : Args.t) (log : list event) :
  main env args = (log, Ok tt) ->
  exists asset_prices idx_prices asset_rets idx_rets log0,
    main_prices env args = (log0, Ok (asset_prices, idx_prices)) /\
    Args.min_days args <= Z.of_nat (len asset_prices) /\
    _intersect_dates (_to_simple_returns asset_prices) (_to_simple_returns idx_prices)
    = Ok (asset_rets, idx_rets) /\
    List.filter persists log
    = saved_files env args asset_prices idx_prices asset_rets idx_rets.
Proof.
  intros H. unfold main in H.
  apply io_bind_ok in H as (l0 & [a i] & l1 & Hprices & H & ->).
  apply io_bind_ok in H as (l2 & [ra ri] & l3 & Hrets & Hsave & ->).
  exists a, i, ra, ri, l0. split; [exact Hprices|].
  pose proof (main_returns_writes_nothing args a i) as Hq2. rewrite Hrets in Hq2.
  unfold main_returns in Hrets.
  apply io_bind_ok in Hrets as (? & [] & ? & Hcheck & Hrets & _).
  apply lift_ok in Hcheck. apply lift_ok in Hrets.
  split.
  { unfold sanity_check in Hcheck.
    destruct (Z.ltb_spec (Z.of_nat (len a)) (Args.min_days args)); [discriminate|lia]. }
  split; [exact Hrets|].
  apply main_save_writes in Hsave as ->.
  pose proof (main_prices_writes_nothing env args) as Hq0. rewrite Hprices in Hq0.
  rewrite !List.filter_app, (filter_quiet l0 Hq0), (filter_quiet l2 Hq2).
  rewrite (filter_quiet _ (wrote_lines_quiet args)), app_nil_r.
  apply filter_all. intros ev Hev.
  exact (proj1 (List.Forall_forall _ _) (saved_files_persist env args a i ra ri) ev Hev).
Qed.

Lemma main_success_writes_five_files_witness :
  exists log asset_prices idx_prices asset_rets idx_rets,
    main sample_env (sample_args 3) = (log, Ok tt) /\
    List.filter persists log
    = saved_files sample_env (sample_args 3) asset_prices idx_prices asset_rets idx_rets /\
    len asset_rets = 2%nat.
Proof.
  destruct (main sample_env (sample_args 3)) as [log [e|[]]] eqn:Hrun;
    [vm_compute in Hrun; discriminate|].
  destruct (main_success_writes_five_files sample_env (sample_args 3) log Hrun)
    as (a & i & ra & ri & l0 & Hprices & _ & Hrets & Hfiles).
  exists log, a, i, ra, ri. split; [reflexivity|]. split; [exact Hfiles|].
  vm_compute in Hprices. injection Hprices as _ <- <-.
  vm_compute in Hrets. injection Hrets as <- _. reflexivity.
Defined.

(** *** The ways the program fails *)

Lemma getitem_price_column_err df e :
  pd.getitem df (price_column df) = Raise e -> e = KeyError (KStr "Close").
Proof.
  destruct (selected_or_not df) as [(label & Hsel)|Hno].
  - rewrite (price_column_selected df label Hsel).
    assert (Hhas : pd.has_column df label = true).
    { destruct Hsel as [(H1 & ->)|[(H1 & H2 & ->)|(H1 & H2 & H3 & ->)]]; assumption. }
    destruct (getitem_present df label Hhas) as (col & _ & Hget). rewrite Hget.
    discriminate.
  - destruct (price_column_default df Hno) as [-> Hhas].
    rewrite (getitem_absent df "Close" Hhas). intros H. injection H as <-. reflexivity.
Qed.

Lemma fetch_stooq_err env symbol start end_ e :
  _fetch_stooq env symbol start end_ = Raise e ->
  DataReader env symbol "stooq" start end_ = Raise e \/
  e = ValueError (NoDataReturned symbol) \/
  e = KeyError (KStr "Close").
Proof.
  unfold _fetch_stooq. intros H.
  apply rbind_err in H as [H|(df & Hdf & H)]; [now left|]. right.
  destruct (pd.empty df).
  - left. injection H as <-. reflexivity.
  - right. apply rbind_err in H as [H|(column & _ & H)]; [|discriminate].
    exact (getitem_price_column_err df e H).
Qed.

Lemma fetch_each_err env symbols start end_ e :
  fetch_each env symbols start end_ = Raise e ->
  exists symbol, In symbol symbols /\ _fetch_stooq env symbol start end_ = Raise e.
Proof.
  induction symbols as [|sym rest IH]; simpl; intros H; [discriminate|].
  apply rbind_err in H as [H|(s & _ & H)]; [exists sym; split; [now left|exact H]|].
  apply rbind_err in H as [H|(ss & _ & H)]; [|discriminate].
  destruct (IH H) as (symbol & Hin & Hfail). exists symbol. split; [now right|exact Hfail].
Qed.

Lemma fetch_many_err env symbols start end_ e :
  _fetch_many env symbols start end_ = Raise e ->
  (exists symbol, In symbol symbols /\ _fetch_stooq env symbol start end_ = Raise e) \/
  (exists series, fetch_each env symbols start end_ = Ok series /\
                  pd.concat_axis1 (map pd.to_frame series) = Raise e).
Proof.
  unfold _fetch_many. intros H.
  apply rbind_err in H as [H|(series & Hseries & H)];
    [left; now apply fetch_each_err|]. right.
  apply rbind_err in H as [H|(joined & _ & H)]; [|discriminate].
  now exists series.
Qed.

(** With the limit 3 that [main] passes, gap filling cannot fail. *)
Lemma forward_fill_limited_positive df g e :
  1 <= g < 2 ^ 31 -> _forward_fill_limited df g = Raise e -> False.
Proof.
  intros Hg. unfold _forward_fill_limited, pd.ffill.
  destruct (pd.size df =? 0)%nat; [discriminate|].
  unfold pd.validate_limit. destruct (Z.ltb_spec g 1); [lia|].
  destruct (Z.leb_spec (2 ^ 31) g); [lia|discriminate].
Qed.

(** On the tags that the parser admits, [_resample_if_needed] fails only
    when the resampling does. *)
Lemma resample_if_needed_err env df freq e :
  In freq ["D"; "W"; "M"] -> _resample_if_needed env df freq = Raise e ->
  exists rule, In (freq, rule) [("W", "W-FRI"); ("M", "M")] /\
               resample_last env rule df = Raise e.
Proof.
  intros [<-|[<-|[<-|[]]]]; unfold _resample_if_needed; cbn; intros H.
  - discriminate.
  - exists "W-FRI". split; [now left|exact H].
  - exists "M". split; [right; now left|exact H].
Qed.

(** The tags and the tickers that the declared parser lets through. *)
Lemma parsed_freq_tickers env args :
  parsed_as_declared env -> parse_args env = Ok args ->
  In (Args.freq args) ["D"; "W"; "M"] /\ Args.tickers args <> [].
Proof.
  unfold parsed_as_declared. intros H Hargs. rewrite Hargs in H. destruct H as [Hfreq Hplus].
  split.
  - destruct (Hfreq (mkArgument "--freq" false None false (Some (VStr "D"))
                       (Some ["D"; "W"; "M"])) ["D"; "W"; "M"]) as [H|H];
      [do 4 right; left; reflexivity|reflexivity|reflexivity|exact H|].
    injection H as <-. now left.
  - apply (Hplus (mkArgument "--tickers" true (Some "+") false None None));
      [right; left; reflexivity|reflexivity|reflexivity].
Qed.

Lemma sample_parsed_as_declared (args : Args.t) reader csv failures :
  In (Args.freq args) ["D"; "W"; "M"] -> Args.tickers args <> [] ->
  parsed_as_declared (env_around (Ok args) reader csv failures).
Proof.
  intros Hfreq Htickers. split.
  - intros a cs [<-|[<-|[<-|[<-|[<-|[<-|[<-|[]]]]]]]]; simpl; intros Hname Hcs;
      try discriminate. injection Hcs as <-. now left.
  - intros a _ _ _. exact Htickers.
Qed.

(** X10: with the command line parsed as the parser is declared, the
    program fails in these ways only: argparse ends it with [SystemExit]; an
    operation on the console or the file system fails; the fetch of the
    index or of one of the assets fails (the source fails, returns an empty
    table, or a table without a price field); the fetched series cannot be
    put side by side; the resampling fails; or the aligned prices are too
    few.  Gap filling with the limit 3, the alignment and the return
    computation never fail, and no run fails on the frequency tag: the
    [KeyError] of [_resample_if_needed] is out of reach of the tags that the
    parser admits. *)
Theorem main_fails_only_as (env : Env) (log : list event) (e : exn) :
  parsed_as_declared env -> run_main env = (log, Raise e) -> main_error env e.
Proof.
  intros Hparsed H. unfold run_main in H.
  apply io_bind_err in H as [H|(l & args & l' & Hargs & H & _)].
  { apply lift_err in H. unfold parsed_as_declared in Hparsed. rewrite H in Hparsed.
    destruct Hparsed as (code & ->). left. now exists code. }
  apply lift_ok in Hargs.
  destruct (parsed_freq_tickers env args Hparsed Hargs) as [Hfreq Htickers].
  right. exists args. split; [exact Hargs|].
  assert (Hop : forall ev done, perform env ev = (done, Raise e) ->
                  exists ev', io_error env ev' = Some e).
  { intros ev done Hev. apply perform_err in Hev as [_ Hev]. now exists ev. }
  unfold main in H.
  apply io_bind_err in H as [H|(l1 & [a i] & l2 & _ & H & _)].
  - unfold main_prices in H.
    apply io_bind_err in H as [H|(? & ? & ? & _ & H & _)]; [left; exact (Hop _ _ H)|].
    apply io_bind_err in H as [H|(? & ? & ? & _ & H & _)]; [left; exact (Hop _ _ H)|].
    apply io_bind_err in H as [H|(? & s & ? & _ & H & _)].
    { apply lift_err, fetch_stooq_err in H. right. left. exists (Args.index args).
      split; [now left|exact H]. }
    apply io_bind_err in H as [H|(? & ? & ? & _ & H & _)]; [left; exact (Hop _ _ H)|].
    apply io_bind_err in H as [H|(? & a0 & ? & _ & H & _)].
    { apply lift_err, fetch_many_err in H as [(symbol & Hin & H)|H].
      - right. left. exists symbol. split; [now right|]. now apply fetch_stooq_err.
      - right. right. now left. }
    apply io_bind_err in H as [H|(? & a1 & ? & _ & H & _)].
    { apply lift_err in H. exfalso.
      eapply (forward_fill_limited_positive _ 3 e); [lia|exact H]. }
    apply io_bind_err in H as [H|(? & i1 & ? & _ & H & _)].
    { apply lift_err in H. exfalso.
      eapply (forward_fill_limited_positive _ 3 e); [lia|exact H]. }
    apply io_bind_err in H as [H|(? & [a2 i2] & ? & _ & H & _)].
    + destruct (negb _); [|discriminate].
      apply io_bind_err in H as [H|(? & ? & ? & _ & H & _)]; [left; exact (Hop _ _ H)|].
      do 3 right. left.
      apply io_bind_err in H as [H|(? & ? & ? & _ & H & _)].
      { apply lift_err in H.
        destruct (resample_if_needed_err env a1 _ e Hfreq H) as (rule & Hrule & Hfail).
        now exists rule, a1. }
      apply io_bind_err in H as [H|(? & ? & ? & _ & H & _)]; [|discriminate].
      apply lift_err in H.
      destruct (resample_if_needed_err env i1 _ e Hfreq H) as (rule & Hrule & Hfail).
      now exists rule, i1.
    + apply lift_err in H. rewrite intersect_dates_total in H. discriminate.
  - apply io_bind_err in H as [H|(l3 & [ra ri] & l4 & _ & H & _)].
    + unfold main_returns in H.
      apply io_bind_err in H as [H|(? & ? & ? & _ & H & _)].
      * apply lift_err in H. unfold sanity_check in H.
        destruct (Z.ltb_spec (Z.of_nat (len a)) (Args.min_days args)); [|discriminate].
        injection H as <-. do 4 right. exists (Z.of_nat (len a)). now split.
      * apply lift_err in H. rewrite intersect_dates_total in H. discriminate.
    + rewrite main_save_performs in H.
      apply perform_all_err in H as (ev & rest & _ & Hfail). left. now exists ev.
Qed.

Lemma main_fails_only_as_witness :
  parsed_as_declared sample_env /\
  main_error sample_env (ValueError (TooFewObservations 3 250)) /\
  main_error full_disk_env (OSError 28) /\
  main_error bad_command_line_env (SystemExit 2).
Proof.
  assert (H1 : parsed_as_declared sample_env)
    by (apply sample_parsed_as_declared; [left; reflexivity|discriminate]).
  assert (H2 : parsed_as_declared full_disk_env)
    by (apply sample_parsed_as_declared; [left; reflexivity|discriminate]).
  assert (H3 : parsed_as_declared bad_command_line_env) by (now exists 2).
  split; [exact H1|]. split; [|split].
  - destruct (run_main sample_env) as [log r] eqn:Hrun.
    assert (Hr : r = Raise (ValueError (TooFewObservations 3 250)))
      by (vm_compute in Hrun; now injection Hrun as _ <-).
    subst r. exact (main_fails_only_as sample_env log _ H1 Hrun).
  - destruct (run_main full_disk_env) as [log r] eqn:Hrun.
    assert (Hr : r = Raise (OSError 28))
      by (vm_compute in Hrun; now injection Hrun as _ <-).
    subst r. exact (main_fails_only_as full_disk_env log _ H2 Hrun).
  - apply (main_fails_only_as bad_command_line_env [] _ H3). reflexivity.
Defined.

(** ** The operations of a run *)

Lemma performs_perform env ev : performs [ev] (perform env ev).
Proof.
  unfold performs, perform. destruct (io_error env ev); simpl; [now exists [ev]|reflexivity].
Qed.

Lemma performs_lift {A} (r : result A) : performs [] (lift r).
Proof. unfold performs, lift. destruct r; simpl; [now exists []|reflexivity]. Qed.

Lemma performs_ret {A} (a : A) : performs [] (io_ret a).
Proof. reflexivity. Qed.

Lemma performs_bind {A B} (m : IO A) (k : A -> IO B) evs1 evs2 :
  performs evs1 m -> (forall a, performs evs2 (k a)) ->
  performs (evs1 ++ evs2) (io_bind m k).
Proof.
  unfold performs, io_bind. intros Hm Hk. destruct m as [l1 [e|a]]; simpl in *.
  - destruct Hm as (rest & ->). exists (rest ++ evs2). now rewrite app_assoc.
  - subst l1. specialize (Hk a). destruct (k a) as [l2 [e|b]]; simpl in *.
    + destruct Hk as (rest & ->). exists rest. now rewrite app_assoc.
    + now subst l2.
Qed.

Lemma main_prices_performs env args :
  performs (price_operations env args) (main_prices env args).
Proof.
  unfold main_prices, price_operations.
  apply (performs_bind _ _ [_] _ (performs_perform env _)). intros _.
  apply (performs_bind _ _ [_] _ (performs_perform env _)). intros _.
  apply (performs_bind _ _ [] _ (performs_lift _)). intros s.
  apply (performs_bind _ _ [_] _ (performs_perform env _)). intros _.
  apply (performs_bind _ _ [] _ (performs_lift _)). intros a0.
  apply (performs_bind _ _ [] _ (performs_lift _)). intros a1.
  apply (performs_bind _ _ [] _ (performs_lift _)). intros i1.
  rewrite <- (app_nil_r (if negb _ then _ else _)).
  apply performs_bind; [|intros [a2 i2]; apply performs_lift].
  destruct (negb _); [|apply performs_ret].
  apply (performs_bind _ _ [_] [] (performs_perform env _)). intros _.
  apply (performs_bind _ _ [] [] (performs_lift _)). intros a'.
  apply (performs_bind _ _ [] [] (performs_lift _)). intros i'.
  apply performs_ret.
Qed.

Lemma perform_all_performs env evs : performs evs (perform_all env evs).
Proof.
  induction evs as [|ev rest IH]; [reflexivity|].
  exact (performs_bind _ _ [ev] rest (performs_perform env ev) (fun _ => IH)).
Qed.

Lemma append_cancel (a b c : string) : (a ++ b = a ++ c)%string -> b = c.
Proof.
  induction a as [|ch a IH]; simpl; intros H; [exact H|]. injection H as H. now apply IH.
Qed.

Lemma path_join_inj (a b c : string) : path_join a b = path_join a c -> b = c.
Proof.
  unfold path_join. destruct (get _ a) as [ch|]; [|trivial].
  destruct (Ascii.eqb ch "/"); intros H; apply append_cancel in H; [exact H|].
  now injection H.
Qed.

Ltac distinct_events :=
  repeat match goal with
  | H : _ \/ _ |- _ => destruct H as [H|H]
  | H : False |- _ => contradiction
  | H : Print _ = Print _ |- _ => injection H as H
  | H : ToCsv _ _ _ = ToCsv _ _ _ |- _ => injection H as H _
  | H : (String _ _ ++ _)%string = _ |- _ => simpl in H
  | H : _ = (String _ _ ++ _)%string |- _ => simpl in H
  | H : String _ _ = String _ _ |- _ => first [discriminate H | injection H as H]
  | H : path_join _ _ = path_join _ _ |- _ => apply path_join_inj in H
  | H : _ = _ |- _ => discriminate H
  end.

Lemma operations_distinct env args asset_prices idx_prices asset_rets idx_rets :
  List.NoDup (price_operations env args
              ++ saved_files env args asset_prices idx_prices asset_rets idx_rets
              ++ wrote_lines args).
Proof.
  unfold price_operations, saved_files, wrote_lines.
  destruct (negb _); cbn [app];
    repeat (constructor; [intros Hin; cbn [In] in Hin; distinct_events|]);
    constructor.
Qed.

Lemma distinct_prefix {A} (l rest : list A) : List.NoDup (l ++ rest) -> NoDup l.
Proof. intros H. apply NoDup_ListNoDup in H. now apply NoDup_app in H as [H _]. Qed.

(** X16: no run of the program performs the same operation on the console
    or the file system twice: the operations it completes are pairwise
    distinct events (the lines differ, and so do the paths of the files). *)
Theorem main_operations_distinct (env : Env) (log : list event) (r : result unit) :
  run_main env = (log, r) -> NoDup log.
Proof.
  unfold run_main, io_bind, lift. destruct (parse_args env) as [e|args].
  { intros H. injection H as <- _. constructor. }
  cbn [app]. destruct (main env args) as [l r'] eqn:Hmain. intros H. injection H as <- _.
  unfold main, io_bind in Hmain.
  pose proof (main_prices_performs env args) as Hp. unfold performs in Hp.
  destruct (main_prices env args) as [l0 [e|[a i]]]; cbn [fst snd] in Hp.
  { injection Hmain as <- _. destruct Hp as (rest & Hp).
    pose proof (operations_distinct env args (mkDataFrame [] []) (mkDataFrame [] [])
                  (mkDataFrame [] []) (mkDataFrame [] [])) as Hd.
    rewrite Hp, <- app_assoc in Hd. exact (distinct_prefix _ _ Hd). }
  subst l0. unfold main_returns, io_bind, lift in Hmain.
  destruct (sanity_check args a) as [e|[]].
  { injection Hmain as <- _. rewrite app_nil_r.
    exact (distinct_prefix _ _ (operations_distinct env args a i a i)). }
  cbn [app] in Hmain. rewrite intersect_dates_total in Hmain.
  unfold Ok in Hmain. cbv beta iota in Hmain.
  rewrite main_save_performs in Hmain.
  pose proof (perform_all_performs env
                (saved_files env args a i
                   (pd.located (pd.intersection (index (_to_simple_returns a))
                                                (index (_to_simple_returns i)))
                               (_to_simple_returns a))
                   (pd.located (pd.intersection (index (_to_simple_returns a))
                                                (index (_to_simple_returns i)))
                               (_to_simple_returns i))
                 ++ wrote_lines args)) as Hs.
  unfold performs in Hs.
  destruct (perform_all env _) as [l4 [e|u]]; cbn [fst snd] in Hs;
    injection Hmain as <- _.
  - destruct Hs as (rest & Hs).
    pose proof (operations_distinct env args a i
                  (pd.located (pd.intersection (index (_to_simple_returns a))
                                               (index (_to_simple_returns i)))
                              (_to_simple_returns a))
                  (pd.located (pd.intersection (index (_to_simple_returns a))
                                               (index (_to_simple_returns i)))
                              (_to_simple_returns i))) as Hd.
    rewrite Hs, app_assoc in Hd. exact (distinct_prefix _ _ Hd).
  - subst l4. apply NoDup_ListNoDup. apply operations_distinct.
Qed.

Lemma main_operations_distinct_witness :
  exists log, run_main full_disk_env = (log, Raise (OSError 28)) /\ NoDup log /\
              length log = 5%nat.
Proof.
  destruct (run_main full_disk_env) as [log r] eqn:Hrun.
  pose proof (main_operations_distinct full_disk_env log r Hrun) as Hd.
  vm_compute in Hrun. injection Hrun as <- <-.
  eexists. split; [reflexivity|]. split; [exact Hd|reflexivity].
Defined.

Lemma filter_length_le {A} (f : A -> bool) (l : list A) :
  (length (List.filter f l) <= length l)%nat.
Proof. induction l as [|x l IH]; simpl; [lia|]. destruct (f x); simpl; lia. Qed.

(** X11: in a run on sources with distinct dates, the aligned asset and
    index prices stand on the same dates, and the aligned returns stand on
    dates of the prices after the first one: there is at least one return
    row less than there are price rows, so a run that passes the sanity
    check with exactly [--min-days] prices saves fewer returns than that. *)
Theorem main_returns_lose_first_date (env : Env) (args : Args.t) (log0 : list event)
    (asset_prices idx_prices asset_rets idx_rets : DataFrame) :
  source_dated env -> resampler_dated env ->
  main_prices env args = (log0, Ok (asset_prices, idx_prices)) ->
  _intersect_dates (_to_simple_returns asset_prices) (_to_simple_returns idx_prices)
  = Ok (asset_rets, idx_rets) ->
  index asset_prices = index idx_prices /\
  index asset_rets = index idx_rets /\
  (forall d, In d (index asset_rets) -> In d (tl (index asset_prices))) /\
  (len asset_rets <= pred (len asset_prices))%nat.
Proof.
  intros Hsrc Hres Hprices Hrets.
  destruct (main_prices_dated _ _ _ _ _ Hsrc Hres Hprices) as (Ha & Hi & Heq).
  split; [exact Heq|].
  pose proof (to_simple_returns_dated _ Ha) as Hra.
  pose proof (to_simple_returns_dated _ Hi) as Hri.
  destruct (intersect_dates_common_axis_parts _ _ (proj1 Hra) (proj1 Hri) (proj2 Hra) (proj2 Hri))
    as [Hrun _].
  rewrite Hrun in Hrets. injection Hrets as <- <-. cbn [index restricted_to].
  split; [reflexivity|].
  destruct (to_simple_returns_drops_first_row_mask asset_prices) as (mask & Hmask & Hlen).
  split.
  - intros d Hd. apply common_dates_In in Hd as [Hd _].
    change (In d (index (_to_simple_returns asset_prices))) in Hd. rewrite Hmask in Hd.
    exact (compress_In _ _ _ Hd).
  - unfold len in *. cbn [index]. unfold common_dates.
    etransitivity; [apply filter_length_le|exact Hlen].
Qed.

Lemma main_returns_lose_first_date_witness :
  exists log0 asset_prices idx_prices asset_rets idx_rets,
    main_prices sample_env (sample_args 3) = (log0, Ok (asset_prices, idx_prices)) /\
    len asset_prices = 3%nat /\
    index asset_rets = index idx_rets /\
    (len asset_rets <= pred (len asset_prices))%nat.
Proof.
  destruct (main_prices sample_env (sample_args 3)) as [log0 [e|[a i]]] eqn:Hprices;
    [vm_compute in Hprices; discriminate|].
  destruct (_intersect_dates (_to_simple_returns a) (_to_simple_returns i))
    as [e|[ra ri]] eqn:Hrets.
  { rewrite intersect_dates_total in Hrets. discriminate. }
  destruct (main_returns_lose_first_date sample_env (sample_args 3) log0 a i ra ri
              sample_source_dated sample_resampler_dated Hprices Hrets)
    as (_ & Heq & _ & Hlen).
  exists log0, a, i, ra, ri. split; [reflexivity|].
  split; [|split; [exact Heq|exact Hlen]].
  vm_compute in Hprices. injection Hprices as _ <- _. reflexivity.
Defined.

(** ** The loader *)

Lemma index_eqb_refl a : pd.index_eqb a a = true.
Proof. unfold pd.index_eqb. destruct (decide (a = a)); [reflexivity|contradiction]. Qed.

Lemma sorted_app (l1 l2 : list date) :
  StronglySorted Z.le l1 -> StronglySorted Z.le l2 ->
  (forall x y, In x l1 -> In y l2 -> x <= y) ->
  StronglySorted Z.le (l1 ++ l2).
Proof.
  induction 1 as [|h t Hs IH Hall]; intros H2 Hle; simpl; [exact H2|].
  constructor.
  - apply IH; [exact H2|]. intros x y Hx Hy. apply Hle; [now right|exact Hy].
  - apply List.Forall_app. split; [exact Hall|].
    apply List.Forall_forall. intros y Hy. apply Hle; [now left|exact Hy].
Qed.

Lemma sorted_constant {A} (d : date) (l : list A) :
  StronglySorted Z.le (map (fun _ => d) l).
Proof.
  induction l as [|x l IH]; simpl; constructor; [exact IH|].
  apply List.Forall_forall. intros y Hy. apply in_map_iff in Hy as (_ & <- & _). lia.
Qed.

Lemma sorted_repeated {A} (g : date -> list A) (l : list date) :
  StronglySorted Z.le l ->
  StronglySorted Z.le (flat_map (fun d => map (fun _ => d) (g d)) l).
Proof.
  induction 1 as [|h t Hs IH Hall]; simpl; [constructor|].
  apply sorted_app; [apply sorted_constant|exact IH|].
  intros x y Hx Hy. apply in_map_iff in Hx as (_ & <- & _).
  apply in_flat_map in Hy as (d & Hd & Hy). apply in_map_iff in Hy as (_ & <- & _).
  exact (proj1 (List.Forall_forall _ _) Hall d Hd).
Qed.

Lemma compress_sorted mask (l : list date) :
  StronglySorted Z.le l -> StronglySorted Z.le (pd.compress mask l).
Proof.
  intros H. revert mask. induction H as [|h t Hs IH Hall]; intros [|b mask]; simpl;
    try constructor.
  destruct b; [|apply IH]. constructor; [apply IH|].
  apply List.Forall_forall. intros y Hy.
  exact (proj1 (List.Forall_forall _ _) Hall y (compress_In _ _ _ Hy)).
Qed.

Lemma loader_join_dates ast idx :
  StronglySorted Z.le (index (loader_join ast idx)) /\
  forall d, In d (index (loader_join ast idx)) -> In d (index ast) /\ In d (index idx).
Proof.
  unfold loader_join, pd.join_inner. cbn [index pd.sort_index]. split.
  - apply sorted_repeated. apply Sorted_StronglySorted; [intros x y z; apply Z.le_trans|].
    apply sorted_values_nondecreasing.
  - intros d Hd. apply in_flat_map in Hd as (k & Hk & Hd).
    apply in_map_iff in Hd as (x & <- & Hx). split.
    + exact (Permutation_in _ (sorted_values_perm (index ast)) Hk).
    + rewrite rows_at_self in Hx. apply filter_In in Hx as [Hx Heq].
      apply Z.eqb_eq in Heq. subst x.
      exact (Permutation_in _ (sorted_values_perm (index idx)) Hx).
Qed.

(** What the loader does once both tables are read. *)
Lemma load_returns_steps env index_csv assets_csv date_col idx ast :
  read_csv_indexed env index_csv date_col = Ok idx ->
  read_csv_indexed env assets_csv date_col = Ok ast ->
  load_returns_from_csv env index_csv assets_csv date_col =
  match last (columns (loader_join ast idx)) with
  | None => Raise IndexError
  | Some c =>
      if (length (index (loader_join ast idx))
          + length (columns (pd.dropna_columns_all (pd.iloc_but_last (loader_join ast idx))))
          =? 0)%nat
      then Raise TypeError
      else
        let df2 := pd.dropna_rows_any
          (mkDataFrame (index (loader_join ast idx))
             (("index_ret", snd c)
              :: columns (pd.dropna_columns_all (pd.iloc_but_last (loader_join ast idx))))) in
        Ok (mkSeries "index_ret" (index df2)
              (pd.compress
                 (pd.notna_all
                    (mkDataFrame (index (loader_join ast idx))
                       (("index_ret", snd c)
                        :: columns (pd.dropna_columns_all
                                      (pd.iloc_but_last (loader_join ast idx))))))
                 (snd c)),
            pd.iloc_from_second df2)
  end.
Proof.
  intros Hidx Hast. unfold load_returns_from_csv. rewrite Hidx, Hast.
  cbn [rbind Ok]. cbv zeta. fold (loader_join ast idx).
  unfold pd.iloc_last. destruct (last (columns (loader_join ast idx))) as [c|]; [|reflexivity].
  cbn [rbind Ok]. unfold pd.concat_series_frame.
  change (index (pd.dropna_columns_all (pd.iloc_but_last (loader_join ast idx))))
    with (index (loader_join ast idx)).
  destruct (_ =? 0)%nat; [reflexivity|]. unfold pd.concat_axis1.
  cbn [forallb index pd.to_frame pd.rename pd.series_of s_index pd.dropna_columns_all
       pd.iloc_but_last].
  rewrite index_eqb_refl. cbn [andb rbind Ok flat_map columns pd.to_frame name values app
                               pd.rename pd.series_of].
  rewrite app_nil_r. reflexivity.
Qed.

(** X12: the series that [load_returns_from_csv] returns is named
    "index_ret", and the dates of what it returns are dates that both the
    asset table and the index table have, in ascending order, however the
    rows of the two files were ordered. *)
Theorem load_returns_dates (env : Env) (index_csv assets_csv date_col : string)
    (idx ast : DataFrame) (y : Series) (X : DataFrame) :
  read_csv_indexed env index_csv date_col = Ok idx ->
  read_csv_indexed env assets_csv date_col = Ok ast ->
  load_returns_from_csv env index_csv assets_csv date_col = Ok (y, X) ->
  name y = "index_ret" /\
  nondecreasing (index X) /\
  (forall d, In d (index X) -> In d (index ast) /\ In d (index idx)).
Proof.
  intros Hidx Hast Hload.
  rewrite (load_returns_steps env index_csv assets_csv date_col idx ast Hidx Hast) in Hload.
  destruct (last (columns (loader_join ast idx))) as [c|]; [|discriminate].
  destruct (_ =? 0)%nat; [discriminate|].
  cbv zeta in Hload. injection Hload as <- <-.
  destruct (loader_join_dates ast idx) as [Hsorted Hdates].
  split; [reflexivity|]. cbn [index pd.iloc_from_second pd.dropna_rows_any pd.select_rows].
  split.
  - apply StronglySorted_Sorted. now apply compress_sorted.
  - intros d Hd. apply Hdates. exact (compress_In _ _ _ Hd).
Qed.

Lemma load_returns_dates_witness :
  exists y X,
    load_returns_from_csv sample_env "returns_index.csv" "returns_assets.csv" "Date"
    = Ok (y, X) /\
    name y = "index_ret" /\ index X = [2] /\ nondecreasing (index X).
Proof.
  destruct (load_returns_from_csv sample_env "returns_index.csv" "returns_assets.csv" "Date")
    as [e|[y X]] eqn:Hload; [vm_compute in Hload; discriminate|].
  destruct (load_returns_dates sample_env "returns_index.csv" "returns_assets.csv" "Date"
              _ _ y X eq_refl eq_refl Hload) as (Hname & Hsorted & _).
  exists y, X. split; [reflexivity|]. split; [exact Hname|]. split; [|exact Hsorted].
  vm_compute in Hload. injection Hload as _ <-. reflexivity.
Defined.

(** X13: a failure of either read is the failure of
    [load_returns_from_csv], the index file being read first; and when
    neither table has a column besides the dates, the loader fails with an
    [IndexError], since the joined table has no last column to take. *)
Theorem load_returns_failures (env : Env) (index_csv assets_csv date_col : string) :
  (forall e, read_csv_indexed env index_csv date_col = Raise e ->
     load_returns_from_csv env index_csv assets_csv date_col = Raise e) /\
  (forall idx e, read_csv_indexed env index_csv date_col = Ok idx ->
     read_csv_indexed env assets_csv date_col = Raise e ->
     load_returns_from_csv env index_csv assets_csv date_col = Raise e) /\
  (forall idx ast, read_csv_indexed env index_csv date_col = Ok idx ->
     read_csv_indexed env assets_csv date_col = Ok ast ->
     columns ast = [] -> columns idx = [] ->
     load_returns_from_csv env index_csv assets_csv date_col = Raise IndexError).
Proof.
  split; [|split].
  - intros e H. unfold load_returns_from_csv. now rewrite H.
  - intros idx e Hidx Hast. unfold load_returns_from_csv. rewrite Hidx. cbn [rbind].
    now rewrite Hast.
  - intros idx ast Hidx Hast Ha Hi.
    rewrite (load_returns_steps env index_csv assets_csv date_col idx ast Hidx Hast).
    replace (columns (loader_join ast idx)) with (@nil (string * list cell)); [reflexivity|].
    unfold loader_join, pd.join_inner, pd.sort_index. cbn [columns].
    now rewrite Ha, Hi.
Qed.

Lemma load_returns_failures_witness :
  load_returns_from_csv
    (env_around (Ok (sample_args 250)) sample_reader
                (fun _ _ => Ok (mkDataFrame [1; 2] [])) no_failure)
    "returns_index.csv" "returns_assets.csv" "Date"
  = Raise IndexError.
Proof.
  destruct (load_returns_failures
              (env_around (Ok (sample_args 250)) sample_reader
                          (fun _ _ => Ok (mkDataFrame [1; 2] [])) no_failure)
              "returns_index.csv" "returns_assets.csv" "Date") as (_ & _ & H).
  exact (H _ _ eq_refl eq_refl eq_refl eq_refl).
Defined.

(** *** Tables without a common date *)







(** ** The standardiser *)

(** X14: whatever the flags, [standardise_returns] keeps the shape of its
    inputs (the name and the dates of the series, the dates, the labels and
    the column lengths of the table), and it never scales the index series:
    the series returned with [scale] set is the one returned without. *)
Theorem standardise_returns_shape (env : Env) (y : Series) (X : DataFrame)
    (demean scale : bool) :
  name (fst (standardise_returns env y X demean scale)) = name y /\
  s_index (fst (standardise_returns env y X demean scale)) = s_index y /\
  length (values (fst (standardise_returns env y X demean scale))) = length (values y) /\
  index (snd (standardise_returns env y X demean scale)) = index X /\
  labels (snd (standardise_returns env y X demean scale)) = labels X /\
  columnwise (fun c c2 => length c2 = length c) X
             (snd (standardise_returns env y X demean scale)) /\
  fst (standardise_returns env y X demean scale)
  = fst (standardise_returns env y X demean false).
Proof.
  unfold standardise_returns, labels.
  destruct demean, scale; cbn [fst snd name s_index values index columns map_columns];
    rewrite ?map_map, ?length_map; cbn [fst snd];
    repeat split;
    rewrite ?map_columns_compose;
    try (apply columnwise_map_columns; intros c _; now rewrite ?length_map);
    try (apply columnwise_refl; reflexivity).
Qed.

Lemma replace_zero_nonzero (x : cell) :
  PrimFloat.eqb (pd.replace 0%float 1%float x) 0%float = false.
Proof.
  unfold pd.replace. destruct (PrimFloat.eqb x 0%float) eqn:Hx; [reflexivity|exact Hx].
Qed.

Lemma scale_column_scaled env c :
  scaled_column env c
    (map (fun v => (v / pd.replace 0%float 1%float (column_std env c))%float) c).
Proof.
  unfold scaled_column, pd.replace. repeat split.
  - intros H. now rewrite H.
  - intros H. now rewrite H.
  - intros Hcount. unfold column_std. rewrite (std_undefined _ _ c Hcount). simpl.
    apply List.Forall_forall. intros v Hv. apply in_map_iff in Hv as (x & <- & _).
    apply div_by_nan.
Qed.

(** X15: with [scale=true], [standardise_returns] divides each asset column,
    demeaned first when [demean] is set, by its standard deviation when that
    is not equal to zero, and by 1 when it is equal to zero, so that it
    never divides by zero; the dates stay.  A column with at most one
    defined cell has an undefined standard deviation, which is not replaced,
    and comes out undefined in every cell.  This holds in whatever order the
    sums of the mean and of the standard deviation are taken. *)
Theorem standardise_returns_scale (env : Env) (y : Series) (X : DataFrame) (demean : bool) :
  index (snd (standardise_returns env y X demean true)) = index X /\
  columnwise (fun c c2 => scaled_column env (demeaned env demean c) c2 /\
                          divided_by_nonzero (demeaned env demean c) c2)
             X (snd (standardise_returns env y X demean true)).
Proof.
  unfold standardise_returns, demeaned. destruct demean; simpl.
  - split; [reflexivity|]. rewrite map_columns_compose.
    apply columnwise_map_columns. intros c _. split.
    + apply (scale_column_scaled env
               (map (fun v => (v - pd.mean (np_sum env MeanOfColumn) (snd c))%float) (snd c))).
    + eexists. split; [apply replace_zero_nonzero|reflexivity].
  - split; [reflexivity|].
    apply columnwise_map_columns. intros c _. split; [apply scale_column_scaled|].
    eexists. split; [apply replace_zero_nonzero|reflexivity].
Qed.

Lemma standardise_returns_scale_witness :
  snd (standardise_returns sample_env one_day_index two_day_assets false true)
  = mkDataFrame [2; 3]
      [("AAPL.US", [1 / PrimFloat.sqrt 2; 3 / PrimFloat.sqrt 2]%float);
       ("MSFT.US", [0.5 / 1; 0.5 / 1]%float)] /\
  columnwise (fun c c2 => scaled_column sample_env (demeaned sample_env false c) c2 /\
                          divided_by_nonzero (demeaned sample_env false c) c2)
    two_day_assets
    (snd (standardise_returns sample_env one_day_index two_day_assets false true)).
Proof.
  split; [reflexivity|].
  apply (standardise_returns_scale sample_env one_day_index two_day_assets false).
Defined.
